(** * GoSearch: ingestion and search-serving pipeline

    A shallow embedding of the scraper (extractSearchTerms, alreadyProcessed,
    markAsProcessed, StartScraping, tryScrapeInLanguages, buildWikipediaURL,
    scrapeWikipedia, savePageToDBWithLang) and of the search backend
    (searchPagesInEs, syncPagesToElasticsearch), with the properties the
    specification states about them.

    Modelling conventions.
    - Go strings are [string] (byte sequences).  Case mapping and white space
      follow Go on the ASCII range; bytes above 127 are left alone by
      [ToLower] and are never white space.
    - A Go slice is [slice A = option (list A)]: [None] is the nil slice that
      [var s []T] declares, [append] always yields a non-nil slice.
    - A Go [error] is [option string] ([None] is nil), carrying its message.
    - The world (tables of the relational store, the search index, the
      history of every external interaction) is threaded explicitly through
      the state monad [M].  Whatever the program cannot decide itself (what a
      web request returns, whether a database or search-engine call fails,
      what time it is, what a file contains) is read from an [Environment],
      an oracle that may depend on the whole history so far. *)

From Stdlib Require Import ZArith NArith Ascii.
From stdpp Require Import base option list strings gmap pretty.

Local Open Scope Z_scope.

(** ** Go strings *)

Module GoStrings.

Definition dquote : ascii := Ascii.ascii_of_nat 34.
Definition newline : ascii := Ascii.ascii_of_nat 10.
Definition creturn : ascii := Ascii.ascii_of_nat 13.
Definition space : ascii := Ascii.ascii_of_nat 32.
Definition underscore : ascii := Ascii.ascii_of_nat 95.
Definition percent : ascii := Ascii.ascii_of_nat 37.
Definition backslash : ascii := Ascii.ascii_of_nat 92.

Definition is_empty (s : string) : bool :=
  match s with EmptyString => true | String _ _ => false end.

Fixpoint chars (s : string) : list ascii :=
  match s with
  | EmptyString => []
  | String c s' => c :: chars s'
  end.

Fixpoint map_chars (f : ascii → ascii) (s : string) : string :=
  match s with
  | EmptyString => EmptyString
  | String c s' => String (f c) (map_chars f s')
  end.

(** unicode.IsUpper / unicode.ToLower on the ASCII range. *)
Definition is_upper (c : ascii) : bool :=
  let n := Ascii.N_of_ascii c in ((65 <=? n) && (n <=? 90))%N.

Definition to_lower (c : ascii) : ascii :=
  if is_upper c then Ascii.ascii_of_N (Ascii.N_of_ascii c + 32) else c.

(** strings.ToLower *)
Definition ToLower (s : string) : string := map_chars to_lower s.

(** strings.TrimSpace: drop leading, then trailing white space. *)
Fixpoint TrimLeft (s : string) : string :=
  match s with
  | EmptyString => EmptyString
  | String c s' => if Ascii.is_space c then TrimLeft s' else s
  end.

Fixpoint TrimRight (s : string) : string :=
  match s with
  | EmptyString => EmptyString
  | String c s' =>
      let t := TrimRight s' in
      if Ascii.is_space c && is_empty t then EmptyString else String c t
  end.

Definition TrimSpace (s : string) : string := TrimRight (TrimLeft s).

(** strings.ReplaceAll(s, old, new) for one-byte [old] and [new]. *)
Definition ReplaceAll (s : string) (old new : ascii) : string :=
  map_chars (λ c, if Ascii.eqb c old then new else c) s.

(** [strip_prefix p s] is the rest of [s] after the prefix [p], if any. *)
Fixpoint strip_prefix (p s : string) : option string :=
  match p, s with
  | EmptyString, _ => Some s
  | String a p', String b s' =>
      if Ascii.eqb a b then strip_prefix p' s' else None
  | String _ _, EmptyString => None
  end.

(** strings.Contains(s, sub) *)
Fixpoint Contains (s sub : string) : bool :=
  match strip_prefix sub s with
  | Some _ => true
  | None =>
      match s with
      | EmptyString => false
      | String _ s' => Contains s' sub
      end
  end.

(** bufio.ScanLines over a whole input: lines are ended by a newline, one
    trailing carriage return is dropped from each, and a last line without
    a newline counts when it holds at least one byte.  [scanLines s] is the
    first segment of [s] with what follows its newline, already split. *)
Definition dropCR (s : string) : string :=
  match String.rev s with
  | String c r => if Ascii.eqb c creturn then String.rev r else s
  | EmptyString => s
  end.

Definition finish_lines (seg : string) (r : option (list string)) : list string :=
  match r with
  | None => if is_empty seg then [] else [dropCR seg]
  | Some rest => dropCR seg :: rest
  end.

Fixpoint scanLines (s : string) : string * option (list string) :=
  match s with
  | EmptyString => (EmptyString, None)
  | String c s' =>
      let '(seg, r) := scanLines s' in
      if Ascii.eqb c newline then (EmptyString, Some (finish_lines seg r))
      else (String c seg, r)
  end.

Definition ScanLines (s : string) : list string :=
  let '(seg, r) := scanLines s in finish_lines seg r.

(** bufio.MaxScanTokenSize: a Scanner with the default buffer stops (with
    ErrTooLong) at the first line that does not fit in 64 KiB together
    with its newline. *)
Definition MaxScanTokenSize : N := 65536.

Fixpoint scanner_tokens (ls : list string) : list string :=
  match ls with
  | [] => []
  | l :: ls' =>
      if (N.of_nat (String.length l) <? MaxScanTokenSize)%N
      then l :: scanner_tokens ls' else []
  end.

End GoStrings.
Import GoStrings.

(** ** The log-line pattern: [query=], a quote, one or more bytes other
    than the quote (the capture group), and a closing quote *)

Module QueryRegexp.

(** The literal prefix of the pattern: [query=] and the opening quote. *)
Definition marker : string := "query=" +:+ String dquote EmptyString.

(** The longest run of bytes other than the quote, and what follows it. *)
Fixpoint span_not_quote (s : string) : string * string :=
  match s with
  | EmptyString => (EmptyString, EmptyString)
  | String c s' =>
      if Ascii.eqb c dquote then (EmptyString, s)
      else let '(run, rest) := span_not_quote s' in (String c run, rest)
  end.

(** A match that starts at the first byte of [s]: the marker, a non-empty
    run without quotes (the greedy group cannot stop earlier, since what
    follows must be a quote), and the closing quote. *)
Definition match_at (s : string) : option string :=
  match strip_prefix marker s with
  | None => None
  | Some s1 =>
      match span_not_quote s1 with
      | (String c run, String _ _) => Some (String c run)
      | _ => None
      end
  end.

(** regexp.FindStringSubmatch: the leftmost match; the result is the
    capture group [match[1]], and [None] stands for the nil slice that
    fails the test [len(match) > 1]. *)
Fixpoint FindStringSubmatch (s : string) : option string :=
  match match_at s with
  | Some m => Some m
  | None =>
      match s with
      | EmptyString => None
      | String _ s' => FindStringSubmatch s'
      end
  end.

End QueryRegexp.

(** ** The LIKE operator of the relational store

    [content LIKE pattern] as PostgreSQL evaluates it: [%] matches any
    sequence of characters, [_] any single character, a backslash makes the
    next character literal, every other character matches itself (case
    matters).  A pattern that ends in a lone backslash is rejected. *)

Module SqlLike.

Inductive token := TokAny | TokOne | TokChar (c : ascii).

Fixpoint parse (pat : string) : option (list token) :=
  match pat with
  | EmptyString => Some []
  | String c pat' =>
      if Ascii.eqb c backslash then
        match pat' with
        | EmptyString => None
        | String d pat'' => cons (TokChar d) <$> parse pat''
        end
      else if Ascii.eqb c percent then cons TokAny <$> parse pat'
      else if Ascii.eqb c underscore then cons TokOne <$> parse pat'
      else cons (TokChar c) <$> parse pat'
  end.

Fixpoint matches (p : list token) (s : string) {struct p} : bool :=
  match p with
  | [] => is_empty s
  | TokAny :: p' =>
      (fix any (s : string) : bool :=
         matches p' s ||
         match s with
         | EmptyString => false
         | String _ s' => any s'
         end) s
  | TokOne :: p' =>
      match s with
      | EmptyString => false
      | String _ s' => matches p' s'
      end
  | TokChar c :: p' =>
      match s with
      | EmptyString => false
      | String d s' => Ascii.eqb c d && matches p' s'
      end
  end.

(** [None]: the statement fails on a malformed pattern. *)
Definition like (s pat : string) : option bool :=
  (λ p, matches p s) <$> parse pat.

End SqlLike.

(** ** Data model *)

Definition error : Type := option string.

Definition slice (A : Type) : Type := option (list A).

Definition elems {A} (s : slice A) : list A := default [] s.

Definition len {A} (s : slice A) : nat := length (elems s).

Definition append {A} (s : slice A) (x : A) : slice A := Some (elems s ++ [x]).

(** Modelled from the spec: the declaration of the Page struct is not among
    the sources.  Its fields are the ones the code reads and writes
    (page.URL, page.Title, page.Content, page.Language, page.LastUpdated)
    and the ones of the Page entity of the specification; the same record
    stands for a row of the pages table
    (url, title, content, language, last_updated). *)
Record Page : Type := mkPage {
  URL : string;
  Title : string;
  Content : string;
  Language : string;
  LastUpdated : Z
}.

(** The zero value [Page{}]. *)
Definition zeroPage : Page := mkPage EmptyString EmptyString EmptyString EmptyString 0.

Definition setTitle (p : Page) (t : string) : Page :=
  mkPage (URL p) t (Content p) (Language p) (LastUpdated p).

Definition setContent (p : Page) (c : string) : Page :=
  mkPage (URL p) (Title p) c (Language p) (LastUpdated p).

(** The JSON document [docMap] that the synchronizer submits. *)
Record Doc : Type := mkDoc {
  doc_title : string;
  doc_url : string;
  doc_content : string;
  doc_language : string;
  doc_last_updated : string
}.

(** What one [Collector.Visit] does before it returns: the error it returns,
    the status code of the response handed to OnResponse (if a response
    came), the text of each element matching [#firstHeading], and for each
    element matching [div.mw-parser-output] the texts of its [p] elements. *)
Record VisitResult : Type := mkVisit {
  visit_err : error;
  visit_status : option Z;
  visit_headings : list string;
  visit_outputs : list (list string)
}.

Inductive OpenResult : Type :=
| OpenOk (content : string)
| OpenErr (msg : string).

(** The statements the program sends to the relational store. *)
Inductive DbRequest : Type :=
| SelectProcessedExists (term : string)
| InsertProcessed (term : string)
| UpsertPage (url title content lang : string)
| SelectPagesLike (likeQ : string)
| SelectPages.

(** The requests the program sends to the search engine. *)
Inductive EsRequest : Type :=
| EsExists
| EsDelete
| EsCreate (mappings : string)
| EsIndex (doc : Doc).

(** What an esapi call returns: an error (no response), or a response. *)
Inductive EsReply : Type :=
| EsErr (msg : string)
| EsResp (status : Z) (body : string).

(** A request that the engine does not carry out: the transport fails, or
    the engine answers with an error status, [400 + n]. *)
Inductive EsFault : Type :=
| FaultTransport (msg : string)
| FaultStatus (n : nat) (body : string).

(** What [esClient.Search] and the decoding of its body come to. *)
Inductive SearchReply : Type :=
| SearchErr (msg : string)
| SearchUndecodable (msg : string)
| SearchHits (hits : list Page).

(** Every interaction with the outside, in the order it happens. *)
Inductive Event : Type :=
| EvLog (msg : string)
| EvPrint (msg : string)
| EvOpen (path : string) (r : OpenResult)
| EvVisit (domain url : string) (r : VisitResult)
| EvDb (q : DbRequest) (err : error)
| EvEs (q : EsRequest) (r : EsReply)
| EvSearch (body : string) (r : SearchReply).

Record World : Type := mkWorld {
  trace : list Event;
  pages : list Page;
  processed_searches : list string;
  es_index : option (list Doc);
  esClient : bool
}.

Definition record (e : Event) (w : World) : World :=
  mkWorld (trace w ++ [e]) (pages w) (processed_searches w) (es_index w) (esClient w).

Definition setPages (ps : list Page) (w : World) : World :=
  mkWorld (trace w) ps (processed_searches w) (es_index w) (esClient w).

Definition setProcessed (ts : list string) (w : World) : World :=
  mkWorld (trace w) (pages w) ts (es_index w) (esClient w).

Definition setIndex (ix : option (list Doc)) (w : World) : World :=
  mkWorld (trace w) (pages w) (processed_searches w) ix (esClient w).

(** The part of the world that the program does not control. *)
Record Environment : Type := mkEnv {
  (** golang.org/x/text/cases: [cases.Title(language.Und).String] *)
  cases_Title : string → string;
  (** esapi: [Response.String] *)
  Response_String : Z → string → string;
  (** [time.Now()] and the store's [NOW()] *)
  time_Now : list Event → Z;
  (** [Time.Format(time.RFC3339)] *)
  Format_RFC3339 : Z → string;
  os_Open : list Event → string → OpenResult;
  colly_Visit : list Event → string → string → VisitResult;
  (** [Some msg]: the statement fails with that error and changes nothing *)
  db_fault : list Event → DbRequest → option string;
  es_fault : list Event → EsRequest → option EsFault;
  es_search : list Event → option (list Doc) → string → SearchReply
}.

(** ** The state monad *)

Definition M (A : Type) : Type := World → A * World.

Definition ret {A} (a : A) : M A := λ w, (a, w).

Definition bind {A B} (m : M A) (k : A → M B) : M B :=
  λ w, let '(a, w') := m w in k a w'.

Notation "x <- m ;; k" := (bind m (λ x, k))
  (at level 100, m at next level, right associativity).
Notation "m ;;; k" := (bind m (λ _, k))
  (at level 100, right associativity).

(** [for _, x := range xs { body x }] *)
Fixpoint forEach {A} (xs : list A) (body : A → M unit) : M unit :=
  match xs with
  | [] => ret tt
  | x :: xs' => body x ;;; forEach xs' body
  end.

Definition gets {A} (f : World → A) : M A := λ w, (f w, w).

Definition emit (e : Event) : M unit := λ w, (tt, record e w).

(** [log.Printf] and [log.Println] (time stamp and final newline aside). *)
Definition log_Printf (msg : string) : M unit := emit (EvLog msg).

(** [fmt.Printf] and [fmt.Println] on standard output. *)
Definition fmt_Printf (msg : string) : M unit := emit (EvPrint msg).

Definition nl : string := String newline EmptyString.

Definition quoted (s : string) : string :=
  String dquote (s +:+ String dquote EmptyString).

(** The verb [%v] applied to an error. *)
Definition verb_v (err : error) : string := default "<nil>" err.

Definition is_nil {A} (o : option A) : bool :=
  match o with None => true | Some _ => false end.

(** ** The relational store *)

(** INSERT INTO pages ... ON CONFLICT (url) DO UPDATE SET title, content,
    language, last_updated: the row with the same url is overwritten where
    it stands, otherwise the row is added. *)
Fixpoint upsert_row (r : Page) (rows : list Page) : list Page :=
  match rows with
  | [] => [r]
  | x :: rows' =>
      if decide (URL x = URL r) then r :: rows' else x :: upsert_row r rows'
  end.

(** INSERT INTO processed_searches ... ON CONFLICT DO NOTHING *)
Definition insert_term (t : string) (rows : list string) : list string :=
  if decide (t ∈ rows) then rows else rows ++ [t].

(** SELECT ... FROM pages WHERE content LIKE pattern, in storage order. *)
Definition select_like (likeQ : string) (rows : list Page) : list Page :=
  filter (λ r, SqlLike.like (Content r) likeQ = Some true) rows.

(** What the store refuses whatever its state. *)
Definition db_reject (q : DbRequest) : option string :=
  match q with
  | SelectPagesLike likeQ =>
      match SqlLike.parse likeQ with
      | None => Some "LIKE pattern must not end with escape character"
      | Some _ => None
      end
  | _ => None
  end.

Definition db_effect (now : Z) (q : DbRequest) (w : World) : World :=
  match q with
  | InsertProcessed t => setProcessed (insert_term t (processed_searches w)) w
  | UpsertPage url title content lang =>
      setPages (upsert_row (mkPage url title content lang now) (pages w)) w
  | SelectProcessedExists _ | SelectPagesLike _ | SelectPages => w
  end.

(** ** The search engine: one index, [pages] *)

Definition IsError (status : Z) : bool := 299 <? status.

(** What the engine does with a request it carries out: the status and body
    of its response, and the index afterwards ([None]: no such index).
    Documents get ids of the engine's choosing, so indexing never replaces
    a document. *)
Definition es_apply (q : EsRequest) (ix : option (list Doc))
  : Z * string * option (list Doc) :=
  match q, ix with
  | EsExists, Some _ => (200, EmptyString, ix)
  | EsExists, None => (404, EmptyString, ix)
  | EsDelete, Some _ => (200, "acknowledged", None)
  | EsDelete, None => (404, "index_not_found_exception", None)
  | EsCreate _, None => (200, "acknowledged", Some [])
  | EsCreate _, Some _ => (400, "resource_already_exists_exception", ix)
  | EsIndex doc, Some docs => (201, "created", Some (docs ++ [doc]))
  | EsIndex doc, None => (201, "created", Some [doc])
  end.

Section Program.

Variable E : Environment.

Definition now : M Z := λ w, (time_Now E (trace w), w).

Definition os_open (path : string) : M OpenResult :=
  λ w, let r := os_Open E (trace w) path in (r, record (EvOpen path r) w).

Definition Visit (domain url : string) : M VisitResult :=
  λ w, let r := colly_Visit E (trace w) domain url in
       (r, record (EvVisit domain url r) w).

(** [db.Exec], [db.Query], [db.QueryRow]: the error of the call. *)
Definition db_call (q : DbRequest) : M error :=
  λ w, let err := match db_fault E (trace w) q with
                  | Some e => Some e
                  | None => db_reject q
                  end in
       let w1 := match err with
                 | Some _ => w
                 | None => db_effect (time_Now E (trace w)) q w
                 end in
       (err, record (EvDb q err) w1).

Definition es_call (q : EsRequest) : M EsReply :=
  λ w, match es_fault E (trace w) q with
       | Some (FaultTransport e) =>
           let r := EsErr e in (r, record (EvEs q r) w)
       | Some (FaultStatus n body) =>
           let r := EsResp (400 + Z.of_nat n) body in (r, record (EvEs q r) w)
       | None =>
           let '(status, body, ix) := es_apply q (es_index w) in
           let r := EsResp status body in
           (r, record (EvEs q r) (setIndex ix w))
       end.

Definition es_Search (body : string) : M SearchReply :=
  λ w, let r := es_search E (trace w) (es_index w) body in
       (r, record (EvSearch body r) w).

(** *** The scraper *)

(** The body of [for scanner.Scan()]. *)
Fixpoint scanLoop (lines : list string) (termsMap : gmap string bool)
  : M (gmap string bool) :=
  match lines with
  | [] => ret termsMap
  | line :: rest =>
      match QueryRegexp.FindStringSubmatch line with
      | Some m =>
          let term := ToLower (TrimSpace m) in
          fmt_Printf ("Extracted search term: " +:+ term +:+ nl) ;;;
          scanLoop rest (<[term := true]> termsMap)
      | None => scanLoop rest termsMap
      end
  end.

(** [for k := range termsMap]: Go leaves the order open; the model takes
    the order of [map_to_list]. *)
Definition extractSearchTerms (logPath : string) : M (slice string) :=
  r <- os_open logPath ;;
  match r with
  | OpenErr e => log_Printf ("Could not open log: " +:+ e) ;;; ret None
  | OpenOk content =>
      termsMap <- scanLoop (scanner_tokens (ScanLines content)) ∅ ;;
      ret (foldl append None (map_to_list termsMap).*1)
  end.

Definition alreadyProcessed (term : string) : M bool :=
  err <- db_call (SelectProcessedExists term) ;;
  match err with
  | Some e => log_Printf ("Error checking processed term: " +:+ e) ;;; ret false
  | None => gets (λ w, bool_decide (term ∈ processed_searches w))
  end.

Definition markAsProcessed (term : string) : M unit :=
  err <- db_call (InsertProcessed term) ;;
  match err with
  | Some e => log_Printf ("Error marking term as processed: " +:+ e)
  | None => ret tt
  end.

Definition buildWikipediaURL (term lang : string) : string :=
  let term := ReplaceAll term space underscore in
  "https://" +:+ lang +:+ ".wikipedia.org/wiki/" +:+ cases_Title E term.

(** The text that the callback on [div.mw-parser-output] collects. *)
Definition paragraphs_text (ps : list string) : string :=
  foldl (λ text p, text +:+ p +:+ nl) EmptyString ps.

Definition scrapeWikipedia (url lang : string) : M (Page * error) :=
  r <- Visit (lang +:+ ".wikipedia.org") url ;;
  let page := mkPage url EmptyString EmptyString lang 0 in
  let statusCode := default 0 (visit_status r) in
  let page := foldl setTitle page (visit_headings r) in
  let page :=
    foldl (λ p ps, setContent p (paragraphs_text ps)) page (visit_outputs r) in
  match visit_err r with
  | Some e => ret (page, Some e)
  | None =>
      if statusCode =? 404 then ret (page, Some "page not found (404)")
      else ret (page, None)
  end.

Fixpoint tryScrapeInLanguages (term : string) (langs : list string)
  : M (Page * string * error) :=
  match langs with
  | [] =>
      ret (zeroPage, EmptyString,
           Some ("no valid Wikipedia page found for term '" +:+ term +:+ "'"))
  | lang :: rest =>
      let url := buildWikipediaURL term lang in
      fmt_Printf ("Trying to scrape: " +:+ url +:+ nl) ;;;
      r <- scrapeWikipedia url lang ;;
      let '(page, err) := r in
      if is_nil err && negb (is_empty (Title page)) then ret (page, lang, None)
      else
        log_Printf ("Failed scraping " +:+ term +:+ " (" +:+ lang +:+ "): "
                    +:+ verb_v err) ;;;
        tryScrapeInLanguages term rest
  end.

Definition savePageToDBWithLang (page : Page) (lang : string) : M error :=
  if is_empty (Title page) || is_empty (URL page) || is_empty (Content page)
  then ret (Some "invalid page data")
  else
    err <- db_call (UpsertPage (URL page) (Title page) (Content page) lang) ;;
    match err with
    | Some e => ret (Some ("error inserting or updating page: " +:+ e))
    | None =>
        log_Printf ("Saved page to DB [" +:+ lang +:+ "]: " +:+ Title page) ;;;
        ret None
    end.

(** The body of [for _, term := range searchTerms] in StartScraping. *)
Definition scrapeTerm (term : string) : M unit :=
  processed <- alreadyProcessed term ;;
  if processed
  then fmt_Printf ("Skipping already processed term: " +:+ term +:+ nl)
  else
    r <- tryScrapeInLanguages term ["da"; "en"] ;;
    let '(page, lang, err) := r in
    match err with
    | Some e =>
        log_Printf ("Failed to scrape any language for term '" +:+ term
                    +:+ "': " +:+ e)
    | None =>
        err <- savePageToDBWithLang page lang ;;
        match err with
        | Some e => log_Printf ("Error saving page to DB: " +:+ e)
        | None => markAsProcessed term
        end
    end.

Definition StartScraping (logPath : string) : M unit :=
  searchTerms <- extractSearchTerms logPath ;;
  if (len searchTerms =? 0)%nat
  then fmt_Printf ("No search terms found." +:+ nl)
  else forEach (elems searchTerms) scrapeTerm.

End Program.

(** *** The search backend *)

(** The outcome of a call that can panic: dereferencing the nil [esClient]. *)
Inductive Outcome (A : Type) : Type :=
| Panic
| Return (a : A).
Arguments Panic {A}.
Arguments Return {A} a.

(** The multi_match request body built by Sprintf (layout aside): the query
    is spliced in as it is. *)
Definition search_body (query : string) : string :=
  "{" +:+ quoted "query" +:+ ": {" +:+ quoted "multi_match" +:+ ": {"
  +:+ quoted "query" +:+ ": " +:+ quoted query +:+ ", "
  +:+ quoted "fields" +:+ ": [" +:+ quoted "title^3" +:+ ", "
  +:+ quoted "url^2" +:+ ", " +:+ quoted "content" +:+ "]}}}".

(** The mappings of the index (layout aside). *)
Definition mappings : string :=
  "{" +:+ quoted "mappings" +:+ ": {" +:+ quoted "properties" +:+ ": {"
  +:+ quoted "title" +:+ ": {" +:+ quoted "type" +:+ ": " +:+ quoted "text" +:+ "}, "
  +:+ quoted "url" +:+ ": {" +:+ quoted "type" +:+ ": " +:+ quoted "keyword" +:+ "}, "
  +:+ quoted "content" +:+ ": {" +:+ quoted "type" +:+ ": " +:+ quoted "text" +:+ "}, "
  +:+ quoted "language" +:+ ": {" +:+ quoted "type" +:+ ": " +:+ quoted "keyword" +:+ "}, "
  +:+ quoted "last_updated" +:+ ": {" +:+ quoted "type" +:+ ": " +:+ quoted "date" +:+ "}}}}".

(** [rows.Scan(&p.Title, &p.URL, &p.Content)] into a fresh Page.  The three
    columns are text and never NULL, so the scan cannot fail. *)
Definition scanned (row : Page) : Page :=
  mkPage (URL row) (Title row) (Content row) EmptyString 0.

Section Search.

Variable E : Environment.

Definition searchPagesInEs (query : string) : M (slice Page * error) :=
  client <- gets esClient ;;
  if negb client then
    let likeQ := "%" +:+ query +:+ "%" in
    err <- db_call E (SelectPagesLike likeQ) ;;
    match err with
    | Some e => ret (None, Some e)
    | None =>
        rows <- gets (λ w, select_like likeQ (pages w)) ;;
        ret (foldl (λ pages row, append pages (scanned row)) None rows, None)
    end
  else
    r <- es_Search E (search_body query) ;;
    match r with
    | SearchErr e => ret (None, Some e)
    | SearchUndecodable e => ret (None, Some e)
    | SearchHits hits => ret (foldl append None hits, None)
    end.

(** The document built from one row: language is the empty string and
    last_updated the time of the call. *)
Definition docMap (row : Page) (t : Z) : Doc :=
  mkDoc (Title row) (URL row) (Content row) EmptyString (Format_RFC3339 E t).

(** The body of [for rows.Next()].  Marshalling a map of strings cannot
    fail. *)
Fixpoint indexLoop (rows : list Page) (count : Z) : M Z :=
  match rows with
  | [] => ret count
  | row :: rest =>
      t <- now E ;;
      indexRes <- es_call E (EsIndex (docMap row t)) ;;
      match indexRes with
      | EsErr e =>
          log_Printf ("Error indexing " +:+ URL row +:+ ": " +:+ e) ;;;
          indexLoop rest count
      | EsResp status body =>
          if IsError status then
            log_Printf ("Error response when indexing " +:+ URL row +:+ ": "
                        +:+ Response_String E status body) ;;;
            indexLoop rest count
          else
            log_Printf ("Indexed page: " +:+ URL row) ;;;
            indexLoop rest (count + 1)
      end
  end.

(** [if existsRes.StatusCode == 200 { ... }]: the error it returns with. *)
Definition deleteIfExists (status : Z) : M error :=
  if status =? 200 then
    log_Printf "Index 'pages' already exists - removing and rebuilding" ;;;
    deleteRes <- es_call E EsDelete ;;
    match deleteRes with
    | EsErr e => ret (Some ("error deleting index: " +:+ e))
    | EsResp st body =>
        if IsError st
        then ret (Some ("error response when deleting index: "
                        +:+ Response_String E st body))
        else ret None
    end
  else ret None.

(** From the creation of the index on: create it, read the rows, index
    them. *)
Definition createAndLoad : M (Outcome error) :=
  createRes <- es_call E (EsCreate mappings) ;;
  match createRes with
  | EsErr e => ret (Return (Some ("error creating index: " +:+ e)))
  | EsResp st body =>
      if IsError st
      then ret (Return (Some ("error response when creating index: "
                              +:+ Response_String E st body)))
      else
        qerr <- db_call E SelectPages ;;
        match qerr with
        | Some e =>
            ret (Return (Some ("error querying pages from DB: " +:+ e)))
        | None =>
            rows <- gets pages ;;
            count <- indexLoop rows 0 ;;
            log_Printf ("Synced " +:+ pretty count
                        +:+ " pages to Elasticsearch") ;;;
            ret (Return None)
        end
  end.

Definition syncPagesToElasticsearch : M (Outcome error) :=
  client <- gets esClient ;;
  if negb client then ret Panic else
  existsRes <- es_call E EsExists ;;
  match existsRes with
  | EsErr e => ret (Return (Some ("error checking if index exists: " +:+ e)))
  | EsResp status _ =>
      derr <- deleteIfExists status ;;
      match derr with
      | Some e => ret (Return (Some e))
      | None => createAndLoad
      end
  end.

End Search.


(** * The callers of the pipeline

    searchHandler (which serves a search and writes the search log that the
    extractor reads), the job that the scheduler runs every five minutes
    (scrape, then rebuild the index when pages were added), and
    initElasticsearch (which sets the client that the dispatcher and the
    synchronizer use). *)

(** ** %q: strconv.Quote

    On the ASCII range as Go does it; bytes above 127 are copied, as Go
    copies the printable characters that they encode. *)

Module Strconv.

Definition lowerhex : list ascii := chars "0123456789abcdef".

Definition hex_digit (n : N) : ascii :=
  default (Ascii.ascii_of_nat 48) (lowerhex !! N.to_nat n).

Definition letter_escape (c : string) : string := String backslash c.

Definition escape_byte (c : ascii) : string :=
  let n := Ascii.N_of_ascii c in
  if Ascii.eqb c dquote || Ascii.eqb c backslash
  then String backslash (String c EmptyString)
  else if ((32 <=? n) && (n <? 127) || (128 <=? n))%N then String c EmptyString
  else if (n =? 7)%N then letter_escape "a"
  else if (n =? 8)%N then letter_escape "b"
  else if (n =? 12)%N then letter_escape "f"
  else if (n =? 10)%N then letter_escape "n"
  else if (n =? 13)%N then letter_escape "r"
  else if (n =? 9)%N then letter_escape "t"
  else if (n =? 11)%N then letter_escape "v"
  else letter_escape
         (String (Ascii.ascii_of_nat 120)
            (String (hex_digit (n / 16)) (String (hex_digit (n mod 16)) EmptyString))).

Fixpoint escape (s : string) : string :=
  match s with
  | EmptyString => EmptyString
  | String c s' => escape_byte c +:+ escape s'
  end.

Definition Quote (s : string) : string :=
  String dquote (escape s +:+ String dquote EmptyString).

End Strconv.

(** ** What the callers need from their host *)

(** One entry of [searchResults]: the keys title, url and description. *)
Record SearchResult : Type := mkResult {
  res_title : string;
  res_url : string;
  res_description : string
}.

Record Host : Type := mkHost {
  os_Getenv : string → string;
  (** [Time.String], as Println prints [time.Now()] *)
  Time_String : Z → string;
  (** [SELECT COUNT( * ) FROM pages] fails with this error *)
  count_fault : list Event → option string;
  (** [elasticsearch.NewClient] for an address: its error *)
  es_NewClient : list Event → string → option string;
  (** [esClient.Info] at an address: its error *)
  es_Info : list Event → string → option string;
  (** [template.ParseFiles] of the layout and the search page: its error *)
  template_ParseFiles : list Event → option string;
  (** [ExecuteTemplate] on the query and the results: what it writes, chunk
      by chunk, and its error *)
  template_Execute :
    list Event → string → slice SearchResult → list string * error
}.

(** ** http.ResponseWriter *)

(** The status line sent, if any yet, and the body written so far. *)
Record Response : Type := mkResponse {
  resp_status : option Z;
  resp_body : string
}.

Definition noResponse : Response := mkResponse None EmptyString.

(** Only the first WriteHeader counts. *)
Definition WriteHeader (code : Z) (r : Response) : Response :=
  match resp_status r with
  | Some _ => r
  | None => mkResponse (Some code) (resp_body r)
  end.

(** A Write sends status 200 first when no status was sent. *)
Definition Write (data : string) (r : Response) : Response :=
  mkResponse (Some (default 200 (resp_status r))) (resp_body r +:+ data).

(** [http.Error]: the status, then the message and a newline. *)
Definition http_Error (msg : string) (code : Z) (r : Response) : Response :=
  Write (msg +:+ nl) (WriteHeader code r).

(** What serving one request comes to: the response, and the messages
    handed to searchLogger. *)
Record Served : Type := mkServed {
  response : Response;
  search_logged : list string
}.

Definition setClient (b : bool) (w : World) : World :=
  mkWorld (trace w) (pages w) (processed_searches w) (es_index w) b.

Section Callers.

Variable H : Host.
Variable E : Environment.

(** *** searchHandler *)

Definition parseFiles : M error := λ w, (template_ParseFiles H (trace w), w).

Definition executeTemplate (query : string) (results : slice SearchResult)
  : M (list string * error) :=
  λ w, (template_Execute H (trace w) query results, w).

(** [q] is the value of the URL parameter of that name (empty when the
    parameter is missing), [remoteAddr] is [r.RemoteAddr]. *)
Definition searchHandler (q remoteAddr : string) : M Served :=
  log_Printf "Search handler called" ;;;
  let queryParam := TrimSpace q in
  if is_empty queryParam
  then ret (mkServed (http_Error "No search query provided" 400 noResponse) [])
  else
    log_Printf ("Search query: " +:+ Strconv.Quote queryParam +:+ " from "
                +:+ remoteAddr) ;;;
    let logged := ["query=" +:+ Strconv.Quote queryParam +:+ " from="
                   +:+ remoteAddr] in
    r <- searchPagesInEs E queryParam ;;
    let '(found, err) := r in
    match err with
    | Some e =>
        log_Printf ("Error searching Elasticsearch: " +:+ e) ;;;
        ret (mkServed (http_Error "Error during search" 500 noResponse) logged)
    | None =>
        let searchResults :=
          foldl (λ rs page,
                   append rs (mkResult (Title page) (URL page) (Content page)))
            None (elems found) in
        perr <- parseFiles ;;
        match perr with
        | Some e =>
            log_Printf ("Error parsing search templates: " +:+ e) ;;;
            ret (mkServed
                   (http_Error "Error loading search template" 500 noResponse)
                   logged)
        | None =>
            x <- executeTemplate queryParam searchResults ;;
            let '(chunks, xerr) := x in
            let written := foldl (λ r data, Write data r) noResponse chunks in
            match xerr with
            | Some e =>
                log_Printf ("Error executing search template: " +:+ e) ;;;
                ret (mkServed
                       (http_Error "Error rendering search results" 500 written)
                       logged)
            | None => ret (mkServed written logged)
            end
        end
    end.

(** *** The scraping job of startCronScheduler *)

(** [db.QueryRow(...).Scan(&count)] on a count that starts at zero: the
    count stays zero when the statement fails.  The statement only reads,
    and leaves no event in the history. *)
Definition countPages : M (Z * error) :=
  λ w, match count_fault H (trace w) with
       | Some e => ((0, Some e), w)
       | None => ((Z.of_nat (length (pages w)), None), w)
       end.

(** The function registered for every fifth minute.  A panic of the
    synchronizer is a panic of the job. *)
Definition scrapeJob : M (Outcome unit) :=
  t <- now E ;;
  fmt_Printf ("Cron job: Running Wikipedia scraper at " +:+ Time_String H t +:+ nl) ;;;
  let logPath :=
    if is_empty (os_Getenv H "SEARCH_LOG_PATH") then "search.log"
    else os_Getenv H "SEARCH_LOG_PATH" in
  before <- countPages ;;
  let '(countBefore, err) := before in
  match err with
  | Some e => log_Printf ("Error getting page count before scraping: " +:+ e)
  | None => ret tt
  end ;;;
  StartScraping E logPath ;;;
  after <- countPages ;;
  let '(countAfter, err) := after in
  match err with
  | Some e => log_Printf ("Error getting page count after scraping: " +:+ e)
  | None => ret tt
  end ;;;
  if countBefore <? countAfter then
    log_Printf ("New pages added (" +:+ pretty countBefore +:+ " -> "
                +:+ pretty countAfter +:+ "). Syncing to Elasticsearch.") ;;;
    res <- syncPagesToElasticsearch E ;;
    match res with
    | Panic => ret Panic
    | Return (Some e) =>
        log_Printf ("Error syncing to Elasticsearch: " +:+ e) ;;; ret (Return tt)
    | Return None =>
        log_Printf "Synced scraped pages to Elasticsearch successfully." ;;;
        ret (Return tt)
    end
  else
    log_Printf "No new pages added. Skipping Elasticsearch sync." ;;;
    ret (Return tt).

(** *** initElasticsearch *)

(** [esClient, err = elasticsearch.NewClient(config)]: the client is nil
    when the call fails. *)
Definition newClient (addr : string) : M error :=
  λ w, let err := es_NewClient H (trace w) addr in (err, setClient (is_nil err) w).

Definition info (addr : string) : M error := λ w, (es_Info H (trace w) addr, w).

(** Once connected: create the index when the engine says it is not there
    (with the mappings of the synchronizer, layout aside). *)
Definition ensureIndex : M unit :=
  existsRes <- es_call E EsExists ;;
  match existsRes with
  | EsErr e => log_Printf ("Error checking if index exists: " +:+ e)
  | EsResp status _ =>
      if status =? 404 then
        log_Printf "Creating 'pages' index with proper mappings" ;;;
        createRes <- es_call E (EsCreate mappings) ;;
        match createRes with
        | EsErr e => log_Printf ("Error creating index: " +:+ e)
        | EsResp st body =>
            if IsError st
            then log_Printf ("Error response when creating index: "
                             +:+ Response_String E st body)
            else log_Printf "Created 'pages' index successfully"
        end
      else log_Printf "'pages' index already exists"
  end.

(** One turn of [for _, config := range configs]: [true] when the function
    returns from inside the loop. *)
Definition tryConfig (addr : string) : M bool :=
  nerr <- newClient addr ;;
  match nerr with
  | Some e =>
      log_Printf ("Error creating Elasticsearch client with config [" +:+ addr
                  +:+ "]: " +:+ e) ;;;
      ret false
  | None =>
      ierr <- info addr ;;
      match ierr with
      | None =>
          log_Printf ("Successfully connected to Elasticsearch via " +:+ addr) ;;;
          ensureIndex ;;;
          ret true
      | Some e =>
          log_Printf ("Error connecting to Elasticsearch via " +:+ addr +:+ ": "
                      +:+ e) ;;;
          ret false
      end
  end.

(** [for i := 0; i < maxRetries; i++], with [remaining] turns to go: HTTP
    first, then HTTPS, then the pause before the next turn. *)
Fixpoint connectLoop (esHost : string) (remaining : nat) (i : Z) : M bool :=
  match remaining with
  | O => ret false
  | S k =>
      ok <- tryConfig ("http://" +:+ esHost +:+ ":9200") ;;
      if ok then ret true else
      ok <- tryConfig ("https://" +:+ esHost +:+ ":9200") ;;
      if ok then ret true else
      log_Printf ("Could not connect to Elasticsearch (attempt " +:+ pretty (i + 1)
                  +:+ "/" +:+ pretty 10 +:+ "). Retrying in 5s...") ;;;
      connectLoop esHost k (i + 1)
  end.

Definition initElasticsearch : M unit :=
  let esHost :=
    if is_empty (os_Getenv H "ES_HOST") then "localhost" else os_Getenv H "ES_HOST" in
  connected <- connectLoop esHost 10 0 ;;
  if connected then ret tt
  else
    log_Printf ("Warning: Failed to connect to Elasticsearch after " +:+ pretty 10
                +:+ " attempts") ;;;
    log_Printf "Application will continue with PostgreSQL search fallback" ;;;
    (λ w, (tt, setClient false w)).

End Callers.
(** * Vocabulary of the properties *)


Fixpoint last_char (s : string) : option ascii :=
  match s with
  | EmptyString => None
  | String c EmptyString => Some c
  | String _ s' => last_char s'
  end.


(** The form in which a captured query enters the map of terms. *)
Definition normalise (raw : string) : string := ToLower (TrimSpace raw).

(** The lines that the scanner hands to the loop of extractSearchTerms. *)
Definition log_lines (E : Environment) (w : World) (logPath : string) : list string :=
  match os_Open E (trace w) logPath with
  | OpenOk content => scanner_tokens (ScanLines content)
  | OpenErr _ => []
  end.

(** The world after a sequence of upserts, whether each succeeds or not. *)
Definition upsertAll (E : Environment) (ps : list (Page * string)) (w : World) : World :=
  foldl (λ w pl, (savePageToDBWithLang E pl.1 pl.2 w).2) w ps.

(** What scrapeWikipedia returns once its Visit has come to [r]: the page
    filled in by the callbacks, and the error. *)
Definition scraped (url lang : string) (r : VisitResult) : Page * error :=
  let page := foldl setTitle (mkPage url EmptyString EmptyString lang 0)
                (visit_headings r) in
  let page := foldl (λ p ps, setContent p (paragraphs_text ps)) page
                (visit_outputs r) in
  match visit_err r with
  | Some e => (page, Some e)
  | None =>
      if default 0 (visit_status r) =? 404
      then (page, Some "page not found (404)") else (page, None)
  end.

(** The test of tryScrapeInLanguages: the fetch succeeded and the title is
    not empty. *)
Definition valid_hit (pe : Page * error) : bool :=
  is_nil pe.2 && negb (is_empty (Title pe.1)).

(** An attempt of the resolver: a language and what the Visit came to. *)
Definition attempt_event (E : Environment) (term : string)
    (a : string * VisitResult) : Event :=
  EvVisit (a.1 +:+ ".wikipedia.org") (buildWikipediaURL E term a.1) a.2.

Definition attempt_outcome (E : Environment) (term : string)
    (a : string * VisitResult) : Page * error :=
  scraped (buildWikipediaURL E term a.1) a.1 a.2.

Definition is_visit (e : Event) : bool :=
  match e with EvVisit _ _ _ => true | _ => false end.

(** The web requests among some events, in order. *)
Definition visits (tr : list Event) : list Event :=
  filter (λ e, is_visit e = true) tr.

(** The world [w] with more history and the same tables. *)
Definition extend (w : World) (new : list Event) : World :=
  mkWorld (trace w ++ new) (pages w) (processed_searches w) (es_index w) (esClient w).

(** The ledger of [w'] is the ledger of [w] followed by new, pairwise
    distinct terms. *)
Definition ledger_ext (w w' : World) : Prop :=
  ∃ added, processed_searches w' = processed_searches w ++ added
           ∧ NoDup added ∧ ∀ t, t ∈ added → t ∉ processed_searches w.

(** A character that LIKE reads as itself. *)
Definition plain_char (c : ascii) : bool :=
  negb (Ascii.eqb c percent) && negb (Ascii.eqb c underscore)
  && negb (Ascii.eqb c backslash).

(** A query without percent sign, underscore or backslash. *)
Definition plain (q : string) : Prop := Forall (λ c, plain_char c = true) (chars q).

(** An esapi call failed: it returned an error, or a response with an error
    status. *)
Definition reply_failed (r : EsReply) : bool :=
  match r with EsErr _ => true | EsResp status _ => IsError status end.


(** What the loop logs after the request for a row. *)
Definition index_log (E : Environment) (row : Page) (r : EsReply) : string :=
  match r with
  | EsErr e => "Error indexing " +:+ URL row +:+ ": " +:+ e
  | EsResp status body =>
      if IsError status
      then "Error response when indexing " +:+ URL row +:+ ": "
           +:+ Response_String E status body
      else "Indexed page: " +:+ URL row
  end.

(** One turn of the loop on [row], at time [o.1] and with reply [o.2]. *)
Definition index_events (E : Environment) (row : Page) (o : Z * EsReply)
  : list Event :=
  [EvEs (EsIndex (docMap E row o.1)) o.2; EvLog (index_log E row o.2)].

Definition loop_events (E : Environment) (rows : list Page)
    (outs : list (Z * EsReply)) : list Event :=
  concat (zip_with (index_events E) rows outs).

(** The documents of the rows whose request did not fail. *)
Definition accepted (E : Environment) (rows : list Page)
    (outs : list (Z * EsReply)) : list Doc :=
  concat (zip_with (λ row o, if reply_failed o.2 then [] else [docMap E row o.1])
            rows outs).

(** The indexing requests among some events, with their replies. *)
Definition index_requests (tr : list Event) : list (Doc * EsReply) :=
  omap (λ e, match e with EvEs (EsIndex d) r => Some (d, r) | _ => None end) tr.

(** The events up to the creation of the index, when nothing fails: the
    existence check says the index is not there, or it says it is and the
    deletion succeeds. *)
Inductive cleared : list Event → Prop :=
| cleared_absent status body :
    status ≠ 200 → cleared [EvEs EsExists (EsResp status body)]
| cleared_deleted body r :
    reply_failed r = false →
    cleared [EvEs EsExists (EsResp 200 body);
             EvLog "Index 'pages' already exists - removing and rebuilding";
             EvEs EsDelete r].

(** The runs of syncPagesToElasticsearch from a world [w] with a client:
    what it returns, the events it adds and the index it leaves. *)
Inductive sync_run (E : Environment) (w : World)
  : Outcome error → list Event → option (list Doc) → Prop :=
| run_exists_error e :
    sync_run E w (Return (Some ("error checking if index exists: " +:+ e)))
      [EvEs EsExists (EsErr e)] (es_index w)
| run_delete_failed body r msg :
    reply_failed r = true →
    sync_run E w (Return (Some msg))
      [EvEs EsExists (EsResp 200 body);
       EvLog "Index 'pages' already exists - removing and rebuilding";
       EvEs EsDelete r] (es_index w)
| run_create_failed pre r msg ix :
    cleared pre → reply_failed r = true →
    sync_run E w (Return (Some msg)) (pre ++ [EvEs (EsCreate mappings) r]) ix
| run_query_failed pre r e :
    cleared pre → reply_failed r = false →
    sync_run E w (Return (Some ("error querying pages from DB: " +:+ e)))
      (pre ++ [EvEs (EsCreate mappings) r; EvDb SelectPages (Some e)]) (Some [])
| run_loaded pre r outs :
    cleared pre → reply_failed r = false →
    length outs = length (pages w) →
    Forall (λ o, ∃ h, o.1 = time_Now E (trace w ++ h)) outs →
    sync_run E w (Return None)
      (pre ++ [EvEs (EsCreate mappings) r; EvDb SelectPages None]
       ++ loop_events E (pages w) outs
       ++ [EvLog ("Synced " +:+ pretty (Z.of_nat (length (accepted E (pages w) outs)))
                  +:+ " pages to Elasticsearch")])
      (Some (accepted E (pages w) outs)).

(** The events in which the program asks something of the web, the store or
    the engine. *)
Definition is_request (e : Event) : bool :=
  match e with
  | EvVisit _ _ _ | EvDb _ _ | EvEs _ _ | EvSearch _ _ => true
  | EvLog _ | EvPrint _ | EvOpen _ _ => false
  end.

(** A row that savePageToDBWithLang accepts: url, title and content are not
    empty. *)
Definition valid_row (r : Page) : Prop :=
  URL r ≠ EmptyString ∧ Title r ≠ EmptyString ∧ Content r ≠ EmptyString.

(** The row stored for [term] when its page in language [lang] was fetched
    at history [h] and saved at time [t]. *)
Definition fetched_row (E : Environment) (term lang : string)
    (h : list Event) (t : Z) : Page :=
  let url := buildWikipediaURL E term lang in
  let page := (scraped url lang (colly_Visit E h (lang +:+ ".wikipedia.org") url)).1 in
  mkPage (URL page) (Title page) (Content page) lang t.

(** What one turn of the loop of StartScraping on [term] can do to the
    tables: nothing, or store one valid page fetched for the term in Danish
    or in English and then, possibly, mark the term. *)
Definition ingest_step (E : Environment) (term : string) (w w' : World) : Prop :=
  es_index w' = es_index w ∧ esClient w' = esClient w
  ∧ ((pages w' = pages w ∧ processed_searches w' = processed_searches w)
     ∨ ∃ lang h t,
         (lang = "da" ∨ lang = "en")
         ∧ valid_row (fetched_row E term lang h t)
         ∧ pages w' = upsert_row (fetched_row E term lang h t) (pages w)
         ∧ (processed_searches w' = processed_searches w
            ∨ processed_searches w' = insert_term term (processed_searches w))).

(** The tables after an ingestion run, against the tables before it and the
    terms it works on: index and client untouched; the urls of the old rows
    still there, in place, new ones after them; every new ledger row is one
    of the terms, and its page is in the store. *)
Definition ingest_run (E : Environment) (terms : list string) (w w' : World) : Prop :=
  es_index w' = es_index w ∧ esClient w' = esClient w
  ∧ (URL <$> pages w) `prefix_of` (URL <$> pages w')
  ∧ (NoDup (URL <$> pages w) → NoDup (URL <$> pages w'))
  ∧ (Forall valid_row (pages w) → Forall valid_row (pages w'))
  ∧ (∀ t, t ∈ processed_searches w' →
          t ∈ processed_searches w
          ∨ (t ∈ terms
             ∧ (buildWikipediaURL E t "da" ∈ URL <$> pages w'
                ∨ buildWikipediaURL E t "en" ∈ URL <$> pages w'))).


(** The first two log lines of searchHandler on a query that is not blank. *)
Definition handler_prologue (q remoteAddr : string) : list Event :=
  [EvLog "Search handler called";
   EvLog ("Search query: " +:+ Strconv.Quote (TrimSpace q) +:+ " from " +:+ remoteAddr)].

(** * Concrete worlds

    Small environments and worlds on which the properties below are
    exercised. *)

Module Scenario.

(** A title caser for the examples: the first byte in upper case. *)
Definition capitalise (s : string) : string :=
  match s with
  | EmptyString => EmptyString
  | String c s' =>
      String (if ((97 <=? Ascii.N_of_ascii c) && (Ascii.N_of_ascii c <=? 122))%N
              then Ascii.ascii_of_N (Ascii.N_of_ascii c - 32) else c) s'
  end.

Definition respString (status : Z) (body : string) : string :=
  "[" +:+ pretty status +:+ "] " +:+ body.

(** Three log lines for one term, written three ways, and one more term. *)
Definition search_log : string :=
  "query=" +:+ quoted "Golang" +:+ " from=127.0.0.1" +:+ nl +:+
  "query=" +:+ quoted " GOLANG " +:+ " from=127.0.0.1" +:+ nl +:+
  "query=" +:+ quoted "golang" +:+ " from=127.0.0.1" +:+ nl.

Definition golang_heading : string := "Go (programming language)".
Definition golang_text : list string := ["Go is a programming language."].

(** The Danish site answers 404, every other site serves the article. *)
Definition wiki (domain url : string) : VisitResult :=
  if decide (domain = "da.wikipedia.org")
  then mkVisit (Some "Not Found") (Some 404) [] []
  else mkVisit None (Some 200) [golang_heading] [golang_text].

(** An environment in which the store fails as [dbf] says and the engine
    as [esf] says, whenever asked. *)
Definition env (dbf : DbRequest → option string)
    (esf : EsRequest → option EsFault) : Environment :=
  mkEnv capitalise respString (λ h, Z.of_nat (length h)) pretty
    (λ _ _, OpenOk search_log) (λ _, wiki) (λ _, dbf) (λ _, esf)
    (λ _ _ _, SearchHits []).

(** Nothing fails. *)
Definition calm : Environment := env (λ _, None) (λ _, None).

(** The ledger cannot be read. *)
Definition ledger_down : Environment :=
  env (λ q, match q with
            | SelectProcessedExists _ => Some "connection reset"
            | _ => None
            end)
      (λ _, None).

(** The engine refuses every document with status 503. *)
Definition indexing_down : Environment :=
  env (λ _, None)
      (λ q, match q with
            | EsIndex _ => Some (FaultStatus 103 "unavailable")
            | _ => None
            end).

Definition go_page : Page :=
  mkPage "https://en.wikipedia.org/wiki/Golang" "Go" "abc" "en" 7.

Definition go_page_v2 : Page :=
  mkPage "https://en.wikipedia.org/wiki/Golang" "Golang" "abcd" "en" 7.

Definition old_doc : Doc := mkDoc "Old" "/old" "stale" EmptyString "0".

(** No table has a row, no index, no client. *)
Definition empty_world : World := mkWorld [] [] [] None false.

(** One page in the store, the term [golang] in the ledger, an index
    left over from an earlier run; with or without a client. *)
Definition stocked (client : bool) : World :=
  mkWorld [] [go_page] ["golang"] (Some [old_doc]) client.

(** ** Settings for the callers and for the rest of the pipeline *)

(** An environment like [env], with its own log and its own sites. *)
Definition env_with (log : string) (site : string → string → VisitResult)
    (dbf : DbRequest → option string) (esf : EsRequest → option EsFault)
  : Environment :=
  mkEnv capitalise respString (λ h, Z.of_nat (length h)) pretty
    (λ _ _, OpenOk log) (λ _, site) (λ _, dbf) (λ _, esf)
    (λ _ _ _, SearchHits []).

(** A log in which nobody searched. *)
Definition idle_log : string :=
  "GET /about from=127.0.0.1" +:+ nl +:+ "GET /weather from=127.0.0.1" +:+ nl.

Definition idle : Environment := env_with idle_log wiki (λ _, None) (λ _, None).

(** The term of [search_log], once, in capitals. *)
Definition short_log : string :=
  "SEARCH: query=" +:+ quoted "GOLANG" +:+ " from=10.0.0.7:5050" +:+ nl.


(** Every site serves a heading and no paragraph. *)
Definition bare_site (domain url : string) : VisitResult :=
  mkVisit None (Some 200) [golang_heading] [].

Definition headings_only : Environment :=
  env_with search_log bare_site (λ _, None) (λ _, None).

(** Every site serves the article, the Danish one too. *)
Definition full_site (domain url : string) : VisitResult :=
  mkVisit None (Some 200) [golang_heading] [golang_text].

Definition danish : Environment :=
  env_with search_log full_site (λ _, None) (λ _, None).

(** The store refuses every upsert. *)
Definition store_full : Environment :=
  env (λ q, match q with
            | UpsertPage _ _ _ _ => Some "disk full"
            | _ => None
            end)
      (λ _, None).

(** The store cannot be searched. *)
Definition search_down : Environment :=
  env (λ q, match q with
            | SelectPagesLike _ => Some "connection reset"
            | _ => None
            end)
      (λ _, None).

(** The engine cannot say whether the index exists. *)
Definition engine_down : Environment :=
  env (λ _, None)
      (λ q, match q with
            | EsExists => Some (FaultTransport "connection refused")
            | _ => None
            end).

(** The engine answers the existence check with status 503. *)
Definition exists_refused : Environment :=
  env (λ _, None)
      (λ q, match q with
            | EsExists => Some (FaultStatus 103 "unavailable")
            | _ => None
            end).

(** One page in the store, no index yet, a client. *)
Definition unindexed : World := mkWorld [] [go_page] [] None true.

(** A host without environment variables, on which the page count fails as
    [cf] says and the information request as [inf] says. *)
Definition host_with (cf inf : option string) : Host :=
  mkHost (λ _, EmptyString) pretty (λ _, cf) (λ _ _, None) (λ _ _, inf)
    (λ _, None) (λ _ q _, (["<h1>" +:+ q +:+ "</h1>"], None)).

Definition host : Host := host_with None None.

(** The page count cannot be read. *)
Definition host_blind : Host := host_with (Some "too many connections") None.

(** No engine answers. *)
Definition host_alone : Host := host_with None (Some "connection refused").



(** A page that has not been stored yet. *)
Definition rust_page : Page :=
  mkPage "https://en.wikipedia.org/wiki/Rust" "Rust" "xyz" "en" 3.

End Scenario.
(** * Properties *)

(** ** Strings *)















Lemma last_char_snoc s c : last_char (s +:+ String c EmptyString) = Some c.
Proof.
  induction s as [|d s IH]; [done|].
  change (String d s +:+ String c EmptyString)
    with (String d (s +:+ String c EmptyString)).
  destruct (s +:+ String c EmptyString) eqn:Hs; [by destruct s|].
  exact IH.
Qed.



Lemma elems_foldl_append {A} (l : list A) (s : slice A) :
  elems (foldl append s l) = elems s ++ l.
Proof.
  revert s. induction l as [|x l IH]; intros s; simpl.
  - by rewrite app_nil_r.
  - rewrite IH. unfold append. simpl. by rewrite <- app_assoc.
Qed.

Lemma elems_foldl_append_nil {A} (l : list A) : elems (foldl append None l) = l.
Proof. by rewrite elems_foldl_append. Qed.

(** ** Term Extractor *)

Section Extractor.

Variable E : Environment.

Lemma scanLoop_keys lines : ∀ (m : gmap string bool) w t,
  is_Some ((scanLoop lines m w).1 !! t) ↔
  is_Some (m !! t) ∨
  ∃ line raw, line ∈ lines ∧ QueryRegexp.FindStringSubmatch line = Some raw
              ∧ t = normalise raw.
Proof.
  induction lines as [|line rest IH]; intros m w t; simpl.
  - split; [by left|]. intros [H|(l & r & Hl & _)]; [done|]. by apply elem_of_nil in Hl.
  - destruct (QueryRegexp.FindStringSubmatch line) as [raw|] eqn:Hm.
    + unfold bind, fmt_Printf, emit. simpl. rewrite IH. split.
      * intros [H|(l & r & Hl & Hr & ->)].
        -- destruct (decide (t = normalise raw)) as [->|Hne].
           ++ right. exists line, raw. split; [left|done].
           ++ left. unfold normalise in Hne. by rewrite lookup_insert_ne in H.
        -- right. exists l, r. split; [by right|done].
      * intros [H|(l & r & Hl & Hr & ->)].
        -- left. destruct (decide (ToLower (TrimSpace raw) = t)) as [->|Hne].
           ++ rewrite lookup_insert_eq. by eexists.
           ++ by rewrite lookup_insert_ne.
        -- apply elem_of_cons in Hl as [->|Hl].
           ++ left. rewrite Hm in Hr. injection Hr as ->.
              unfold normalise. rewrite lookup_insert_eq. by eexists.
           ++ right. by exists l, r.
    + rewrite IH. split.
      * intros [H|(l & r & Hl & Hr & ->)]; [by left|].
        right. exists l, r. split; [by right|done].
      * intros [H|(l & r & Hl & Hr & ->)]; [by left|].
        apply elem_of_cons in Hl as [->|Hl]; [congruence|].
        right. by exists l, r.
Qed.



End Extractor.


Lemma filter_none {A} (P : A → Prop) `{∀ x, Decision (P x)} (l : list A) :
  (∀ x, x ∈ l → ¬ P x) → filter P l = [].
Proof.
  induction l as [|x l IH]; intros Hl; [done|].
  rewrite filter_cons_False by (apply Hl; left).
  apply IH. intros y Hy. apply Hl. by right.
Qed.



(** ** Page Store *)

Lemma is_empty_true s : is_empty s = true ↔ s = EmptyString.
Proof. by destruct s. Qed.

Lemma upsert_row_urls r rows :
  URL <$> upsert_row r rows =
  if decide (URL r ∈ URL <$> rows) then URL <$> rows else (URL <$> rows) ++ [URL r].
Proof.
  induction rows as [|x rows IH].
  - case_decide as H; [by apply elem_of_nil in H|done].
  - cbn [upsert_row]. destruct (decide (URL x = URL r)) as [Heq|Hne].
    + rewrite decide_True by (rewrite fmap_cons, Heq; left).
      by rewrite !fmap_cons, Heq.
    + rewrite !fmap_cons, IH.
      destruct (decide (URL r ∈ URL <$> rows)) as [Hin|Hnin].
      * rewrite decide_True by (by right). done.
      * rewrite decide_False; [done|].
        intros [?|?]%elem_of_cons; congruence.
Qed.

Lemma upsert_row_NoDup r rows :
  NoDup (URL <$> rows) → NoDup (URL <$> upsert_row r rows).
Proof.
  intros Hnd. rewrite upsert_row_urls. case_decide; [done|].
  apply NoDup_app. split; [done|]. split.
  - intros u Hu Hr. apply list_elem_of_singleton in Hr as ->. done.
  - apply NoDup_singleton.
Qed.

Lemma upsert_row_length r rows :
  URL r ∈ URL <$> rows → length (upsert_row r rows) = length rows.
Proof.
  intros Hin. rewrite <- (length_fmap URL), upsert_row_urls.
  rewrite decide_True by done. by rewrite length_fmap.
Qed.

Lemma upsert_row_fresh r rows :
  URL r ∉ URL <$> rows → upsert_row r rows = rows ++ [r].
Proof.
  induction rows as [|x rows IH]; simpl; [done|]. intros Hnin.
  rewrite decide_False.
  - rewrite IH; [done|]. intros H. apply Hnin. by right.
  - intros Heq. apply Hnin. rewrite Heq. left.
Qed.

Lemma upsert_row_others r rows :
  filter (λ x, URL x ≠ URL r) (upsert_row r rows)
  = filter (λ x, URL x ≠ URL r) rows.
Proof.
  induction rows as [|x rows IH]; simpl.
  - by rewrite filter_cons_False by (intros H; by apply H).
  - destruct (decide (URL x = URL r)) as [Heq|Hne].
    + rewrite !filter_cons_False; [done|intros H; by apply H..].
    + rewrite !filter_cons_True by done. by rewrite IH.
Qed.

Lemma upsert_row_same r rows :
  NoDup (URL <$> rows) →
  filter (λ x, URL x = URL r) (upsert_row r rows) = [r].
Proof.
  induction rows as [|x rows IH]; simpl; intros Hnd.
  - by rewrite filter_cons_True.
  - apply NoDup_cons in Hnd as [Hx Hnd].
    destruct (decide (URL x = URL r)) as [Heq|Hne].
    + rewrite filter_cons_True by done. f_equal.
      apply filter_none. intros y Hy Hyr. apply Hx. rewrite Heq, <- Hyr.
      apply list_elem_of_fmap. by exists y.
    + rewrite filter_cons_False by done. by apply IH.
Qed.

Section Store.

Variable E : Environment.

(** What one call of savePageToDBWithLang does to the world. *)
Lemma savePageToDBWithLang_effect page lang w :
  let '(err, w') := savePageToDBWithLang E page lang w in
  processed_searches w' = processed_searches w
  ∧ es_index w' = es_index w
  ∧ esClient w' = esClient w
  ∧ match err with
    | Some _ => pages w' = pages w
    | None =>
        pages w' = upsert_row (mkPage (URL page) (Title page) (Content page)
                                 lang (time_Now E (trace w))) (pages w)
        ∧ Title page ≠ EmptyString ∧ URL page ≠ EmptyString
        ∧ Content page ≠ EmptyString
    end.
Proof.
  unfold savePageToDBWithLang.
  destruct (is_empty (Title page)) eqn:Ht; simpl; [done|].
  destruct (is_empty (URL page)) eqn:Hu; simpl; [done|].
  destruct (is_empty (Content page)) eqn:Hc; simpl; [done|].
  unfold bind, db_call. simpl.
  destruct (db_fault E (trace w) _) as [e|]; simpl; [done|].
  repeat split; try done; intros H; apply is_empty_true in H; congruence.
Qed.

Lemma savePageToDBWithLang_NoDup page lang w :
  NoDup (URL <$> pages w) →
  NoDup (URL <$> pages (savePageToDBWithLang E page lang w).2).
Proof.
  intros Hnd. assert (H := savePageToDBWithLang_effect page lang w).
  destruct (savePageToDBWithLang E page lang w) as [[e|] w']; simpl.
  - destruct H as (_ & _ & _ & ->). done.
  - destruct H as (_ & _ & _ & -> & _). by apply upsert_row_NoDup.
Qed.

Lemma upsertAll_NoDup ps : ∀ w,
  NoDup (URL <$> pages w) → NoDup (URL <$> pages (upsertAll E ps w)).
Proof.
  induction ps as [|[p l] ps IH]; intros w Hnd; simpl; [done|].
  apply IH. by apply savePageToDBWithLang_NoDup.
Qed.

End Store.

(** C3.  A page whose url, title or content is the empty string is refused:
    savePageToDBWithLang returns the error [invalid page data] and the world
    after the call is the world before it (no statement reaches the store,
    nothing is logged). *)
Theorem savePageToDBWithLang_invalid (E : Environment) page lang w :
  URL page = EmptyString ∨ Title page = EmptyString ∨ Content page = EmptyString →
  savePageToDBWithLang E page lang w = (Some "invalid page data", w).
Proof.
  unfold savePageToDBWithLang. intros [->|[->| ->]]; simpl.
  - by rewrite orb_true_r.
  - done.
  - by rewrite orb_true_r.
Qed.

(** C2.  The pages table holds at most one row per url, whatever sequence
    of upserts is run on it.  An upsert that succeeds on a url already in the
    table keeps the number of rows, leaves every other row as it was, and
    makes the row of that url carry the new title and content, the language
    passed to the call and the time of the call as last_updated.  So after
    two successful upserts of pages that share a url and differ in their
    titles, exactly one row has that url and it holds the later title; it is
    the only row when the table was empty before. *)
Theorem savePageToDBWithLang_one_row_per_url (E : Environment) :
  (∀ ps w, NoDup (URL <$> pages w) → NoDup (URL <$> pages (upsertAll E ps w)))
  ∧ (∀ page lang w w',
       NoDup (URL <$> pages w) → URL page ∈ URL <$> pages w →
       savePageToDBWithLang E page lang w = (None, w') →
       length (pages w') = length (pages w)
       ∧ filter (λ r, URL r = URL page) (pages w')
         = [mkPage (URL page) (Title page) (Content page) lang
              (time_Now E (trace w))]
       ∧ filter (λ r, URL r ≠ URL page) (pages w')
         = filter (λ r, URL r ≠ URL page) (pages w))
  ∧ (∀ p1 l1 p2 l2 w w1 w2,
       NoDup (URL <$> pages w) →
       URL p1 = URL p2 → Title p1 ≠ Title p2 →
       savePageToDBWithLang E p1 l1 w = (None, w1) →
       savePageToDBWithLang E p2 l2 w1 = (None, w2) →
       ∃ row, filter (λ r, URL r = URL p2) (pages w2) = [row]
              ∧ Title row = Title p2
              ∧ (pages w = [] → pages w2 = [row])).
Proof.
  split; [apply upsertAll_NoDup|]. split.
  - intros page lang w w' Hnd Hin Hs.
    assert (H := savePageToDBWithLang_effect E page lang w). rewrite Hs in H.
    destruct H as (_ & _ & _ & -> & _). split; [|split].
    + by apply upsert_row_length.
    + by apply (upsert_row_same (mkPage _ _ _ _ _)).
    + apply (upsert_row_others (mkPage _ _ _ _ _)).
  - intros p1 l1 p2 l2 w w1 w2 Hnd Hurl Ht H1 H2.
    assert (G1 := savePageToDBWithLang_effect E p1 l1 w). rewrite H1 in G1.
    assert (G2 := savePageToDBWithLang_effect E p2 l2 w1). rewrite H2 in G2.
    destruct G1 as (_ & _ & _ & G1 & _). destruct G2 as (_ & _ & _ & G2 & _).
    eexists. split; [|split].
    + rewrite G2. apply (upsert_row_same (mkPage _ _ _ _ _)).
      rewrite G1. by apply upsert_row_NoDup.
    + done.
    + intros Hw. rewrite G2, G1, Hw. simpl. rewrite Hurl.
      by rewrite decide_True.
Qed.
(** ** Page Resolver *)

Section Resolver.

Variable E : Environment.

Lemma scrapeWikipedia_eq url lang w :
  scrapeWikipedia E url lang w =
  let r := colly_Visit E (trace w) (lang +:+ ".wikipedia.org") url in
  (scraped url lang r, record (EvVisit (lang +:+ ".wikipedia.org") url r) w).
Proof.
  unfold scrapeWikipedia, scraped, bind, Visit, ret. simpl.
  destruct (visit_err _); [done|]. by destruct (_ =? 404).
Qed.

Lemma tryScrapeInLanguages_spec term langs : ∀ w,
  ∃ (atts : list (string * VisitResult)) (new : list Event),
    let '(page, lang, err, w') := tryScrapeInLanguages E term langs w in
    w' = mkWorld (trace w ++ new) (pages w) (processed_searches w)
           (es_index w) (esClient w)
    ∧ visits new = attempt_event E term <$> atts
    ∧ ((∃ pre a rest,
          atts = pre ++ [a] ∧ langs = pre.*1 ++ a.1 :: rest
          ∧ Forall (λ b, valid_hit (attempt_outcome E term b) = false) pre
          ∧ valid_hit (attempt_outcome E term a) = true
          ∧ page = (attempt_outcome E term a).1 ∧ lang = a.1 ∧ err = None)
       ∨ (atts.*1 = langs
          ∧ Forall (λ b, valid_hit (attempt_outcome E term b) = false) atts
          ∧ page = zeroPage ∧ lang = EmptyString
          ∧ err = Some ("no valid Wikipedia page found for term '"
                        +:+ term +:+ "'"))).
Proof.
  induction langs as [|lang rest IH]; intros w.
  - exists [], []. simpl. split; [by destruct w; rewrite app_nil_r|].
    split; [done|]. right. done.
  - cbn [tryScrapeInLanguages]. unfold bind at 1. unfold fmt_Printf, emit.
    unfold bind at 1. rewrite scrapeWikipedia_eq. cbv zeta.
    set (w1 := record _ w).
    set (r := colly_Visit E (trace w1) _ _).
    set (w2 := record _ w1).
    destruct (scraped (buildWikipediaURL E term lang) lang r) as [page err] eqn:Hs.
    change (is_nil err && negb (is_empty (Title page)))
      with (valid_hit (page, err)).
    destruct (valid_hit (page, err)) eqn:Hv.
    + exists [(lang, r)], [EvPrint ("Trying to scrape: " +:+ buildWikipediaURL E term lang +:+ nl);
                           EvVisit (lang +:+ ".wikipedia.org") (buildWikipediaURL E term lang) r].
      unfold ret. split; [|split].
      * subst w2 w1. unfold record. simpl. by rewrite <- app_assoc.
      * done.
      * left. exists [], (lang, r), rest. unfold attempt_outcome. simpl.
        rewrite Hs. repeat split; try done.
    + unfold bind at 1. unfold log_Printf, emit.
      set (w3 := record _ w2).
      destruct (IH w3) as (atts & new & H).
      exists ((lang, r) :: atts),
        ([EvPrint ("Trying to scrape: " +:+ buildWikipediaURL E term lang +:+ nl);
          EvVisit (lang +:+ ".wikipedia.org") (buildWikipediaURL E term lang) r;
          EvLog ("Failed scraping " +:+ term +:+ " (" +:+ lang +:+ "): " +:+ verb_v err)]
         ++ new).
      destruct (tryScrapeInLanguages E term rest w3) as [[[p l] e] w'].
      destruct H as (-> & Hvis & Hcases). split; [|split].
      * subst w3 w2 w1. unfold record. simpl. by rewrite <- !app_assoc.
      * unfold visits in *. rewrite filter_app, Hvis. done.
      * assert (Hmiss : valid_hit (attempt_outcome E term (lang, r)) = false).
        { unfold attempt_outcome. simpl. by rewrite Hs. }
        destruct Hcases as [(pre & a & rest' & -> & -> & Hpre & Ha & Hres)
                           |(<- & Hall & Hres)].
        -- left. exists ((lang, r) :: pre), a, rest'.
           repeat split; try done; try apply Hres. by constructor.
        -- right. repeat split; try done; try apply Hres. by constructor.
Qed.

End Resolver.

Lemma scraped_fields url lang r :
  URL (scraped url lang r).1 = url ∧ Language (scraped url lang r).1 = lang.
Proof.
  unfold scraped.
  assert (H : ∀ p, URL (foldl (λ p ps, setContent p (paragraphs_text ps)) p
                          (visit_outputs r)) = URL p
                   ∧ Language (foldl (λ p ps, setContent p (paragraphs_text ps)) p
                                 (visit_outputs r)) = Language p).
  { induction (visit_outputs r) as [|x l IH]; intros p; simpl; [done|].
    destruct (IH (setContent p (paragraphs_text x))) as [-> ->]. done. }
  assert (G : ∀ p, URL (foldl setTitle p (visit_headings r)) = URL p
                   ∧ Language (foldl setTitle p (visit_headings r)) = Language p).
  { induction (visit_headings r) as [|x l IH]; intros p; simpl; [done|].
    destruct (IH (setTitle p x)) as [-> ->]. done. }
  destruct (visit_err r); [|destruct (_ =? 404)]; simpl;
    destruct (H (foldl setTitle (mkPage url EmptyString EmptyString lang 0)
                   (visit_headings r))) as [-> ->];
    destruct (G (mkPage url EmptyString EmptyString lang 0)) as [-> ->]; done.
Qed.



(** ** Processed-Term Ledger and ingestion run *)

Lemma ledger_ext_refl w w' :
  processed_searches w' = processed_searches w → ledger_ext w w'.
Proof.
  intros H. exists []. rewrite app_nil_r. split; [done|]. split; [constructor|].
  intros t Ht. by apply elem_of_nil in Ht.
Qed.

Lemma ledger_ext_trans w1 w2 w3 :
  ledger_ext w1 w2 → ledger_ext w2 w3 → ledger_ext w1 w3.
Proof.
  intros (a1 & H1 & N1 & D1) (a2 & H2 & N2 & D2). exists (a1 ++ a2).
  split; [by rewrite H2, H1, app_assoc|]. split.
  - apply NoDup_app. split; [done|]. split; [|done].
    intros t Ht1 Ht2. apply (D2 t Ht2). rewrite H1. apply elem_of_app. by right.
  - intros t [Ht|Ht]%elem_of_app; [by apply D1|].
    intros Hw. apply (D2 t Ht). rewrite H1. apply elem_of_app. by left.
Qed.

Lemma ledger_ext_elem w w' t :
  ledger_ext w w' → t ∈ processed_searches w → t ∈ processed_searches w'.
Proof. intros (a & -> & _) Ht. apply elem_of_app. by left. Qed.

Lemma ledger_ext_rows w w' t :
  ledger_ext w w' → t ∈ processed_searches w →
  filter (λ x, x = t) (processed_searches w')
  = filter (λ x, x = t) (processed_searches w).
Proof.
  intros (a & -> & _ & D) Ht. rewrite filter_app.
  rewrite (filter_none _ a); [by rewrite app_nil_r|].
  intros x Hx ->. by apply (D t).
Qed.

Lemma ledger_ext_NoDup w w' :
  ledger_ext w w' → NoDup (processed_searches w) → NoDup (processed_searches w').
Proof.
  intros (a & -> & N & D) Hnd. apply NoDup_app. split; [done|]. split; [|done].
  intros t Ht Ha. by apply (D t).
Qed.

Lemma forEach_app {A} (body : A → M unit) pre post w :
  forEach (pre ++ post) body w = forEach post body (forEach pre body w).2.
Proof.
  revert w. induction pre as [|x pre IH]; intros w; [done|].
  simpl. unfold bind. destruct (body x w) as [[] w1]. apply IH.
Qed.

Section Ledger.

Variable E : Environment.

Lemma alreadyProcessed_eq term w :
  alreadyProcessed E term w =
  match db_fault E (trace w) (SelectProcessedExists term) with
  | Some e =>
      (false, extend w [EvDb (SelectProcessedExists term) (Some e);
                        EvLog ("Error checking processed term: " +:+ e)])
  | None =>
      (bool_decide (term ∈ processed_searches w),
       extend w [EvDb (SelectProcessedExists term) None])
  end.
Proof.
  unfold alreadyProcessed, bind, db_call. simpl.
  destruct (db_fault E (trace w) _) as [e|]; simpl.
  - unfold log_Printf, emit, ret, record, extend. simpl. by rewrite <- app_assoc.
  - done.
Qed.

Lemma markAsProcessed_eq term w :
  markAsProcessed E term w =
  match db_fault E (trace w) (InsertProcessed term) with
  | Some e =>
      (tt, extend w [EvDb (InsertProcessed term) (Some e);
                     EvLog ("Error marking term as processed: " +:+ e)])
  | None =>
      (tt, setProcessed (insert_term term (processed_searches w))
             (extend w [EvDb (InsertProcessed term) None]))
  end.
Proof.
  unfold markAsProcessed, bind, db_call. simpl.
  destruct (db_fault E (trace w) _) as [e|]; simpl.
  - unfold log_Printf, emit, ret, record, extend. simpl. by rewrite <- app_assoc.
  - done.
Qed.

Lemma insert_term_ext t w w' :
  processed_searches w' = insert_term t (processed_searches w) → ledger_ext w w'.
Proof.
  unfold insert_term. case_decide as Hin; intros H.
  - by apply ledger_ext_refl.
  - exists [t]. split; [done|]. split; [apply NoDup_singleton|].
    by intros x ->%list_elem_of_singleton.
Qed.

Lemma markAsProcessed_ext term w : ledger_ext w (markAsProcessed E term w).2.
Proof.
  rewrite markAsProcessed_eq. destruct (db_fault E _ _); simpl.
  - by apply ledger_ext_refl.
  - by apply (insert_term_ext term).
Qed.

Lemma scrapeTerm_skip t w :
  t ∈ processed_searches w →
  db_fault E (trace w) (SelectProcessedExists t) = None →
  scrapeTerm E t w =
  (tt, extend w [EvDb (SelectProcessedExists t) None;
                 EvPrint ("Skipping already processed term: " +:+ t +:+ nl)]).
Proof.
  intros Hin Hf. unfold scrapeTerm, bind. rewrite alreadyProcessed_eq, Hf.
  rewrite bool_decide_eq_true_2 by done.
  unfold fmt_Printf, emit, record, extend. simpl. by rewrite <- app_assoc.
Qed.

Lemma scrapeTerm_ext term w : ledger_ext w (scrapeTerm E term w).2.
Proof.
  unfold scrapeTerm, bind. rewrite alreadyProcessed_eq.
  destruct (db_fault E (trace w) _) as [e|].
  2: destruct (bool_decide _); [by apply ledger_ext_refl|].
  all: match goal with |- context [tryScrapeInLanguages E ?tm ?l ?w0] =>
         destruct (tryScrapeInLanguages_spec E tm l w0) as (atts & new & H);
         destruct (tryScrapeInLanguages E tm l w0) as [[[page lang] err] w1];
         destruct H as (-> & _) end.
  all: destruct err as [e'|]; [by apply ledger_ext_refl|].
  all: match goal with |- context [savePageToDBWithLang E ?p ?l ?w0] =>
         assert (H := savePageToDBWithLang_effect E p l w0);
         destruct (savePageToDBWithLang E p l w0) as [serr w2];
         destruct H as (Hp & _) end.
  all: destruct serr as [e'|]; [by apply ledger_ext_refl|].
  all: eapply ledger_ext_trans; [|apply markAsProcessed_ext].
  all: by apply ledger_ext_refl.
Qed.

Lemma forEach_scrapeTerm_ext terms : ∀ w,
  ledger_ext w (forEach terms (scrapeTerm E) w).2.
Proof.
  induction terms as [|t terms IH]; intros w; simpl; [by apply ledger_ext_refl|].
  unfold bind. assert (H := scrapeTerm_ext t w).
  destruct (scrapeTerm E t w) as [[] w1]. simpl in H.
  eapply ledger_ext_trans; [exact H|apply IH].
Qed.

Lemma scanLoop_frame lines : ∀ m w,
  ∃ new, (scanLoop lines m w).2 = extend w new.
Proof.
  induction lines as [|l lines IH]; intros m w; simpl.
  - exists []. unfold extend. destruct w; simpl. by rewrite app_nil_r.
  - destruct (QueryRegexp.FindStringSubmatch l) as [raw|]; [|apply IH].
    unfold bind, fmt_Printf, emit.
    destruct (IH (<[ToLower (TrimSpace raw):=true]> m)
                (record (EvPrint ("Extracted search term: "
                   +:+ ToLower (TrimSpace raw) +:+ nl)) w)) as [new ->].
    eexists (_ :: new). unfold extend, record. simpl. by rewrite <- app_assoc.
Qed.

Lemma extractSearchTerms_frame logPath w :
  ∃ new, (extractSearchTerms E logPath w).2 = extend w new.
Proof.
  unfold extractSearchTerms, bind, os_open.
  destruct (os_Open E (trace w) logPath) as [content|msg].
  - destruct (scanLoop_frame (scanner_tokens (ScanLines content)) ∅
                (record (EvOpen logPath (OpenOk content)) w)) as [new Hn].
    destruct (scanLoop _ _ _) as [m w1]. simpl in *. subst w1.
    eexists (_ :: new). unfold extend, record. simpl. by rewrite <- app_assoc.
  - eexists [_; _]. unfold log_Printf, emit, ret, record, extend. simpl.
    by rewrite <- app_assoc.
Qed.

Lemma StartScraping_ext logPath w : ledger_ext w (StartScraping E logPath w).2.
Proof.
  unfold StartScraping, bind.
  destruct (extractSearchTerms_frame logPath w) as [new Hn].
  destruct (extractSearchTerms E logPath w) as [terms w0]. simpl in Hn. subst w0.
  destruct (len terms =? 0)%nat.
  - by apply ledger_ext_refl.
  - eapply ledger_ext_trans; [|apply forEach_scrapeTerm_ext]. by apply ledger_ext_refl.
Qed.

End Ledger.

(** C10 (as amended).  Let [t] be a term recorded in the ledger whose ledger
    lookups do not fail.  Then (1) the loop body of StartScraping, run on
    [t], does nothing but the lookup and the message that [t] is skipped: no
    web request, no statement on the pages table, no insertion in the
    ledger; (2) in a run of StartScraping whose extracted terms are
    [pre ++ t :: post], the iteration for [t] is exactly that step, between
    the iterations for [pre] and those for [post]; (3) the run leaves the
    ledger rows of [t] as they were, and (4) a ledger without duplicates
    stays so; (5) markAsProcessed on [t] changes no table and returns
    nothing, whether its statement fails or not: all it adds is its own
    events to the history. *)
Theorem StartScraping_skips_processed (E : Environment) logPath w t :
  t ∈ processed_searches w →
  (∀ h, db_fault E h (SelectProcessedExists t) = None) →
  (∀ w1, t ∈ processed_searches w1 →
     scrapeTerm E t w1 =
     (tt, extend w1 [EvDb (SelectProcessedExists t) None;
                     EvPrint ("Skipping already processed term: " +:+ t +:+ nl)]))
  ∧ (∀ pre post,
       elems (extractSearchTerms E logPath w).1 = pre ++ t :: post →
       StartScraping E logPath w =
       forEach post (scrapeTerm E)
         (extend (forEach pre (scrapeTerm E) (extractSearchTerms E logPath w).2).2
            [EvDb (SelectProcessedExists t) None;
             EvPrint ("Skipping already processed term: " +:+ t +:+ nl)]))
  ∧ filter (λ x, x = t) (processed_searches (StartScraping E logPath w).2)
    = filter (λ x, x = t) (processed_searches w)
  ∧ (NoDup (processed_searches w) →
     NoDup (processed_searches (StartScraping E logPath w).2))
  ∧ (∀ w1, t ∈ processed_searches w1 →
       ∃ new, markAsProcessed E t w1 = (tt, extend w1 new)).
Proof.
  intros Hin Hf. split; [|split; [|split; [|split]]].
  - intros w1 H1. by apply scrapeTerm_skip.
  - intros pre post Hterms. unfold StartScraping, bind.
    destruct (extractSearchTerms_frame E logPath w) as [new Hn].
    destruct (extractSearchTerms E logPath w) as [terms w0]. simpl in *. subst w0.
    unfold len. rewrite Hterms, length_app. simpl.
    replace (length pre + S (length post) =? 0)%nat with false
      by (symmetry; apply Nat.eqb_neq; lia).
    rewrite forEach_app. simpl. unfold bind.
    rewrite scrapeTerm_skip; [done| |apply Hf].
    eapply ledger_ext_elem; [apply forEach_scrapeTerm_ext|]. done.
  - apply ledger_ext_rows; [apply StartScraping_ext|done].
  - apply ledger_ext_NoDup, StartScraping_ext.
  - intros w1 H1. rewrite markAsProcessed_eq.
    destruct (db_fault E (trace w1) _) as [e|]; [by eexists|].
    eexists. unfold insert_term. rewrite decide_True by done.
    unfold setProcessed, extend. simpl. done.
Qed.

(** ** LIKE and substrings *)

Lemma string_app_nil (r : string) : EmptyString +:+ r = r.
Proof. reflexivity. Qed.

Lemma string_app_cons c (a b : string) : String c a +:+ b = String c (a +:+ b).
Proof. reflexivity. Qed.

Lemma strip_prefix_spec p s r : strip_prefix p s = Some r ↔ s = p +:+ r.
Proof.
  revert s. induction p as [|a p IH]; intros s; simpl.
  - rewrite string_app_nil. split; congruence.
  - rewrite string_app_cons.
    destruct s as [|b s]; [split; [done|intros H; discriminate H]|].
    destruct (Ascii.eqb_spec a b) as [->|Hne].
    + rewrite IH. split; [by intros ->|]. intros H. by injection H.
    + split; [done|]. intros H. injection H as H1 H2. done.
Qed.



Lemma parse_plain q rest toks :
  plain q → SqlLike.parse rest = Some toks →
  SqlLike.parse (q +:+ rest) = Some ((SqlLike.TokChar <$> chars q) ++ toks).
Proof.
  intros Hq Hr. induction q as [|c q IH]; [done|].
  apply Forall_cons in Hq as [Hc Hq].
  unfold plain_char in Hc. apply andb_true_iff in Hc as [Hc H3].
  apply andb_true_iff in Hc as [H1 H2].
  apply negb_true_iff in H1, H2, H3.
  change (String c q +:+ rest) with (String c (q +:+ rest)).
  cbn [SqlLike.parse]. rewrite H1, H2, H3, (IH Hq). reflexivity.
Qed.

Lemma matches_any s : SqlLike.matches [SqlLike.TokAny] s = true.
Proof. induction s as [|c s IH]; [done|]. exact IH. Qed.

Lemma matches_prefix q s :
  SqlLike.matches ((SqlLike.TokChar <$> chars q) ++ [SqlLike.TokAny]) s
  = bool_decide (is_Some (strip_prefix q s)).
Proof.
  revert s. induction q as [|c q IH]; intros s.
  - simpl chars. rewrite fmap_nil, app_nil_l, matches_any. by destruct s.
  - simpl chars. rewrite fmap_cons. cbn [app SqlLike.matches strip_prefix].
    destruct s as [|d s]; [done|]. destruct (Ascii.eqb c d); [apply IH|done].
Qed.

Lemma matches_any_cons p s :
  SqlLike.matches (SqlLike.TokAny :: p) s =
  SqlLike.matches p s ||
  match s with
  | EmptyString => false
  | String _ s' => SqlLike.matches (SqlLike.TokAny :: p) s'
  end.
Proof. destruct s; reflexivity. Qed.

Lemma matches_contains q s :
  SqlLike.matches (SqlLike.TokAny :: (SqlLike.TokChar <$> chars q)
                     ++ [SqlLike.TokAny]) s
  = Contains s q.
Proof.
  induction s as [|c s IH].
  - rewrite matches_any_cons, matches_prefix. cbn [Contains].
    destruct (strip_prefix q EmptyString).
    + by rewrite bool_decide_eq_true_2.
    + rewrite bool_decide_eq_false_2; [done|]. by intros [? ?].
  - rewrite matches_any_cons, matches_prefix, IH. cbn [Contains].
    destruct (strip_prefix q (String c s)).
    + by rewrite bool_decide_eq_true_2.
    + rewrite bool_decide_eq_false_2; [done|]. by intros [? ?].
Qed.

Lemma parse_like_query q :
  plain q →
  SqlLike.parse ("%" +:+ q +:+ "%")
  = Some (SqlLike.TokAny :: (SqlLike.TokChar <$> chars q) ++ [SqlLike.TokAny]).
Proof.
  intros Hq. change ("%" +:+ q +:+ "%") with (String percent (q +:+ "%")).
  cbn [SqlLike.parse]. change (Ascii.eqb percent backslash) with false.
  change (Ascii.eqb percent percent) with true. cbv iota.
  by rewrite (parse_plain q "%" [SqlLike.TokAny] Hq eq_refl).
Qed.

Lemma like_contains q s :
  plain q → SqlLike.like s ("%" +:+ q +:+ "%") = Some (Contains s q).
Proof.
  intros Hq. unfold SqlLike.like. rewrite (parse_like_query q Hq).
  cbn [fmap option_fmap option_map]. by rewrite matches_contains.
Qed.

Lemma select_like_contains q rows :
  plain q →
  select_like ("%" +:+ q +:+ "%") rows
  = filter (λ r, Contains (Content r) q = true) rows.
Proof.
  intros Hq. unfold select_like. induction rows as [|r rows IH]; [done|].
  rewrite !filter_cons, IH, (like_contains q (Content r) Hq).
  destruct (Contains (Content r) q) eqn:Hc.
  - rewrite !decide_True; done.
  - rewrite !decide_False; [done| |]; congruence.
Qed.

Lemma elems_foldl_scanned rows :
  elems (foldl (λ pages row, append pages (scanned row)) None rows)
  = scanned <$> rows.
Proof.
  assert (H : ∀ s, elems (foldl (λ pages row, append pages (scanned row)) s rows)
                   = elems s ++ (scanned <$> rows)).
  { induction rows as [|r rows IH]; intros s; simpl; [by rewrite app_nil_r|].
    rewrite IH. unfold append. simpl. by rewrite <- app_assoc. }
  apply H.
Qed.


Lemma parse_like_total_aux s :
  is_Some (SqlLike.parse (s +:+ "%"))
  ∧ ∀ c, is_Some (SqlLike.parse (String c s +:+ "%")).
Proof.
  induction s as [|d s [IH1 IH2]].
  - split; [by eexists|]. intros c. rewrite string_app_cons, string_app_nil.
    cbn [SqlLike.parse]. destruct (Ascii.eqb c backslash); [by eexists|].
    destruct (Ascii.eqb c percent); [by eexists|].
    destruct (Ascii.eqb c underscore); by eexists.
  - split; [apply IH2|]. intros c. rewrite !string_app_cons.
    cbn [SqlLike.parse]. destruct IH1 as [t1 Ht1].
    destruct (IH2 d) as [t2 Ht2]. rewrite string_app_cons in Ht2.
    destruct (Ascii.eqb c backslash).
    { rewrite Ht1. by eexists. }
    cbn [SqlLike.parse] in Ht2. rewrite Ht2.
    destruct (Ascii.eqb c percent); [by eexists|].
    destruct (Ascii.eqb c underscore); by eexists.
Qed.

Lemma db_reject_like query :
  db_reject (SelectPagesLike ("%" +:+ query +:+ "%")) = None.
Proof.
  unfold db_reject.
  destruct (proj2 (parse_like_total_aux query) percent) as [t Ht].
  change ("%" +:+ query +:+ "%") with (String percent query +:+ "%").
  by rewrite Ht.
Qed.

Lemma foldl_append_nil_iff {A B} (f : A → B) (l : list A) :
  foldl (λ s x, append s (f x)) None l = None ↔ l = [].
Proof.
  split; [|by intros ->]. destruct l as [|x l]; [done|]. simpl.
  assert (H : ∀ l s, foldl (λ s x, append s (f x)) (Some s) l ≠ None).
  { clear. induction l as [|y l IH]; intros s; simpl; [done|]. apply IH. }
  intros Hn. by apply H in Hn.
Qed.

Section Dispatcher.

Variable E : Environment.

Lemma searchPagesInEs_fallback_eq query w :
  esClient w = false →
  searchPagesInEs E query w =
  let likeQ := "%" +:+ query +:+ "%" in
  match db_fault E (trace w) (SelectPagesLike likeQ) with
  | Some e => (None, Some e, extend w [EvDb (SelectPagesLike likeQ) (Some e)])
  | None =>
      (foldl (λ pages row, append pages (scanned row)) None
         (select_like likeQ (pages w)), None,
       extend w [EvDb (SelectPagesLike likeQ) None])
  end.
Proof.
  intros Hc. assert (Hr := db_reject_like query).
  unfold searchPagesInEs, bind, gets. rewrite Hc.
  remember ("%" +:+ query +:+ "%") as likeQ eqn:HQ.
  cbn [negb]. unfold db_call. cbv zeta.
  destruct (db_fault E (trace w) (SelectPagesLike likeQ)) as [e|]; [done|].
  rewrite Hr. done.
Qed.

Lemma searchPagesInEs_engine_eq query w :
  esClient w = true →
  searchPagesInEs E query w =
  let r := es_search E (trace w) (es_index w) (search_body query) in
  (match r with
   | SearchErr e | SearchUndecodable e => (None, Some e)
   | SearchHits hits => (foldl append None hits, None)
   end, extend w [EvSearch (search_body query) r]).
Proof.
  intros Hc. unfold searchPagesInEs, bind, gets, es_Search. rewrite Hc.
  cbn [negb]. cbv zeta.
  by destruct (es_search E (trace w) (es_index w) (search_body query)).
Qed.

End Dispatcher.

(** C8 (as amended).  When nothing matches, either backend of
    searchPagesInEs returns no error and a result of length zero, which is
    the nil slice (the fallback: the SELECT succeeds and selects no row; the
    engine: the reply decodes to no hit).  An error comes only from the
    call itself: on the fallback the SELECT failed with that error, on the
    engine the search request or the decoding of its body did; the result is
    then nil as well.  In all cases the result is nil exactly when it holds
    no page. *)
Theorem searchPagesInEs_zero_matches (E : Environment) query w :
  let likeQ := "%" +:+ query +:+ "%" in
  let reply := es_search E (trace w) (es_index w) (search_body query) in
  let '(found, err, w') := searchPagesInEs E query w in
  (esClient w = false → db_fault E (trace w) (SelectPagesLike likeQ) = None →
   select_like likeQ (pages w) = [] → found = None ∧ err = None)
  ∧ (esClient w = true → reply = SearchHits [] → found = None ∧ err = None)
  ∧ (∀ e, err = Some e →
       found = None
       ∧ if esClient w
         then reply = SearchErr e ∨ reply = SearchUndecodable e
         else db_fault E (trace w) (SelectPagesLike likeQ) = Some e)
  ∧ (found = None ↔ elems found = []).
Proof.
  intros likeQ reply. destruct (esClient w) eqn:Hc.
  - rewrite searchPagesInEs_engine_eq by done. cbv zeta. fold reply.
    destruct reply as [e|e|hits]; (split; [done|]); split.
    + by intros _ [=].
    + split; [|done]. intros ? [= <-]. split; [done|by left].
    + by intros _ [=].
    + split; [|done]. intros ? [= <-]. split; [done|by right].
    + by intros _ [= ->].
    + split; [done|].
      rewrite (foldl_append_nil_iff id), elems_foldl_append_nil. done.
  - rewrite searchPagesInEs_fallback_eq by done. cbv zeta. fold likeQ.
    destruct (db_fault E (trace w) (SelectPagesLike likeQ)) as [e|].
    + split; [done|]. split; [done|]. split; [|done]. by intros ? [= <-].
    + split; [by intros _ _ ->|]. split; [done|]. split; [done|].
      rewrite foldl_append_nil_iff, elems_foldl_scanned.
      split; [by intros ->|]. apply fmap_nil_inv.
Qed.

(** ** Index Synchronizer *)

Lemma IsError_fault n : IsError (400 + Z.of_nat n) = true.
Proof. unfold IsError. apply Z.ltb_lt. lia. Qed.

Ltac world_eq :=
  unfold record, setIndex, extend; cbn [trace pages processed_searches es_index esClient];
  rewrite <- ?app_assoc; try reflexivity.

Section Synchronizer.

Variable E : Environment.

Lemma indexLoop_spec rows : ∀ w count docs,
  es_index w = Some docs →
  ∃ outs,
    length outs = length rows
    ∧ Forall (λ o, ∃ h, o.1 = time_Now E (trace w ++ h)) outs
    ∧ indexLoop E rows count w =
      (count + Z.of_nat (length (accepted E rows outs)),
       mkWorld (trace w ++ loop_events E rows outs) (pages w)
         (processed_searches w) (Some (docs ++ accepted E rows outs))
         (esClient w)).
Proof.
  induction rows as [|row rest IH]; intros w count docs Hix.
  - exists []. split; [done|]. split; [constructor|].
    cbn. unfold ret. rewrite Z.add_0_r, !app_nil_r. destruct w; simpl in *.
    by rewrite Hix.
  - cbn [indexLoop]. unfold bind at 1. unfold now at 1.
    set (t := time_Now E (trace w)).
    unfold bind at 1. unfold es_call at 1.
    assert (Ht : ∃ h, t = time_Now E (trace w ++ h))
      by (exists []; by rewrite app_nil_r).
    assert (Hext : ∀ ev (outs : list (Z * EsReply)),
               Forall (λ o, ∃ h, o.1 = time_Now E ((trace w ++ ev) ++ h)) outs →
               Forall (λ o, ∃ h, o.1 = time_Now E (trace w ++ h)) outs).
    { intros ev outs H. eapply Forall_impl; [exact H|]. intros o [h Hh].
      exists (ev ++ h). by rewrite app_assoc. }
    destruct (es_fault E (trace w) (EsIndex (docMap E row t))) as [[e|n b]|].
    + unfold bind at 1. unfold log_Printf, emit.
      set (w2 := record _ (record _ w)).
      destruct (IH w2 count docs Hix) as (outs & Hlen & Hall & Heq).
      exists ((t, EsErr e) :: outs). split; [simpl; by rewrite Hlen|].
      split; [constructor; [exact Ht|]|].
      * subst w2. revert Hall. unfold record. cbn [trace].
        rewrite <- app_assoc. apply Hext.
      * rewrite Heq. subst w2. unfold loop_events, accepted.
        cbn [zip_with concat index_events reply_failed fst snd index_log app].
        world_eq.
    + rewrite IsError_fault. unfold bind at 1. unfold log_Printf, emit.
      set (w2 := record _ (record _ w)).
      destruct (IH w2 count docs Hix) as (outs & Hlen & Hall & Heq).
      exists ((t, EsResp (400 + Z.of_nat n) b) :: outs).
      split; [simpl; by rewrite Hlen|].
      split; [constructor; [exact Ht|]|].
      * subst w2. revert Hall. unfold record. cbn [trace].
        rewrite <- app_assoc. apply Hext.
      * rewrite Heq. subst w2. unfold loop_events, accepted.
        cbn [zip_with concat index_events reply_failed fst snd index_log app].
        rewrite IsError_fault. world_eq.
    + rewrite Hix. cbn [es_apply]. cbv iota beta.
      change (IsError 201) with false. cbv iota.
      unfold bind at 1. unfold log_Printf, emit.
      set (w2 := record _ (record _ (setIndex _ w))).
      destruct (IH w2 (count + 1) (docs ++ [docMap E row t]) eq_refl)
        as (outs & Hlen & Hall & Heq).
      exists ((t, EsResp 201 "created") :: outs).
      split; [simpl; by rewrite Hlen|].
      split; [constructor; [exact Ht|]|].
      * subst w2. revert Hall. unfold record, setIndex. cbn [trace].
        rewrite <- app_assoc. apply Hext.
      * rewrite Heq. subst w2. unfold loop_events, accepted.
        cbn [zip_with concat index_events reply_failed fst snd index_log app].
        change (IsError 201) with false. cbv iota.
        cbn [app length]. f_equal; [lia|]. world_eq.
Qed.

Lemma createAndLoad_spec w pre ix :
  cleared pre →
  ∃ res new ix',
    createAndLoad E (mkWorld (trace w ++ pre) (pages w) (processed_searches w)
                       ix (esClient w))
    = (res, mkWorld (trace w ++ new) (pages w) (processed_searches w) ix'
              (esClient w))
    ∧ sync_run E w res new ix'.
Proof.
  intros Hpre. unfold createAndLoad. unfold bind at 1. unfold es_call at 1.
  cbn [trace es_index].
  destruct (es_fault E (trace w ++ pre) (EsCreate mappings)) as [[e|n b]|].
  - eexists _, (pre ++ [_]), _. split; [unfold ret; world_eq|].
    by apply run_create_failed.
  - rewrite IsError_fault. eexists _, (pre ++ [_]), _.
    split; [unfold ret; world_eq|].
    apply run_create_failed; [done|]. apply IsError_fault.
  - destruct ix as [docs|]; cbn [es_apply]; cbv iota beta.
    + change (IsError 400) with true. cbv iota.
      eexists _, (pre ++ [_]), _. split; [unfold ret; world_eq|].
      by apply run_create_failed.
    + change (IsError 200) with false. cbv iota.
      unfold bind at 1. unfold db_call at 1. cbn [db_reject].
      match goal with |- context [db_fault E ?h SelectPages] =>
        destruct (db_fault E h SelectPages) as [e|] end.
      * eexists _, (pre ++ [_; _]), _. split; [unfold ret; world_eq|].
        by apply run_query_failed.
      * cbn [db_effect]. unfold bind at 1. unfold gets at 1.
        cbn [pages record setIndex].
        unfold bind at 1.
        match goal with |- context [indexLoop E (pages w) 0 ?w1] =>
          destruct (indexLoop_spec (pages w) w1 0 [] eq_refl)
            as (outs & Hlen & Hall & ->) end.
        unfold bind at 1. unfold log_Printf, emit, ret.
        eexists _, (pre ++ [_; _] ++ loop_events E (pages w) outs ++ [_]), _.
        split; [world_eq|].
        rewrite Z.add_0_l. apply run_loaded; try done.
        revert Hall. cbn [trace record setIndex]. rewrite <- !app_assoc.
        intros Hall. eapply Forall_impl; [exact Hall|].
        intros o [h Hh]. rewrite <- !app_assoc in Hh. eexists. exact Hh.
Qed.

Lemma syncPagesToElasticsearch_spec w :
  esClient w = true →
  ∃ res new ix,
    syncPagesToElasticsearch E w
    = (res, mkWorld (trace w ++ new) (pages w) (processed_searches w) ix
              (esClient w))
    ∧ sync_run E w res new ix.
Proof.
  intros Hc. unfold syncPagesToElasticsearch. unfold bind at 1.
  unfold gets at 1. replace (negb (esClient w)) with false by (by rewrite Hc).
  unfold bind at 1. unfold es_call at 1.
  destruct (es_fault E (trace w) EsExists) as [[e|n b]|].
  - eexists _, [_], _. split; [unfold ret; world_eq|]. apply run_exists_error.
  - unfold bind at 1. unfold deleteIfExists.
    replace (400 + Z.of_nat n =? 200) with false
      by (symmetry; apply Z.eqb_neq; lia).
    unfold ret at 1.
    apply (createAndLoad_spec w [EvEs EsExists (EsResp (400 + Z.of_nat n) b)]).
    apply cleared_absent. lia.
  - destruct (es_index w) as [docs|] eqn:Hix; cbn [es_apply]; cbv iota beta.
    + unfold bind at 1. unfold deleteIfExists. change (200 =? 200) with true.
      cbv iota. unfold bind at 1. unfold log_Printf, emit.
      unfold bind at 1. unfold es_call at 1.
      match goal with |- context [es_fault E ?h EsDelete] =>
        destruct (es_fault E h EsDelete) as [[e|n b]|] end.
      * eexists _, [_; _; _], _. split; [unfold ret; world_eq|].
        rewrite <- Hix. by apply run_delete_failed.
      * rewrite IsError_fault. eexists _, [_; _; _], _.
        split; [unfold ret; world_eq|]. rewrite <- Hix.
        apply run_delete_failed. apply IsError_fault.
      * cbn [es_index record setIndex es_apply].
        cbv iota beta. change (IsError 200) with false. cbv iota.
        unfold ret at 1.
        match goal with |- context [createAndLoad E ?w1] =>
          replace w1 with
            (mkWorld (trace w ++ [EvEs EsExists (EsResp 200 EmptyString);
                        EvLog "Index 'pages' already exists - removing and rebuilding";
                        EvEs EsDelete (EsResp 200 "acknowledged")])
               (pages w) (processed_searches w) None (esClient w))
            by world_eq end.
        apply createAndLoad_spec. by apply cleared_deleted.
    + unfold bind at 1. unfold deleteIfExists. change (404 =? 200) with false.
      cbv iota. unfold ret at 1.
      match goal with |- context [createAndLoad E ?w1] =>
        replace w1 with
          (mkWorld (trace w ++ [EvEs EsExists (EsResp 404 EmptyString)])
             (pages w) (processed_searches w) None (esClient w))
          by (world_eq; by rewrite Hix) end.
      apply createAndLoad_spec. by apply cleared_absent.
Qed.

End Synchronizer.

Lemma index_requests_app l1 l2 :
  index_requests (l1 ++ l2) = index_requests l1 ++ index_requests l2.
Proof. apply omap_app. Qed.

Lemma index_requests_cleared pre : cleared pre → index_requests pre = [].
Proof. by destruct 1. Qed.


Lemma index_requests_loop E rows : ∀ outs,
  index_requests (loop_events E rows outs)
  = zip_with (λ row o, (docMap E row o.1, o.2)) rows outs.
Proof.
  induction rows as [|row rows IH]; intros [|o outs]; try done.
  unfold loop_events in *. cbn [zip_with concat]. rewrite index_requests_app, IH.
  done.
Qed.

Lemma loop_events_requests E rows outs q r :
  EvEs q r ∈ loop_events E rows outs →
  ∃ row o, row ∈ rows ∧ o ∈ outs ∧ q = EsIndex (docMap E row o.1) ∧ r = o.2.
Proof.
  revert outs. induction rows as [|row rows IH]; intros [|o outs] Hin;
    try (by apply elem_of_nil in Hin).
  unfold loop_events in *. cbn [zip_with concat] in Hin.
  apply elem_of_app in Hin as [Hin|Hin].
  - unfold index_events in Hin.
    repeat (apply elem_of_cons in Hin as [Hin|Hin]); try discriminate Hin.
    + injection Hin as -> ->. exists row, o. repeat split; by left.
    + by apply elem_of_nil in Hin.
  - destruct (IH outs Hin) as (row' & o' & Hr & Ho & Hq & Hrr).
    exists row', o'. repeat split; try done; by right.
Qed.

Lemma accepted_requests E rows : ∀ outs,
  accepted E rows outs
  = (filter (λ dr, reply_failed dr.2 = false)
       (index_requests (loop_events E rows outs))).*1.
Proof.
  intros outs. rewrite index_requests_loop. revert outs.
  induction rows as [|row rows IH]; intros [|o outs]; try done.
  unfold accepted in *. cbn [zip_with concat]. rewrite IH, filter_cons. simpl.
  destruct (reply_failed o.2).
  - rewrite decide_False by done. done.
  - rewrite decide_True by done. done.
Qed.

Lemma filter_all {A} (P : A → Prop) `{∀ x, Decision (P x)} (l : list A) :
  Forall P l → filter P l = l.
Proof.
  induction 1 as [|x l Hx Hl IH]; [done|].
  by rewrite filter_cons_True, IH.
Qed.

Lemma sync_run_requests E w res new ix :
  sync_run E w res new ix →
  res = Return None →
  ∃ outs, length outs = length (pages w)
          ∧ Forall (λ o, ∃ h, o.1 = time_Now E (trace w ++ h)) outs
          ∧ index_requests new = zip_with (λ row o, (docMap E row o.1, o.2)) (pages w) outs
          ∧ ix = Some (accepted E (pages w) outs)
          ∧ accepted E (pages w) outs
            = (filter (λ dr, reply_failed dr.2 = false) (index_requests new)).*1.
Proof.
  destruct 1 as [e|b r msg Hr|pre r msg ix Hpre Hr|pre r e Hpre Hr
                |pre r outs Hpre Hr Hlen Hall]; intros [=].
  exists outs. split; [done|]. split; [done|].
  assert (Hreq : index_requests
            (pre ++ [EvEs (EsCreate mappings) r; EvDb SelectPages None]
             ++ loop_events E (pages w) outs
             ++ [EvLog ("Synced " +:+ pretty (Z.of_nat (length (accepted E (pages w) outs)))
                        +:+ " pages to Elasticsearch")])
          = index_requests (loop_events E (pages w) outs)).
  { rewrite !index_requests_app, (index_requests_cleared pre Hpre). simpl.
    by rewrite app_nil_r. }
  rewrite Hreq. split; [apply index_requests_loop|]. split; [done|].
  apply accepted_requests.
Qed.

Section NoFault.

Variable E : Environment.
Hypothesis es_ok : ∀ h q, es_fault E h q = None.
Hypothesis db_ok : ∀ h, db_fault E h SelectPages = None.

Lemma indexLoop_nofault rows : ∀ w count docs,
  es_index w = Some docs →
  ∃ w' ds, indexLoop E rows count w = (count + Z.of_nat (length rows), w')
           ∧ es_index w' = Some (docs ++ ds) ∧ length ds = length rows.
Proof.
  induction rows as [|row rest IH]; intros w count docs Hix.
  - exists w, []. cbn. unfold ret. by rewrite Z.add_0_r, app_nil_r.
  - cbn [indexLoop]. unfold bind at 1. unfold now at 1.
    unfold bind at 1. unfold es_call at 1. rewrite es_ok, Hix.
    cbn [es_apply]. cbv iota beta. change (IsError 201) with false. cbv iota.
    unfold bind at 1. unfold log_Printf, emit.
    match goal with |- context [indexLoop E rest (count + 1) ?w1] =>
      destruct (IH w1 (count + 1) (docs ++ [docMap E row (time_Now E (trace w))])
                  eq_refl) as (w' & ds & -> & Hw' & Hlen) end.
    exists w', (docMap E row (time_Now E (trace w)) :: ds).
    split; [f_equal; cbn [length]; lia|]. split.
    + by rewrite Hw', <- app_assoc.
    + simpl. by rewrite Hlen.
Qed.

Lemma createAndLoad_nofault w :
  es_index w = None →
  ∃ w' docs, createAndLoad E w = (Return None, w')
             ∧ es_index w' = Some docs ∧ length docs = length (pages w).
Proof.
  intros Hix. unfold createAndLoad. unfold bind at 1. unfold es_call at 1.
  rewrite es_ok, Hix. cbn [es_apply]. cbv iota beta.
  change (IsError 200) with false. cbv iota.
  unfold bind at 1. unfold db_call at 1. rewrite db_ok. cbn [db_reject db_effect].
  unfold bind at 1. unfold gets at 1. unfold bind at 1.
  match goal with |- context [indexLoop E ?rows 0 ?w1] =>
    destruct (indexLoop_nofault rows w1 0 [] eq_refl)
      as (w' & ds & -> & Hw' & Hlen) end.
  unfold bind, log_Printf, emit, ret. eexists _, ds. split; [done|].
  split; [exact Hw'|exact Hlen].
Qed.

Lemma syncPagesToElasticsearch_nofault w :
  esClient w = true →
  ∃ w' docs, syncPagesToElasticsearch E w = (Return None, w')
             ∧ es_index w' = Some docs ∧ length docs = length (pages w).
Proof.
  intros Hc. unfold syncPagesToElasticsearch. unfold bind at 1.
  unfold gets at 1. rewrite Hc. cbn [negb].
  unfold bind at 1. unfold es_call at 1. rewrite es_ok.
  destruct (es_index w) as [docs|] eqn:Hix; cbn [es_apply]; cbv iota beta.
  - unfold bind at 1. unfold deleteIfExists. change (200 =? 200) with true.
    cbv iota. unfold bind at 1. unfold log_Printf, emit.
    unfold bind at 1. unfold es_call at 1. rewrite es_ok.
    cbn [es_index record setIndex es_apply]. cbv iota beta.
    change (IsError 200) with false. cbv iota. unfold ret at 1.
    match goal with |- context [createAndLoad E ?w1] =>
      destruct (createAndLoad_nofault w1 eq_refl) as (w' & ds & -> & Hw' & Hlen) end.
    by exists w', ds.
  - unfold bind at 1. unfold deleteIfExists. change (404 =? 200) with false.
    cbv iota. unfold ret at 1.
    match goal with |- context [createAndLoad E ?w1] =>
      destruct (createAndLoad_nofault w1 eq_refl) as (w' & ds & -> & Hw' & Hlen) end.
    by exists w', ds.
Qed.

End NoFault.

(** C4 (as amended).  From a world with a client, whatever the index was
    before (absent, empty, or holding old documents): a run of
    syncPagesToElasticsearch that returns no error has sent one indexing
    request per row of the pages table and leaves an index that holds
    exactly the documents of the requests that did not fail, so at most as
    many documents as rows, and exactly as many when no request failed.
    And when no call to the engine and no read of the table fails, the run
    does return no error and the index holds as many documents as the
    table has rows. *)
Theorem syncPagesToElasticsearch_index_size (E : Environment) w :
  esClient w = true →
  (∀ w', syncPagesToElasticsearch E w = (Return None, w') →
     ∃ new docs,
       trace w' = trace w ++ new ∧ es_index w' = Some docs
       ∧ docs = (filter (λ dr, reply_failed dr.2 = false) (index_requests new)).*1
       ∧ length (index_requests new) = length (pages w)
       ∧ (length docs ≤ length (pages w))%nat
       ∧ (Forall (λ dr, reply_failed dr.2 = false) (index_requests new) →
          length docs = length (pages w)))
  ∧ ((∀ h q, es_fault E h q = None) → (∀ h, db_fault E h SelectPages = None) →
     ∃ w' docs, syncPagesToElasticsearch E w = (Return None, w')
                ∧ es_index w' = Some docs ∧ length docs = length (pages w)).
Proof.
  intros Hc. destruct (syncPagesToElasticsearch_spec E w Hc) as (res & new & ix & Heq & Hrun).
  assert (Hsize : res = Return None →
    ∃ docs, ix = Some docs
       ∧ docs = (filter (λ dr, reply_failed dr.2 = false) (index_requests new)).*1
       ∧ length (index_requests new) = length (pages w)
       ∧ (length docs ≤ length (pages w))%nat
       ∧ (Forall (λ dr, reply_failed dr.2 = false) (index_requests new) →
          length docs = length (pages w))).
  { intros Hres.
    destruct (sync_run_requests E w res new ix Hrun Hres)
      as (outs & Hlen & _ & Hreq & -> & Hacc).
    assert (Hl : length (index_requests new) = length (pages w)).
    { rewrite Hreq, length_zip_with. lia. }
    eexists. split; [done|]. split; [exact Hacc|]. split; [exact Hl|].
    rewrite Hacc, length_fmap. split.
    - rewrite <- Hl. apply length_filter.
    - intros Hall. by rewrite filter_all. }
  split.
  - intros w' Hw. rewrite Heq in Hw. injection Hw as -> <-.
    destruct (Hsize eq_refl) as (docs & -> & H). by exists new, docs.
  - intros Hes Hdb. by apply syncPagesToElasticsearch_nofault.
Qed.




(** C6 (as amended).  Every document that a run of syncPagesToElasticsearch
    submits is built from a row of the pages table: its title, url and
    content are those of the row, its language is the empty string and its
    last_updated is the formatted time of some moment of the run (not the
    values stored in the row).  A run that returns no error submits one such
    document per row, in the order of the table. *)
Theorem syncPagesToElasticsearch_documents (E : Environment) w :
  esClient w = true →
  ∃ res new ix,
    syncPagesToElasticsearch E w
    = (res, mkWorld (trace w ++ new) (pages w) (processed_searches w) ix
              (esClient w))
    ∧ (∀ d r, EvEs (EsIndex d) r ∈ new →
         ∃ row h, row ∈ pages w
                  ∧ d = mkDoc (Title row) (URL row) (Content row) EmptyString
                          (Format_RFC3339 E (time_Now E (trace w ++ h))))
    ∧ (res = Return None →
       Forall2 (λ row d,
                  doc_title d = Title row ∧ doc_url d = URL row
                  ∧ doc_content d = Content row
                  ∧ doc_language d = EmptyString
                  ∧ ∃ h, doc_last_updated d
                         = Format_RFC3339 E (time_Now E (trace w ++ h)))
         (pages w) (index_requests new).*1).
Proof.
  intros Hc.
  destruct (syncPagesToElasticsearch_spec E w Hc) as (res & new & ix & Heq & Hrun).
  exists res, new, ix. split; [exact Heq|]. clear Heq. split.
  - intros d r0 Hin.
    destruct Hrun as [e|b r msg Hr|pre r msg ix Hpre Hr|pre r e Hpre Hr
                     |pre r outs Hpre Hr Hlen Hall].
    + apply list_elem_of_singleton in Hin. discriminate Hin.
    + repeat (apply elem_of_cons in Hin as [Hin|Hin]); try discriminate Hin.
      by apply elem_of_nil in Hin.
    + apply elem_of_app in Hin as [Hin|Hin].
      * destruct Hpre; repeat (apply elem_of_cons in Hin as [Hin|Hin]);
          try discriminate Hin; by apply elem_of_nil in Hin.
      * apply list_elem_of_singleton in Hin. discriminate Hin.
    + apply elem_of_app in Hin as [Hin|Hin].
      * destruct Hpre; repeat (apply elem_of_cons in Hin as [Hin|Hin]);
          try discriminate Hin; by apply elem_of_nil in Hin.
      * repeat (apply elem_of_cons in Hin as [Hin|Hin]); try discriminate Hin.
        by apply elem_of_nil in Hin.
    + apply elem_of_app in Hin as [Hin|Hin].
      * destruct Hpre; repeat (apply elem_of_cons in Hin as [Hin|Hin]);
          try discriminate Hin; by apply elem_of_nil in Hin.
      * do 2 (apply elem_of_cons in Hin as [Hin|Hin]; [discriminate Hin|]).
        apply elem_of_app in Hin as [Hin|Hin].
        -- apply loop_events_requests in Hin as (row & o & Hrow & Ho & Hq & _).
           injection Hq as ->. rewrite Forall_forall in Hall.
           destruct (Hall o Ho) as [h Hh]. exists row, h. split; [done|].
           unfold docMap. by rewrite Hh.
        -- apply list_elem_of_singleton in Hin. discriminate Hin.
  - intros Hres.
    destruct (sync_run_requests E w res new ix Hrun Hres)
      as (outs & Hlen & Hall & -> & _).
    clear Hrun. revert outs Hlen Hall.
    induction (pages w) as [|row rows IH]; intros [|o outs] Hlen Hall;
      try discriminate Hlen; [constructor|].
    apply Forall_cons in Hall as [[h Hh] Hall].
    cbn [zip_with fmap list_fmap]. constructor.
    + simpl. repeat split; try done. exists h. by rewrite Hh.
    + apply IH; [by injection Hlen|done].
Qed.

(** * The properties on concrete worlds *)

Import Scenario.

(** The log of the specification: three spellings of one term give one
    entry. *)
Example extractSearchTerms_golang :
  (extractSearchTerms calm "search.log" empty_world).1 = Some ["golang"].
Proof. vm_compute. reflexivity. Qed.

(** Danish fetch 404, English fetch fine: the English page, two requests. *)
Example tryScrapeInLanguages_da_en :
  let '(page, lang, err, w') :=
    tryScrapeInLanguages calm "golang" ["da"; "en"] empty_world in
  lang = "en" ∧ err = None ∧ Title page = golang_heading
  ∧ visits (trace w')
    = [EvVisit "da.wikipedia.org" "https://da.wikipedia.org/wiki/Golang"
         (wiki "da.wikipedia.org" "https://da.wikipedia.org/wiki/Golang");
       EvVisit "en.wikipedia.org" "https://en.wikipedia.org/wiki/Golang"
         (wiki "en.wikipedia.org" "https://en.wikipedia.org/wiki/Golang")].
Proof. vm_compute. repeat split. Qed.



Lemma savePageToDBWithLang_one_row_per_url_witness :
  let w1 := (savePageToDBWithLang calm go_page "en" empty_world).2 in
  let w2 := (savePageToDBWithLang calm go_page_v2 "en" w1).2 in
  ∃ row, filter (λ r, URL r = URL go_page_v2) (pages w2) = [row]
         ∧ Title row = Title go_page_v2
         ∧ (pages empty_world = [] → pages w2 = [row]).
Proof.
  intros w1 w2.
  apply (proj2 (proj2 (savePageToDBWithLang_one_row_per_url calm))
           go_page "en" go_page_v2 "en" empty_world w1 w2).
  - vm_compute. constructor.
  - reflexivity.
  - vm_compute. discriminate.
  - vm_compute. reflexivity.
  - vm_compute. reflexivity.
Defined.

Lemma savePageToDBWithLang_invalid_witness :
  (URL (mkPage "/u" "T" EmptyString "en" 0) = EmptyString
   ∨ Title (mkPage "/u" "T" EmptyString "en" 0) = EmptyString
   ∨ Content (mkPage "/u" "T" EmptyString "en" 0) = EmptyString)
  ∧ savePageToDBWithLang calm (mkPage "/u" "T" EmptyString "en" 0) "en"
      (stocked false)
    = (Some "invalid page data", stocked false).
Proof.
  split; [right; right; reflexivity|].
  apply savePageToDBWithLang_invalid. right. right. reflexivity.
Defined.

(** One row, every indexing request refused: the run returns no error and
    the index is empty. *)
Lemma syncPagesToElasticsearch_partial_counterexample :
  ¬ (∀ w', syncPagesToElasticsearch indexing_down (stocked true) = (Return None, w') →
           ∃ docs, es_index w' = Some docs
                   ∧ length docs = length (pages (stocked true))).
Proof.
  intros H.
  destruct (H (syncPagesToElasticsearch indexing_down (stocked true)).2)
    as (docs & Hd & Hl).
  - vm_compute. reflexivity.
  - vm_compute in Hd. injection Hd as <-. vm_compute in Hl. discriminate Hl.
Qed.

Lemma syncPagesToElasticsearch_index_size_witness :
  esClient (stocked true) = true
  ∧ ∃ w' docs, syncPagesToElasticsearch calm (stocked true) = (Return None, w')
               ∧ es_index w' = Some docs
               ∧ length docs = length (pages (stocked true)).
Proof.
  split; [reflexivity|].
  apply (proj2 (syncPagesToElasticsearch_index_size calm (stocked true) eq_refl)).
  - intros h q. reflexivity.
  - intros h. reflexivity.
Defined.

(** The existence check is answered 503 and there is no index: the run
    creates it, loads the page and returns no error. *)
Lemma syncPagesToElasticsearch_exists_status_counterexample :
  ¬ (∀ r, EvEs EsExists r
            ∈ trace (syncPagesToElasticsearch exists_refused unindexed).2 →
          reply_failed r = true →
          (∃ msg, (syncPagesToElasticsearch exists_refused unindexed).1
                  = Return (Some msg))
          ∧ index_requests
              (trace (syncPagesToElasticsearch exists_refused unindexed).2) = []).
Proof.
  intros H.
  destruct (H (EsResp 503 "unavailable")) as [[msg Hmsg] _].
  - vm_compute. left.
  - reflexivity.
  - vm_compute in Hmsg. discriminate Hmsg.
Qed.


(** The stored page is in English; the document submitted for it has no
    language. *)
Lemma syncPagesToElasticsearch_copy_counterexample :
  ¬ (∀ d r, EvEs (EsIndex d) r
              ∈ trace (syncPagesToElasticsearch calm (stocked true)).2 →
            ∃ row, row ∈ pages (stocked true)
                   ∧ doc_title d = Title row ∧ doc_url d = URL row
                   ∧ doc_content d = Content row
                   ∧ doc_language d = Language row
                   ∧ doc_last_updated d
                     = Format_RFC3339 calm (LastUpdated row)).
Proof.
  intros H.
  destruct (H (mkDoc "Go" "https://en.wikipedia.org/wiki/Golang" "abc"
                 EmptyString "5") (EsResp 201 "created"))
    as (row & Hrow & _ & _ & _ & Hlang & _).
  - vm_compute. do 5 right. left.
  - apply list_elem_of_singleton in Hrow as ->. discriminate Hlang.
Qed.

Lemma syncPagesToElasticsearch_documents_witness :
  esClient (stocked true) = true
  ∧ ∃ res new ix,
      syncPagesToElasticsearch calm (stocked true)
      = (res, mkWorld (trace (stocked true) ++ new) (pages (stocked true))
                (processed_searches (stocked true)) ix (esClient (stocked true)))
      ∧ (∀ d r, EvEs (EsIndex d) r ∈ new →
           ∃ row h, row ∈ pages (stocked true)
                    ∧ d = mkDoc (Title row) (URL row) (Content row) EmptyString
                            (Format_RFC3339 calm
                               (time_Now calm (trace (stocked true) ++ h))))
      ∧ (res = Return None →
         Forall2 (λ row d,
                    doc_title d = Title row ∧ doc_url d = URL row
                    ∧ doc_content d = Content row
                    ∧ doc_language d = EmptyString
                    ∧ ∃ h, doc_last_updated d
                           = Format_RFC3339 calm
                               (time_Now calm (trace (stocked true) ++ h)))
           (pages (stocked true)) (index_requests new).*1).
Proof.
  split; [reflexivity|].
  apply (syncPagesToElasticsearch_documents calm (stocked true)). reflexivity.
Defined.



(** No row matches: the result is the nil slice. *)
Lemma searchPagesInEs_nil_counterexample :
  ¬ (select_like ("%" +:+ "x" +:+ "%") (pages (stocked false)) = [] →
     (searchPagesInEs calm "x" (stocked false)).1.1 ≠ None).
Proof. intros H. apply H; vm_compute; reflexivity. Qed.

Lemma searchPagesInEs_zero_matches_witness :
  let likeQ := "%" +:+ "x" +:+ "%" in
  let reply := es_search calm (trace (stocked false)) (es_index (stocked false))
                 (search_body "x") in
  let '(found, err, w') := searchPagesInEs calm "x" (stocked false) in
  (esClient (stocked false) = false →
   db_fault calm (trace (stocked false)) (SelectPagesLike likeQ) = None →
   select_like likeQ (pages (stocked false)) = [] → found = None ∧ err = None)
  ∧ (esClient (stocked false) = true → reply = SearchHits [] →
     found = None ∧ err = None)
  ∧ (∀ e, err = Some e →
       found = None
       ∧ if esClient (stocked false)
         then reply = SearchErr e ∨ reply = SearchUndecodable e
         else db_fault calm (trace (stocked false)) (SelectPagesLike likeQ) = Some e)
  ∧ (found = None ↔ elems found = []).
Proof. apply (searchPagesInEs_zero_matches calm "x" (stocked false)). Defined.

(** The ledger holds the term but cannot be read: the term is fetched and
    its page written again. *)
Lemma StartScraping_fail_open_counterexample :
  ¬ ("golang" ∈ processed_searches (stocked false) →
     visits (trace (StartScraping ledger_down "search.log" (stocked false)).2) = []
     ∧ pages (StartScraping ledger_down "search.log" (stocked false)).2
       = pages (stocked false)).
Proof.
  intros H. destruct H as [Hv _]; [by left|]. vm_compute in Hv. discriminate Hv.
Qed.

Lemma StartScraping_skips_processed_witness :
  "golang" ∈ processed_searches (stocked false)
  ∧ (∀ h, db_fault calm h (SelectProcessedExists "golang") = None)
  ∧ filter (λ x, x = "golang")
      (processed_searches (StartScraping calm "search.log" (stocked false)).2)
    = filter (λ x, x = "golang") (processed_searches (stocked false)).
Proof.
  assert (Hin : "golang" ∈ processed_searches (stocked false)) by (by left).
  assert (Hok : ∀ h, db_fault calm h (SelectProcessedExists "golang") = None)
    by (intros h; reflexivity).
  split; [exact Hin|]. split; [exact Hok|].
  apply (StartScraping_skips_processed calm "search.log" (stocked false) "golang"
           Hin Hok).
Defined.

(** * More of the pipeline: the pattern, the extractor, ingestion, the store, the dispatcher and the synchronizer *)


(** * Further properties of the pipeline *)

(** ** The log-line pattern *)

Lemma span_not_quote_eq s :
  ∃ run rest, QueryRegexp.span_not_quote s = (run, rest)
              ∧ s = run +:+ rest ∧ (dquote ∉ chars run)
              ∧ (rest = EmptyString ∨ ∃ post, rest = String dquote post).
Proof.
  induction s as [|c s IH]; simpl.
  - exists EmptyString, EmptyString. repeat split; [apply not_elem_of_nil|by left].
  - destruct (Ascii.eqb_spec c dquote) as [->|Hne].
    + exists EmptyString, (String dquote s).
      repeat split; [apply not_elem_of_nil|right; by eexists].
    + destruct IH as (run & rest & -> & -> & Hrun & Hrest).
      exists (String c run), rest. repeat split; [|done].
      simpl. intros [?|?]%elem_of_cons; congruence.
Qed.

Lemma span_not_quote_app m post :
  dquote ∉ chars m →
  QueryRegexp.span_not_quote (m +:+ String dquote post) = (m, String dquote post).
Proof.
  induction m as [|c m IH]; intros Hm.
  - rewrite string_app_nil. reflexivity.
  - rewrite string_app_cons. cbn [QueryRegexp.span_not_quote chars] in *.
    apply not_elem_of_cons in Hm as [Hc Hm].
    destruct (Ascii.eqb_spec c dquote) as [->|_]; [done|]. by rewrite IH.
Qed.

Lemma match_at_sound s m :
  QueryRegexp.match_at s = Some m →
  m ≠ EmptyString ∧ (dquote ∉ chars m)
  ∧ ∃ post, s = QueryRegexp.marker +:+ m +:+ String dquote post.
Proof.
  unfold QueryRegexp.match_at.
  destruct (strip_prefix QueryRegexp.marker s) as [s1|] eqn:Hp; [|done].
  apply strip_prefix_spec in Hp as ->.
  destruct (span_not_quote_eq s1) as (run & rest & -> & -> & Hrun & Hrest).
  destruct run as [|c run]; [done|]. destruct rest as [|d rest]; [done|].
  intros [= <-]. split; [done|]. split; [done|].
  destruct Hrest as [|[post [= -> ->]]]; [done|]. by exists post.
Qed.

Lemma strip_prefix_app p r : strip_prefix p (p +:+ r) = Some r.
Proof. by apply strip_prefix_spec. Qed.

Lemma match_at_complete m post :
  m ≠ EmptyString → dquote ∉ chars m →
  QueryRegexp.match_at (QueryRegexp.marker +:+ m +:+ String dquote post) = Some m.
Proof.
  intros Hne Hm. unfold QueryRegexp.match_at.
  rewrite strip_prefix_app, span_not_quote_app by done.
  by destruct m.
Qed.


(** X1.  FindStringSubmatch finds a query exactly in the lines that hold the
    marker, then at least one byte other than a quote, then a quote; what it
    returns is such a run: not empty, free of quotes, and standing in the
    line between the marker and a quote. *)
Theorem FindStringSubmatch_spec (s : string) :
  (∀ m, QueryRegexp.FindStringSubmatch s = Some m →
        m ≠ EmptyString ∧ (dquote ∉ chars m)
        ∧ ∃ pre post, s = pre +:+ QueryRegexp.marker +:+ m +:+ String dquote post)
  ∧ ((∃ pre m post, m ≠ EmptyString ∧ (dquote ∉ chars m)
                    ∧ s = pre +:+ QueryRegexp.marker +:+ m +:+ String dquote post)
     → is_Some (QueryRegexp.FindStringSubmatch s)).
Proof.
  split.
  - induction s as [|c s IH]; intros m; simpl.
    + by intros [=].
    + destruct (QueryRegexp.match_at (String c s)) as [m'|] eqn:Hm.
      * intros [= ->]. apply match_at_sound in Hm as (? & ? & post & ->).
        repeat split; try done. by exists EmptyString, post.
      * intros Hf. destruct (IH m Hf) as (? & ? & pre & post & ->).
        repeat split; try done. by exists (String c pre), post.
  - intros (pre & m & post & Hne & Hm & ->).
    induction pre as [|c pre IH].
    + rewrite string_app_nil.
      assert (H := match_at_complete m post Hne Hm).
      destruct (QueryRegexp.marker +:+ m +:+ String dquote post);
        cbn [QueryRegexp.FindStringSubmatch]; rewrite H; by eexists.
    + rewrite string_app_cons. cbn [QueryRegexp.FindStringSubmatch].
      destruct (QueryRegexp.match_at _); [by eexists|exact IH].
Qed.

(** ** Term Extractor, continued *)

Lemma scanLoop_true lines : ∀ (m : gmap string bool) w t b,
  (∀ t b, m !! t = Some b → b = true) →
  (scanLoop lines m w).1 !! t = Some b → b = true.
Proof.
  induction lines as [|line rest IH]; intros m w t b Hm; simpl; [apply Hm|].
  destruct (QueryRegexp.FindStringSubmatch line) as [raw|]; [|by apply IH].
  unfold bind, fmt_Printf, emit. simpl. apply IH.
  intros t' b'. destruct (decide (ToLower (TrimSpace raw) = t')) as [->|Hne].
  - rewrite lookup_insert_eq. congruence.
  - rewrite lookup_insert_ne by done. apply Hm.
Qed.

Lemma scanLoop_lookup lines w t :
  ((scanLoop lines ∅ w).1 !! t = Some true
   ↔ ∃ line raw, line ∈ lines
                 ∧ QueryRegexp.FindStringSubmatch line = Some raw
                 ∧ t = normalise raw)
  ∧ ((scanLoop lines ∅ w).1 !! t = None
     ∨ (scanLoop lines ∅ w).1 !! t = Some true).
Proof.
  assert (Hk := scanLoop_keys lines ∅ w t). rewrite lookup_empty in Hk.
  assert (Ht : ∀ b, (scanLoop lines ∅ w).1 !! t = Some b → b = true).
  { intros b. apply scanLoop_true. intros ? ?. by rewrite lookup_empty. }
  destruct ((scanLoop lines ∅ w).1 !! t) as [b|] eqn:Hb.
  - rewrite (Ht b eq_refl). split; [|by right]. split; [|done]. intros _.
    destruct (proj1 Hk) as [[? ?]|?]; [by eexists|done|done].
  - split; [|by left]. split; [done|]. intros Hex.
    destruct (proj2 Hk (or_intror Hex)) as [b Hb']. done.
Qed.

Lemma scanLoop_same_map lines1 lines2 w1 w2 :
  (∀ t, (∃ line raw, line ∈ lines1
                     ∧ QueryRegexp.FindStringSubmatch line = Some raw
                     ∧ t = normalise raw)
        ↔ (∃ line raw, line ∈ lines2
                       ∧ QueryRegexp.FindStringSubmatch line = Some raw
                       ∧ t = normalise raw)) →
  (scanLoop lines1 ∅ w1).1 = (scanLoop lines2 ∅ w2).1.
Proof.
  intros Hsame. apply map_eq. intros t.
  destruct (scanLoop_lookup lines1 w1 t) as [H1 [N1|S1]];
    destruct (scanLoop_lookup lines2 w2 t) as [H2 [N2|S2]].
  - by rewrite N1, N2.
  - apply H2, Hsame, H1 in S2. congruence.
  - apply H1, Hsame, H2 in S1. congruence.
  - by rewrite S1, S2.
Qed.

Lemma extractSearchTerms_of_map (E : Environment) logPath w :
  (extractSearchTerms E logPath w).1
  = foldl append None
      (map_to_list (scanLoop (log_lines E w logPath) ∅ w).1).*1.
Proof.
  unfold extractSearchTerms, log_lines, bind, os_open. simpl.
  destruct (os_Open E (trace w) logPath) as [content|msg]; simpl.
  - destruct (scanLoop _ _ (record _ w)) as [m w'] eqn:Hs. simpl.
    do 3 f_equal.
    change m with (m, w').1. rewrite <- Hs. by apply scanLoop_same_map.
  - done.
Qed.


Lemma scanLoop_quiet lines : ∀ m w,
  ∃ new, (scanLoop lines m w).2 = extend w new ∧ Forall (λ e, is_request e = false) new.
Proof.
  induction lines as [|l lines IH]; intros m w; simpl.
  - exists []. split; [|constructor]. unfold extend. destruct w; simpl.
    by rewrite app_nil_r.
  - destruct (QueryRegexp.FindStringSubmatch l) as [raw|]; [|apply IH].
    unfold bind, fmt_Printf, emit.
    destruct (IH (<[ToLower (TrimSpace raw):=true]> m)
                (record (EvPrint ("Extracted search term: "
                   +:+ ToLower (TrimSpace raw) +:+ nl)) w)) as (new & -> & Hq).
    eexists (_ :: new).
    split; [unfold extend, record; simpl; by rewrite <- app_assoc|by constructor].
Qed.

Lemma extractSearchTerms_quiet (E : Environment) logPath w :
  ∃ new, (extractSearchTerms E logPath w).2 = extend w new
         ∧ Forall (λ e, is_request e = false) new.
Proof.
  unfold extractSearchTerms, bind, os_open.
  destruct (os_Open E (trace w) logPath) as [content|msg].
  - destruct (scanLoop_quiet (scanner_tokens (ScanLines content)) ∅
                (record (EvOpen logPath (OpenOk content)) w)) as (new & Hn & Hq).
    destruct (scanLoop _ _ _) as [m w1]. simpl in *. subst w1.
    eexists (_ :: new).
    split; [unfold extend, record; simpl; by rewrite <- app_assoc|by constructor].
  - eexists [_; _].
    split; [unfold log_Printf, emit, ret, record, extend; simpl;
            by rewrite <- app_assoc|by repeat constructor].
Qed.

(** X3.  When the log cannot be opened, or none of its lines holds a query,
    extractSearchTerms returns the nil slice, and StartScraping then only
    reports that there is nothing to do: it sends no statement to the store,
    no web request and no request to the engine, and changes no table. *)
Theorem StartScraping_nothing_to_do (E : Environment) logPath w :
  (∀ line, line ∈ log_lines E w logPath →
           QueryRegexp.FindStringSubmatch line = None) →
  (extractSearchTerms E logPath w).1 = None
  ∧ ∃ new, StartScraping E logPath w = (tt, extend w new)
           ∧ Forall (λ e, is_request e = false) new
           ∧ last new = Some (EvPrint ("No search terms found." +:+ nl)).
Proof.
  intros Hno.
  assert (Hnil : (extractSearchTerms E logPath w).1 = None).
  { rewrite extractSearchTerms_of_map.
    replace (scanLoop (log_lines E w logPath) ∅ w).1 with (∅ : gmap string bool);
      [done|].
    apply map_eq. intros t. rewrite lookup_empty.
    destruct (scanLoop_lookup (log_lines E w logPath) w t) as [H1 [N1|S1]];
      [done|].
    apply H1 in S1 as (l & r & Hl & Hr & _). rewrite (Hno l Hl) in Hr. done. }
  split; [exact Hnil|].
  unfold StartScraping, bind.
  destruct (extractSearchTerms_quiet E logPath w) as (new & Hn & Hq).
  destruct (extractSearchTerms E logPath w) as [terms w0]. simpl in *.
  subst terms w0. cbn. unfold fmt_Printf, emit.
  exists (new ++ [EvPrint ("No search terms found." +:+ nl)]).
  split; [|split].
  - unfold record, extend. simpl. by rewrite <- app_assoc.
  - apply Forall_app. split; [done|]. by repeat constructor.
  - apply last_snoc.
Qed.

(** ** Ingestion run, continued *)

Lemma upsert_row_prefix r rows :
  (URL <$> rows) `prefix_of` (URL <$> upsert_row r rows).
Proof.
  rewrite upsert_row_urls. case_decide; [done|]. by apply prefix_app_r.
Qed.

Lemma upsert_row_elem r rows : URL r ∈ URL <$> upsert_row r rows.
Proof.
  rewrite upsert_row_urls. case_decide; [done|].
  apply elem_of_app. right. by left.
Qed.

Lemma upsert_row_valid r rows :
  valid_row r → Forall valid_row rows → Forall valid_row (upsert_row r rows).
Proof.
  intros Hr Hrows. induction rows as [|x rows IH]; simpl.
  - constructor; [exact Hr|constructor].
  - apply Forall_cons in Hrows as [Hx Hrows]. case_decide; constructor; auto.
Qed.

Section Ingestion.

Variable E : Environment.

(** The page that tryScrapeInLanguages returns without an error is what
    scrapeWikipedia made of a visit for one of the languages. *)
Lemma tryScrapeInLanguages_result term langs : ∀ w,
  let '(page, lang, err, w') := tryScrapeInLanguages E term langs w in
  err = None →
  lang ∈ langs
  ∧ ∃ h, let r := colly_Visit E h (lang +:+ ".wikipedia.org")
                    (buildWikipediaURL E term lang) in
         page = (scraped (buildWikipediaURL E term lang) lang r).1
         ∧ valid_hit (scraped (buildWikipediaURL E term lang) lang r) = true.
Proof.
  induction langs as [|lang rest IH]; intros w; [done|].
  cbn [tryScrapeInLanguages]. unfold bind at 1. unfold fmt_Printf, emit.
  unfold bind at 1. rewrite scrapeWikipedia_eq. cbv zeta.
  set (w1 := record _ w).
  set (r := colly_Visit E (trace w1) _ _).
  destruct (scraped (buildWikipediaURL E term lang) lang r) as [page err] eqn:Hs.
  change (is_nil err && negb (is_empty (Title page))) with (valid_hit (page, err)).
  destruct (valid_hit (page, err)) eqn:Hv.
  - unfold ret. intros _. split; [by left|]. exists (trace w1). fold r.
    rewrite Hs. done.
  - unfold bind at 1. unfold log_Printf, emit.
    match goal with |- context [tryScrapeInLanguages E term rest ?w3] =>
      specialize (IH w3); destruct (tryScrapeInLanguages E term rest w3)
        as [[[p l] e] w'] end.
    intros He. destruct (IH He) as [Hl Hh]. split; [by right|done].
Qed.

Lemma scraped_valid url lang r :
  valid_hit (scraped url lang r) = true → Title (scraped url lang r).1 ≠ EmptyString.
Proof.
  unfold valid_hit. intros [_ Ht]%andb_true_iff Hempty. rewrite Hempty in Ht. done.
Qed.

Lemma scrapeTerm_step term w : ingest_step E term w (scrapeTerm E term w).2.
Proof.
  unfold scrapeTerm. unfold bind at 1. rewrite alreadyProcessed_eq.
  match goal with |- context [bind (tryScrapeInLanguages E term ?ls) ?k] =>
    set (rest := bind (tryScrapeInLanguages E term ls) k) end.
  assert (Hgo : ∀ w0, pages w0 = pages w →
                      processed_searches w0 = processed_searches w →
                      es_index w0 = es_index w → esClient w0 = esClient w →
                      ingest_step E term w (rest w0).2).
  { intros w0 Hp Hl Hi Hc. subst rest. unfold bind at 1.
    assert (Hres := tryScrapeInLanguages_result term ["da"; "en"] w0).
    destruct (tryScrapeInLanguages_spec E term ["da"; "en"] w0) as (atts & new & H).
    destruct (tryScrapeInLanguages E term ["da"; "en"] w0) as [[[page lang] err] w1].
    destruct H as (-> & _).
    destruct err as [e|].
    { unfold ingest_step, log_Printf, emit. simpl.
      split; [done|]. split; [done|]. left. done. }
    destruct (Hres eq_refl) as [Hlang (h & Hpage & Hvalid)].
    unfold bind at 1.
    match goal with |- context [savePageToDBWithLang E page lang ?w1] =>
      assert (Heff := savePageToDBWithLang_effect E page lang w1);
      destruct (savePageToDBWithLang E page lang w1) as [serr w2] end.
    destruct Heff as (Hl2 & Hi2 & Hc2 & Hp2). simpl in Hl2, Hi2, Hc2, Hp2.
    destruct serr as [e|].
    { unfold ingest_step, log_Printf, emit. simpl.
      split; [congruence|]. split; [congruence|]. left. split; congruence. }
    destruct Hp2 as (Hp2 & Ht & Hu & Hcn).
    rewrite markAsProcessed_eq.
    assert (Hl' : lang = "da" ∨ lang = "en").
    { repeat (apply elem_of_cons in Hlang as [Hlang|Hlang]); auto.
      by apply elem_of_nil in Hlang. }
    assert (Hfetch : mkPage (URL page) (Title page) (Content page) lang
                       (time_Now E (trace w0 ++ new))
                     = fetched_row E term lang h (time_Now E (trace w0 ++ new))).
    { unfold fetched_row. cbv zeta. by rewrite <- Hpage. }
    assert (Hrow : valid_row (fetched_row E term lang h (time_Now E (trace w0 ++ new))))
      by (rewrite <- Hfetch; done).
    rewrite Hfetch in Hp2.
    destruct (db_fault E (trace w2) (InsertProcessed term));
      unfold ingest_step; simpl;
      (split; [congruence|]); (split; [congruence|]); right;
      exists lang, h, (time_Now E (trace w0 ++ new));
      (split; [exact Hl'|]); (split; [exact Hrow|]);
      (split; [congruence|]); [left|right]; congruence. }
  destruct (db_fault E (trace w) _) as [e|].
  - apply Hgo; done.
  - destruct (bool_decide _); [|apply Hgo; done].
    unfold ingest_step, fmt_Printf, emit. simpl.
    split; [done|]. split; [done|]. by left.
Qed.

Lemma ingest_run_refl terms w w' :
  es_index w' = es_index w → esClient w' = esClient w →
  pages w' = pages w → processed_searches w' = processed_searches w →
  ingest_run E terms w w'.
Proof.
  intros Hi Hc Hp Hl. unfold ingest_run. rewrite Hi, Hc, Hp, Hl.
  repeat split; try done. intros t Ht. by left.
Qed.

Lemma ingest_run_step terms t w1 w2 w3 :
  t ∈ terms →
  ingest_run E terms w1 w2 → ingest_step E t w2 w3 → ingest_run E terms w1 w3.
Proof.
  intros Hin (Hi & Hc & Hpre & Hnd & Hval & Hled) (Hi' & Hc' & Hstep).
  destruct Hstep as [[Hp Hl]|(lang & h & now & Hlang & Hrow & Hp & Hl)].
  - unfold ingest_run. rewrite Hi', Hc', Hp, Hl. done.
  - set (row := fetched_row E t lang h now) in *.
    assert (Hurl : URL row = buildWikipediaURL E t lang)
      by apply scraped_fields.
    assert (Hmono : ∀ u, u ∈ URL <$> pages w2 → u ∈ URL <$> pages w3).
    { intros u Hu. rewrite Hp. destruct (upsert_row_prefix row (pages w2)) as [k ->].
      apply elem_of_app. by left. }
    split; [congruence|]. split; [congruence|]. split; [|split; [|split]].
    + etrans; [exact Hpre|]. rewrite Hp. apply upsert_row_prefix.
    + intros H. rewrite Hp. apply upsert_row_NoDup. auto.
    + intros H. rewrite Hp. apply upsert_row_valid; auto.
    + intros t' Ht'.
      assert (Hold : t' ∈ processed_searches w2 →
                     t' ∈ processed_searches w1
                     ∨ t' ∈ terms
                       ∧ (buildWikipediaURL E t' "da" ∈ URL <$> pages w3
                          ∨ buildWikipediaURL E t' "en" ∈ URL <$> pages w3)).
      { intros H2. destruct (Hled t' H2) as [?|[? [?|?]]]; auto. }
      destruct Hl as [Hl|Hl]; rewrite Hl in Ht'; [by apply Hold|].
      unfold insert_term in Ht'. case_decide; [by apply Hold|].
      apply elem_of_app in Ht' as [Ht'|Ht']; [by apply Hold|].
      apply list_elem_of_singleton in Ht' as ->. right. split; [done|].
      assert (Hin3 : URL row ∈ URL <$> pages w3)
        by (rewrite Hp; apply upsert_row_elem).
      rewrite Hurl in Hin3. destruct Hlang as [-> | ->]; auto.
Qed.

Lemma forEach_scrapeTerm_run terms ts : ∀ w0 w,
  (∀ t, t ∈ ts → t ∈ terms) →
  ingest_run E terms w0 w →
  ingest_run E terms w0 (forEach ts (scrapeTerm E) w).2.
Proof.
  induction ts as [|t ts IH]; intros w0 w Hsub Hrun; [done|].
  simpl. unfold bind. assert (Hstep := scrapeTerm_step t w).
  destruct (scrapeTerm E t w) as [[] w1]. simpl in Hstep.
  apply IH; [intros ? ?; apply Hsub; by right|].
  eapply ingest_run_step; [|exact Hrun|exact Hstep]. apply Hsub. by left.
Qed.

Lemma StartScraping_run logPath w :
  ingest_run E (elems (extractSearchTerms E logPath w).1) w
    (StartScraping E logPath w).2.
Proof.
  unfold StartScraping, bind.
  destruct (extractSearchTerms_frame E logPath w) as [new Hn].
  destruct (extractSearchTerms E logPath w) as [terms w0]. simpl in *. subst w0.
  destruct (len terms =? 0)%nat.
  - by apply ingest_run_refl.
  - apply forEach_scrapeTerm_run; [done|]. by apply ingest_run_refl.
Qed.

End Ingestion.


(** X5.  If every page of the store has a url, a title and a content before
    an ingestion run, so does every page after it. *)
Theorem StartScraping_keeps_rows_valid (E : Environment) logPath w :
  Forall valid_row (pages w) →
  Forall valid_row (pages (StartScraping E logPath w).2).
Proof. apply (StartScraping_run E logPath w). Qed.

(** X6.  A term enters the ledger only with its page: every ledger row that
    an ingestion run adds is a term extracted from the log in that run, and
    after the run the store holds a row whose url is the one built for that
    term in Danish or in English. *)
Theorem StartScraping_marks_only_stored (E : Environment) logPath w t :
  t ∈ processed_searches (StartScraping E logPath w).2 →
  t ∉ processed_searches w →
  t ∈ elems (extractSearchTerms E logPath w).1
  ∧ (buildWikipediaURL E t "da" ∈ URL <$> pages (StartScraping E logPath w).2
     ∨ buildWikipediaURL E t "en" ∈ URL <$> pages (StartScraping E logPath w).2).
Proof.
  intros Hin Hnot.
  destruct (StartScraping_run E logPath w) as (_ & _ & _ & _ & _ & Hled).
  destruct (Hled t Hin) as [?|?]; done.
Qed.

Lemma forEach_scrapeTerm_idle (E : Environment) ts : ∀ w,
  (∀ t w0, pages (scrapeTerm E t w0).2 = pages w0
           ∧ processed_searches (scrapeTerm E t w0).2 = processed_searches w0) →
  pages (forEach ts (scrapeTerm E) w).2 = pages w
  ∧ processed_searches (forEach ts (scrapeTerm E) w).2 = processed_searches w.
Proof.
  induction ts as [|t ts IH]; intros w Hidle; [done|].
  simpl. unfold bind. destruct (Hidle t w) as [Hp Hl].
  destruct (scrapeTerm E t w) as [[] w1]. simpl in *.
  destruct (IH w1 Hidle) as [-> ->]. done.
Qed.

(** X7.  The resolver accepts a page on its title alone, the store wants a
    content too: when the pages that the site serves carry no paragraph
    text, an ingestion run stores nothing and marks nothing, whatever their
    titles (so the same terms are fetched again by the next run). *)
Theorem StartScraping_needs_content (E : Environment) logPath w :
  (∀ h lang url,
     Content (scraped url lang (colly_Visit E h (lang +:+ ".wikipedia.org") url)).1
     = EmptyString) →
  pages (StartScraping E logPath w).2 = pages w
  ∧ processed_searches (StartScraping E logPath w).2 = processed_searches w.
Proof.
  intros Hempty.
  assert (Hidle : ∀ t w0,
            pages (scrapeTerm E t w0).2 = pages w0
            ∧ processed_searches (scrapeTerm E t w0).2 = processed_searches w0).
  { intros t w0. destruct (scrapeTerm_step E t w0) as (_ & _ & [H|H]); [done|].
    destruct H as (lang & h & now & _ & (_ & _ & Hc) & _).
    exfalso. apply Hc. unfold fetched_row. simpl. apply Hempty. }
  unfold StartScraping, bind.
  destruct (extractSearchTerms_frame E logPath w) as [new Hn].
  destruct (extractSearchTerms E logPath w) as [terms w0]. simpl in *. subst w0.
  destruct (len terms =? 0)%nat; [done|].
  destruct (forEach_scrapeTerm_idle E (elems terms) (extend w new) Hidle) as [-> ->].
  done.
Qed.

Lemma buildWikipediaURL_not_empty (E : Environment) term lang :
  is_empty (buildWikipediaURL E term lang) = false.
Proof. reflexivity. Qed.

(** X8.  A term that is not in the ledger, a Danish article that is served
    with a heading and some text, a store that answers: one turn of the loop
    of StartScraping makes a single web request, stores the Danish page
    under the url built for the term, and records the term in the ledger. *)
Theorem scrapeTerm_ingests (E : Environment) t w :
  t ∉ processed_searches w →
  (∀ h q, db_fault E h q = None) →
  (∀ h, let page := (scraped (buildWikipediaURL E t "da") "da"
                       (colly_Visit E h "da.wikipedia.org"
                          (buildWikipediaURL E t "da"))).1 in
        valid_hit (scraped (buildWikipediaURL E t "da") "da"
                     (colly_Visit E h "da.wikipedia.org"
                        (buildWikipediaURL E t "da"))) = true
        ∧ Content page ≠ EmptyString) →
  ∃ new h now,
    trace (scrapeTerm E t w).2 = trace w ++ new
    ∧ visits new = [EvVisit "da.wikipedia.org" (buildWikipediaURL E t "da")
                      (colly_Visit E h "da.wikipedia.org" (buildWikipediaURL E t "da"))]
    ∧ pages (scrapeTerm E t w).2 = upsert_row (fetched_row E t "da" h now) (pages w)
    ∧ processed_searches (scrapeTerm E t w).2 = processed_searches w ++ [t].
Proof.
  intros Hfresh Hdb Hda.
  enough (Heq : ∃ new h now,
            scrapeTerm E t w
            = (tt, mkWorld (trace w ++ new)
                     (upsert_row (fetched_row E t "da" h now) (pages w))
                     (processed_searches w ++ [t]) (es_index w) (esClient w))
            ∧ visits new
              = [EvVisit "da.wikipedia.org" (buildWikipediaURL E t "da")
                   (colly_Visit E h "da.wikipedia.org" (buildWikipediaURL E t "da"))]).
  { destruct Heq as (new & h & now & -> & Hv). by exists new, h, now. }
  unfold scrapeTerm. unfold bind at 1. rewrite alreadyProcessed_eq, Hdb.
  rewrite bool_decide_eq_false_2 by done.
  unfold bind at 1. cbn [tryScrapeInLanguages].
  unfold bind at 1. unfold fmt_Printf, emit.
  unfold bind at 1. rewrite scrapeWikipedia_eq. cbv zeta.
  change ("da" +:+ ".wikipedia.org") with "da.wikipedia.org".
  match goal with |- context [colly_Visit E ?h0 "da.wikipedia.org" _] =>
    set (h := h0) end.
  destruct (Hda h) as [Hvalid Hcontent]. cbv zeta in Hcontent.
  set (u := buildWikipediaURL E t "da") in *.
  set (r := colly_Visit E h "da.wikipedia.org" u) in *.
  destruct (scraped u "da" r) as [page err] eqn:Hs.
  change (is_nil err && negb (is_empty (Title page))) with (valid_hit (page, err)).
  rewrite Hvalid. unfold ret at 1.
  assert (Herr : err = None).
  { unfold valid_hit in Hvalid. simpl in Hvalid. by destruct err. }
  subst err. unfold bind at 1. unfold savePageToDBWithLang.
  assert (Hurl : URL page = u).
  { assert (H := scraped_fields u "da" r). rewrite Hs in H. apply H. }
  assert (Ht : is_empty (Title page) = false).
  { unfold valid_hit in Hvalid. simpl in Hvalid. by apply negb_true_iff in Hvalid. }
  assert (Hc : is_empty (Content page) = false).
  { simpl in Hcontent. by destruct (Content page). }
  rewrite Ht, Hc, Hurl. subst u. rewrite buildWikipediaURL_not_empty.
  cbn [orb]. unfold bind at 1. unfold db_call at 1. rewrite Hdb.
  cbn [db_reject db_effect]. unfold bind at 1. unfold log_Printf, emit, ret.
  rewrite markAsProcessed_eq, Hdb. cbn [snd].
  unfold insert_term. rewrite decide_False by done.
  eexists _, h, _. split.
  - unfold setProcessed, extend, setPages, record.
    cbn [trace pages processed_searches es_index esClient].
    rewrite <- !app_assoc. unfold fetched_row. cbv zeta.
    change ("da" +:+ ".wikipedia.org") with "da.wikipedia.org". fold r.
    rewrite Hs. cbn [fst]. rewrite Hurl. reflexivity.
  - reflexivity.
Qed.

(** X9.  Marking and looking up go together: when neither statement fails,
    a term that has just been marked is reported as processed; marking it
    once more leaves the ledger as it is; a term that was not in the ledger
    is added as its last row, and no other table changes. *)
Theorem markAsProcessed_then_alreadyProcessed (E : Environment) t w :
  db_fault E (trace w) (InsertProcessed t) = None →
  let w1 := (markAsProcessed E t w).2 in
  db_fault E (trace w1) (SelectProcessedExists t) = None →
  (alreadyProcessed E t w1).1 = true
  ∧ processed_searches (markAsProcessed E t w1).2 = processed_searches w1
  ∧ (t ∉ processed_searches w → processed_searches w1 = processed_searches w ++ [t])
  ∧ pages w1 = pages w ∧ es_index w1 = es_index w.
Proof.
  intros Hins w1 Hsel. subst w1. rewrite markAsProcessed_eq, Hins in *.
  cbn [snd] in *. rewrite alreadyProcessed_eq, Hsel. cbn [fst].
  assert (Hin : t ∈ insert_term t (processed_searches w)).
  { unfold insert_term. case_decide; [done|]. apply elem_of_app. right. by left. }
  split; [apply bool_decide_eq_true_2; exact Hin|].
  split; [|split; [|split; reflexivity]].
  - rewrite markAsProcessed_eq.
    set (l1 := insert_term t (processed_searches w)) in *.
    match goal with |- context [db_fault E ?h (InsertProcessed t)] =>
      destruct (db_fault E h (InsertProcessed t)) end; [done|].
    cbn [snd processed_searches setProcessed extend].
    unfold insert_term. rewrite decide_True by exact Hin. reflexivity.
  - intros Hfresh. simpl. unfold insert_term. by rewrite decide_False.
Qed.

(** ** Page Store and Query Dispatcher, continued *)

(** X10.  An upsert of a url that the table does not hold yet adds the page
    as the last row and leaves the rows before it as they were.  An upsert
    that the store refuses returns an error that carries the store's
    message, and changes no table. *)
Theorem savePageToDBWithLang_insert_or_fail (E : Environment) page lang w :
  (∀ w', URL page ∉ URL <$> pages w →
         savePageToDBWithLang E page lang w = (None, w') →
         pages w' = pages w ++ [mkPage (URL page) (Title page) (Content page)
                                  lang (time_Now E (trace w))])
  ∧ (∀ e, valid_row page →
          db_fault E (trace w)
            (UpsertPage (URL page) (Title page) (Content page) lang) = Some e →
          let '(err, w') := savePageToDBWithLang E page lang w in
          err = Some ("error inserting or updating page: " +:+ e)
          ∧ pages w' = pages w
          ∧ processed_searches w' = processed_searches w
          ∧ es_index w' = es_index w).
Proof.
  split.
  - intros w' Hfresh Hs.
    assert (H := savePageToDBWithLang_effect E page lang w). rewrite Hs in H.
    destruct H as (_ & _ & _ & -> & _). by apply upsert_row_fresh.
  - intros e (Hu & Ht & Hc) Hf. unfold savePageToDBWithLang.
    destruct (Title page); [done|]. destruct (URL page); [done|].
    destruct (Content page); [done|]. cbn [is_empty orb].
    unfold bind, db_call. rewrite Hf. done.
Qed.

Lemma Contains_empty s : Contains s EmptyString = true.
Proof. by destruct s. Qed.


Lemma sublist_filter_fmap {A B} (f : A → B) (P : A → Prop)
    `{∀ x, Decision (P x)} (l : list A) :
  (f <$> filter P l) `sublist_of` (f <$> l).
Proof.
  induction l as [|x l IH]; [done|].
  rewrite filter_cons. case_decide; rewrite !fmap_cons.
  - by apply sublist_skip.
  - by apply sublist_cons.
Qed.

(** X12.  The fallback search never makes up a page: its results are rows
    of the table, in the order of the table, each at most once per row, so
    never more results than rows; and the empty query selects every
    row. *)
Theorem searchPagesInEs_fallback_sublist (E : Environment) query w :
  esClient w = false →
  elems (searchPagesInEs E query w).1.1 `sublist_of` (scanned <$> pages w)
  ∧ (length (elems (searchPagesInEs E query w).1.1) ≤ length (pages w))%nat
  ∧ (query = EmptyString →
     db_fault E (trace w) (SelectPagesLike ("%" +:+ query +:+ "%")) = None →
     elems (searchPagesInEs E query w).1.1 = scanned <$> pages w).
Proof.
  intros Hc. rewrite searchPagesInEs_fallback_eq by done. cbv zeta.
  assert (Hsub : elems (match db_fault E (trace w)
                                (SelectPagesLike ("%" +:+ query +:+ "%")) with
                        | Some e => (None, Some e,
                                     extend w [EvDb (SelectPagesLike
                                                 ("%" +:+ query +:+ "%")) (Some e)])
                        | None => (foldl (λ pages row, append pages (scanned row)) None
                                     (select_like ("%" +:+ query +:+ "%") (pages w)),
                                   None,
                                   extend w [EvDb (SelectPagesLike
                                               ("%" +:+ query +:+ "%")) None])
                        end).1.1 `sublist_of` (scanned <$> pages w)).
  { destruct (db_fault E (trace w) _); cbn [fst].
    - apply sublist_nil_l.
    - rewrite elems_foldl_scanned. apply sublist_filter_fmap. }
  split; [exact Hsub|]. split.
  - apply sublist_length in Hsub. by rewrite length_fmap in Hsub.
  - intros -> Hf. rewrite Hf. cbn [fst].
    rewrite elems_foldl_scanned, (select_like_contains EmptyString) by constructor.
    f_equal. apply filter_all. apply Forall_forall. intros r _. apply Contains_empty.
Qed.

(** X13.  A search only reads.  It adds one request to the history and
    changes no table; with a client that request goes to the engine and
    never to the store, also when the engine fails (the error is returned
    with a nil result, the store is not tried instead); the hits of the
    engine are returned as they come, in its order. *)
Theorem searchPagesInEs_read_only (E : Environment) query w :
  (∃ e, (searchPagesInEs E query w).2 = extend w [e] ∧ is_request e = true)
  ∧ (esClient w = true →
     let reply := es_search E (trace w) (es_index w) (search_body query) in
     (searchPagesInEs E query w).2 = extend w [EvSearch (search_body query) reply]
     ∧ (∀ hits, reply = SearchHits hits →
                elems (searchPagesInEs E query w).1.1 = hits
                ∧ (searchPagesInEs E query w).1.2 = None)
     ∧ (∀ e, reply = SearchErr e ∨ reply = SearchUndecodable e →
             (searchPagesInEs E query w).1 = (None, Some e))).
Proof.
  split.
  - destruct (esClient w) eqn:Hc.
    + rewrite searchPagesInEs_engine_eq by done. by eexists.
    + rewrite searchPagesInEs_fallback_eq by done. cbv zeta.
      destruct (db_fault E (trace w) _); by eexists.
  - intros Hc reply. rewrite searchPagesInEs_engine_eq by done. cbv zeta.
    fold reply. split; [done|]. split.
    + intros hits ->. cbn [fst snd]. by rewrite elems_foldl_append_nil.
    + intros e [-> | ->]; done.
Qed.

(** ** Index Synchronizer, continued *)

Section SyncIndex.

Variable E : Environment.

Lemma createAndLoad_error_index w e w' :
  createAndLoad E w = (Return (Some e), w') →
  es_index w' = es_index w ∨ es_index w' = Some [].
Proof.
  unfold createAndLoad. unfold bind at 1. unfold es_call at 1.
  destruct (es_fault E (trace w) (EsCreate mappings)) as [[m|n b]|].
  - unfold ret. intros [= _ <-]. by left.
  - rewrite IsError_fault. unfold ret. intros [= _ <-]. by left.
  - destruct (es_index w) as [docs|] eqn:Hix; cbn [es_apply]; cbv iota beta.
    + change (IsError 400) with true. cbv iota. unfold ret.
      intros [= _ <-]. left. done.
    + change (IsError 200) with false. cbv iota.
      unfold bind at 1. unfold db_call at 1. cbn [db_reject].
      match goal with |- context [db_fault E ?h SelectPages] =>
        destruct (db_fault E h SelectPages) as [m|] end.
      * unfold ret. intros [= _ <-]. by right.
      * cbn [db_effect]. unfold bind at 1. unfold gets at 1. unfold bind at 1.
        match goal with |- context [indexLoop E ?rows 0 ?w1] =>
          destruct (indexLoop E rows 0 w1) as [count w2] end.
        unfold bind, log_Printf, emit, ret. intros [=].
Qed.

End SyncIndex.

(** X14.  syncPagesToElasticsearch never writes to the relational store:
    the pages table and the ledger are the same after the run as before,
    whatever happens.  And a run that returns an error never leaves a
    half-loaded index: the index is then as it was before the run, or
    absent, or empty. *)
Theorem syncPagesToElasticsearch_on_error (E : Environment) w :
  esClient w = true →
  let '(res, w') := syncPagesToElasticsearch E w in
  pages w' = pages w ∧ processed_searches w' = processed_searches w
  ∧ esClient w' = esClient w
  ∧ (∀ e, res = Return (Some e) →
          es_index w' = es_index w ∨ es_index w' = None ∨ es_index w' = Some []).
Proof.
  intros Hc.
  destruct (syncPagesToElasticsearch_spec E w Hc) as (res0 & new & ix & Heq & _).
  assert (Hix : ∀ res w' e, syncPagesToElasticsearch E w = (res, w') →
                            res = Return (Some e) →
                            es_index w' = es_index w ∨ es_index w' = None
                            ∨ es_index w' = Some []).
  { clear Heq. intros res w' e. unfold syncPagesToElasticsearch.
    unfold bind at 1. unfold gets at 1.
    replace (negb (esClient w)) with false by (by rewrite Hc).
    unfold bind at 1. unfold es_call at 1.
    destruct (es_fault E (trace w) EsExists) as [[m|n b]|].
    - unfold ret. intros [= <- <-] _. by left.
    - unfold bind at 1. unfold deleteIfExists.
      replace (400 + Z.of_nat n =? 200) with false
        by (symmetry; apply Z.eqb_neq; lia).
      unfold ret at 1. intros Hrun ->.
      apply createAndLoad_error_index in Hrun as [->| ->]; auto.
    - destruct (es_index w) as [docs|] eqn:Hi; cbn [es_apply]; cbv iota beta.
      + unfold bind at 1. unfold deleteIfExists. change (200 =? 200) with true.
        cbv iota. unfold bind at 1. unfold log_Printf, emit.
        unfold bind at 1. unfold es_call at 1.
        match goal with |- context [es_fault E ?h EsDelete] =>
          destruct (es_fault E h EsDelete) as [[m|n b]|] end.
        * unfold ret. intros [= <- <-] _. left. done.
        * rewrite IsError_fault. unfold ret. intros [= <- <-] _. left. done.
        * cbn [es_index record setIndex es_apply]. cbv iota beta.
          change (IsError 200) with false. cbv iota. unfold ret at 1.
          intros Hrun ->.
          apply createAndLoad_error_index in Hrun as [->| ->]; auto.
      + unfold bind at 1. unfold deleteIfExists. change (404 =? 200) with false.
        cbv iota. unfold ret at 1. intros Hrun ->.
        apply createAndLoad_error_index in Hrun as [->| ->]; auto. }
  destruct (syncPagesToElasticsearch E w) as [res w'] eqn:Hrun.
  injection Heq as -> ->. cbn [pages processed_searches esClient].
  repeat split; try done. intros e He. exact (Hix _ _ e eq_refl He).
Qed.

Lemma accepted_length_le E rows : ∀ outs,
  (length (accepted E rows outs) ≤ length rows)%nat.
Proof.
  induction rows as [|row rows IH]; intros [|o outs]; simpl; try lia.
  unfold accepted in *. cbn [zip_with concat]. rewrite length_app.
  specialize (IH outs). destruct (reply_failed o.2); simpl; lia.
Qed.

Lemma accepted_all E rows : ∀ outs,
  length (accepted E rows outs) = length rows →
  (λ d, (doc_title d, doc_url d, doc_content d, doc_language d)) <$> accepted E rows outs
  = (λ r, (Title r, URL r, Content r, EmptyString)) <$> rows.
Proof.
  induction rows as [|row rows IH]; intros [|o outs]; try done.
  unfold accepted in *. cbn [zip_with concat]. rewrite length_app.
  assert (Hle := accepted_length_le E rows outs). unfold accepted in Hle.
  destruct (reply_failed o.2); simpl; intros Hlen; [lia|].
  f_equal. apply IH. lia.
Qed.

(** X15.  A sync rebuilds, it does not add: when no call fails, the index
    after a run holds one document per row, with the title, url and content
    of the row and an empty language, in the order of the table; and a
    second run right after it leaves an index with the same documents in
    these fields, not twice as many. *)
Theorem syncPagesToElasticsearch_rebuilds (E : Environment) w :
  esClient w = true →
  (∀ h q, es_fault E h q = None) →
  (∀ h, db_fault E h SelectPages = None) →
  let key := λ d, (doc_title d, doc_url d, doc_content d, doc_language d) in
  ∃ w1 w2 docs1 docs2,
    syncPagesToElasticsearch E w = (Return None, w1)
    ∧ syncPagesToElasticsearch E w1 = (Return None, w2)
    ∧ es_index w1 = Some docs1 ∧ es_index w2 = Some docs2
    ∧ key <$> docs1 = (λ r, (Title r, URL r, Content r, EmptyString)) <$> pages w
    ∧ key <$> docs2 = key <$> docs1.
Proof.
  intros Hc Hes Hdb key.
  assert (Hone : ∀ w0, esClient w0 = true →
            ∃ w' docs, syncPagesToElasticsearch E w0 = (Return None, w')
                       ∧ es_index w' = Some docs
                       ∧ pages w' = pages w0 ∧ esClient w' = true
                       ∧ key <$> docs
                         = (λ r, (Title r, URL r, Content r, EmptyString)) <$> pages w0).
  { intros w0 Hc0.
    destruct (syncPagesToElasticsearch_nofault E Hes Hdb w0 Hc0)
      as (w' & docs & Hrun & Hix & Hlen).
    destruct (syncPagesToElasticsearch_spec E w0 Hc0) as (res & new & ix & Heq & Hsr).
    rewrite Hrun in Heq. injection Heq as <- ->.
    destruct (sync_run_requests E w0 _ new ix Hsr eq_refl)
      as (outs & Hl & _ & _ & -> & _).
    cbn [es_index] in Hix. injection Hix as <-.
    exists (mkWorld (trace w0 ++ new) (pages w0) (processed_searches w0)
              (Some (accepted E (pages w0) outs)) (esClient w0)), (accepted E (pages w0) outs).
    repeat split; try done. by apply accepted_all. }
  destruct (Hone w Hc) as (w1 & docs1 & Hr1 & Hi1 & Hp1 & Hc1 & Hk1).
  destruct (Hone w1 Hc1) as (w2 & docs2 & Hr2 & Hi2 & Hp2 & _ & Hk2).
  exists w1, w2, docs1, docs2. repeat split; try done.
  by rewrite Hk2, Hp1, Hk1.
Qed.

(** * The callers: the scraping job, the search handler, initElasticsearch *)

(** ** The scraping job *)

Lemma syncPagesToElasticsearch_tables (E : Environment) w :
  let w' := (syncPagesToElasticsearch E w).2 in
  pages w' = pages w ∧ processed_searches w' = processed_searches w
  ∧ esClient w' = esClient w.
Proof.
  destruct (esClient w) eqn:Hc.
  - destruct (syncPagesToElasticsearch_spec E w Hc) as (res & new & ix & -> & _).
    by rewrite Hc.
  - unfold syncPagesToElasticsearch, bind, gets. rewrite Hc. done.
Qed.

Lemma syncPagesToElasticsearch_nil_client (E : Environment) w :
  esClient w = false → syncPagesToElasticsearch E w = (Panic, w).
Proof. intros Hc. unfold syncPagesToElasticsearch, bind, gets. by rewrite Hc. Qed.

Lemma syncPagesToElasticsearch_returns (E : Environment) w :
  esClient w = true → ∃ r, (syncPagesToElasticsearch E w).1 = Return r.
Proof.
  intros Hc.
  destruct (syncPagesToElasticsearch_spec E w Hc) as (res & new & ix & -> & Hrun).
  simpl. destruct Hrun; eauto.
Qed.

Lemma extend_nil w : extend w [] = w.
Proof. unfold extend. destruct w; simpl. by rewrite app_nil_r. Qed.

Section Job.

Variable H : Host.
Variable E : Environment.

(** The job, as a scraping run between two counts and a decision. *)
Lemma scrapeJob_cases w :
  ∃ pre mid cb ca msg,
    let ws :=
      (StartScraping E
         (if is_empty (os_Getenv H "SEARCH_LOG_PATH") then "search.log"
          else os_Getenv H "SEARCH_LOG_PATH")
         (extend w pre)).2 in
    let w3 := extend ws mid in
    0 ≤ cb
    ∧ ((∀ h, count_fault H h = None) →
       cb = Z.of_nat (length (pages w)) ∧ ca = Z.of_nat (length (pages ws)))
    ∧ ((∀ h, is_Some (count_fault H h)) → ca = 0)
    ∧ scrapeJob H E w =
      if cb <? ca
      then
        let '(r, wsync) := syncPagesToElasticsearch E (record (EvLog msg) w3) in
        match r with
        | Panic => (Panic, wsync)
        | Return r' =>
            (Return tt,
             record (EvLog match r' with
                           | Some e => "Error syncing to Elasticsearch: " +:+ e
                           | None => "Synced scraped pages to Elasticsearch successfully."
                           end) wsync)
        end
      else (Return tt,
            record (EvLog "No new pages added. Skipping Elasticsearch sync.") w3).
Proof.
  set (path := if is_empty _ then _ else _).
  set (m1 := "Cron job: Running Wikipedia scraper at "
             +:+ Time_String H (time_Now E (trace w)) +:+ nl).
  pose (w1 := record (EvPrint m1) w).
  pose (pre := EvPrint m1 ::
               match count_fault H (trace w1) with
               | Some e => [EvLog ("Error getting page count before scraping: " +:+ e)]
               | None => []
               end).
  pose (cb := match count_fault H (trace w1) with
              | Some _ => 0
              | None => Z.of_nat (length (pages w))
              end).
  pose (ws := (StartScraping E path (extend w pre)).2).
  pose (mid := match count_fault H (trace ws) with
               | Some e => [EvLog ("Error getting page count after scraping: " +:+ e)]
               | None => []
               end).
  pose (ca := match count_fault H (trace ws) with
              | Some _ => 0
              | None => Z.of_nat (length (pages ws))
              end).
  exists pre, mid, cb, ca,
    ("New pages added (" +:+ pretty cb +:+ " -> " +:+ pretty ca
     +:+ "). Syncing to Elasticsearch.").
  cbv zeta. fold ws. split; [|split; [|split]].
  - unfold cb. destruct (count_fault H (trace w1)); lia.
  - intros Hok. unfold cb, ca. by rewrite !Hok.
  - intros Hbad. unfold ca. by destruct (Hbad (trace ws)) as [? ->].
  - unfold scrapeJob. unfold bind at 1. unfold now at 1.
    unfold bind at 1. unfold fmt_Printf at 1, emit at 1.
    fold path. fold m1. fold w1.
    unfold bind at 1. unfold countPages at 1.
    assert (Hpre : (match count_fault H (trace w1) with
                    | Some e =>
                        log_Printf ("Error getting page count before scraping: " +:+ e)
                    | None => ret tt
                    end) w1 = (tt, extend w pre)).
    { unfold pre. destruct (count_fault H (trace w1)); unfold log_Printf, emit, ret.
      - f_equal. unfold w1, record, extend. simpl. by rewrite <- app_assoc.
      - done. }
    assert (Hmid : (match count_fault H (trace ws) with
                    | Some e =>
                        log_Printf ("Error getting page count after scraping: " +:+ e)
                    | None => ret tt
                    end) ws = (tt, extend ws mid)).
    { unfold mid. destruct (count_fault H (trace ws)); unfold log_Printf, emit, ret.
      - done.
      - by rewrite extend_nil. }
    assert (Hrest : ∀ wx,
      (if cb <? ca
       then
        log_Printf
          ("New pages added (" +:+ pretty cb +:+ " -> " +:+ pretty ca
           +:+ "). Syncing to Elasticsearch.");;;
        res <- syncPagesToElasticsearch E;;
        match res with
        | Panic => ret Panic
        | Return (Some e) =>
            log_Printf ("Error syncing to Elasticsearch: " +:+ e);;; ret (Return ())
        | Return None =>
            log_Printf "Synced scraped pages to Elasticsearch successfully.";;;
            ret (Return ())
        end
       else
        log_Printf "No new pages added. Skipping Elasticsearch sync.";;;
        ret (Return ())) wx
      = if cb <? ca
        then
          let '(r, wsync) :=
            syncPagesToElasticsearch E
              (record (EvLog ("New pages added (" +:+ pretty cb +:+ " -> "
                              +:+ pretty ca +:+ "). Syncing to Elasticsearch.")) wx) in
          match r with
          | Panic => (Panic, wsync)
          | Return r' =>
              (Return tt,
               record (EvLog match r' with
                             | Some e => "Error syncing to Elasticsearch: " +:+ e
                             | None => "Synced scraped pages to Elasticsearch successfully."
                             end) wsync)
          end
        else (Return tt,
              record (EvLog "No new pages added. Skipping Elasticsearch sync.") wx)).
    { intros wx. destruct (cb <? ca).
      - unfold bind at 1. unfold log_Printf at 1, emit at 1. unfold bind at 1.
        destruct (syncPagesToElasticsearch E _) as [[|[e'|]] wsync];
          unfold bind, log_Printf, emit, ret; done.
      - unfold bind, log_Printf, emit, ret. done. }
    rewrite <- Hrest. clear Hrest.
    destruct (count_fault H (trace w1)) as [e|] eqn:Hcf; cbv iota beta;
      unfold bind at 1; rewrite Hpre; unfold bind at 1; fold ws;
      destruct (StartScraping E path (extend w pre)) as [[] ws'] eqn:Hss;
      subst ws; cbn [snd] in *; unfold bind at 1; unfold countPages at 1;
      destruct (count_fault H (trace ws')) as [e2|] eqn:Hcf2; cbv iota beta;
      unfold bind at 1; rewrite Hmid; done.
Qed.

End Job.


(** X16.  The job rebuilds the search index only when the pages table has
    grown.  When the counts can be read and the table is no longer after the
    job than before, the job ends normally with the index and the client as
    they were, and its last log line says that the synchronization was
    skipped: a page that was only fetched again and overwritten is not
    copied to the index by this job. *)
Theorem scrapeJob_skips_sync (H : Host) (E : Environment) w :
  (∀ h, count_fault H h = None) →
  let '(res, w') := scrapeJob H E w in
  (length (pages w') ≤ length (pages w))%nat →
  res = Return tt ∧ es_index w' = es_index w ∧ esClient w' = esClient w
  ∧ last (trace w')
    = Some (EvLog "No new pages added. Skipping Elasticsearch sync.").
Proof.
  intros Hok.
  destruct (scrapeJob_cases H E w) as (pre & mid & cb & ca & msg & _ & Hc & _ & ->).
  destruct (Hc Hok) as [-> ->]. clear Hc.
  set (path := if is_empty _ then _ else _).
  destruct (StartScraping_run E path (extend w pre)) as (Hi & Hcl & Hpre & _).
  set (ws := (StartScraping E path (extend w pre)).2) in *.
  destruct (_ <? _) eqn:Hlt.
  - apply Z.ltb_lt in Hlt.
    assert (Ht := syncPagesToElasticsearch_tables E (record (EvLog msg) (extend ws mid))).
    destruct (syncPagesToElasticsearch E _) as [r wsync]. cbn [snd] in Ht.
    destruct Ht as (Hp & _). cbn [pages record extend] in Hp.
    destruct r as [|r']; cbn [pages record]; rewrite Hp; lia.
  - intros _. cbn [es_index esClient record extend] in *.
    rewrite Hi, Hcl. repeat split; try done. apply last_snoc.
Qed.

(** X17.  When the counts can be read and the job has made the pages table
    longer, the job goes on to the synchronizer: without a client it
    panics, with the index as it was; with a client it ends normally, and
    if neither the engine nor the reading of the pages fails, the index
    holds one document for each page of the table when the job ends. *)
Theorem scrapeJob_syncs_new_pages (H : Host) (E : Environment) w :
  (∀ h, count_fault H h = None) →
  let '(res, w') := scrapeJob H E w in
  (length (pages w) < length (pages w'))%nat →
  (esClient w = false → res = Panic ∧ es_index w' = es_index w)
  ∧ (esClient w = true → res = Return tt)
  ∧ (esClient w = true →
     (∀ h q, es_fault E h q = None) →
     (∀ h, db_fault E h SelectPages = None) →
     ∃ docs, es_index w' = Some docs ∧ length docs = length (pages w')).
Proof.
  intros Hok.
  destruct (scrapeJob_cases H E w) as (pre & mid & cb & ca & msg & _ & Hc & _ & ->).
  destruct (Hc Hok) as [-> ->]. clear Hc.
  set (path := if is_empty _ then _ else _).
  destruct (StartScraping_run E path (extend w pre)) as (Hi & Hcl & Hpre & _).
  set (ws := (StartScraping E path (extend w pre)).2) in *.
  cbn [es_index esClient extend] in Hi, Hcl.
  destruct (_ <? _) eqn:Hlt.
  - set (w3 := record (EvLog msg) (extend ws mid)).
    assert (Hc3 : esClient w3 = esClient w) by done.
    assert (Hi3 : es_index w3 = es_index w) by done.
    assert (Hp3 : pages w3 = pages ws) by done.
    assert (Ht := syncPagesToElasticsearch_tables E w3).
    assert (Hnil := syncPagesToElasticsearch_nil_client E w3).
    assert (Hret := syncPagesToElasticsearch_returns E w3).
    assert (Hnf := λ es_ok db_ok, syncPagesToElasticsearch_nofault E es_ok db_ok w3).
    fold w3. destruct (syncPagesToElasticsearch E w3) as [r wsync].
    cbn [fst snd] in *. destruct Ht as (Hp & _).
    assert (Hgoal : (esClient w = false → r = Panic ∧ es_index wsync = es_index w)
                    ∧ (esClient w = true → ∃ r', r = Return r')
                    ∧ (esClient w = true →
                       (∀ h q, es_fault E h q = None) →
                       (∀ h, db_fault E h SelectPages = None) →
                       ∃ docs, es_index wsync = Some docs
                               ∧ length docs = length (pages wsync))).
    { split; [|split].
      - intros Hcli. rewrite Hc3, Hcli in Hnil. injection (Hnil eq_refl) as -> ->.
        split; [done|exact Hi3].
      - intros Hcli. rewrite Hc3, Hcli in Hret. exact (Hret eq_refl).
      - intros Hcli es_ok db_ok. rewrite Hc3, Hcli in Hnf.
        destruct (Hnf es_ok db_ok eq_refl) as (w' & docs & [= -> ->] & Hix & Hlen).
        exists docs. split; [done|]. by rewrite Hp. }
    clear Hnil Hret Hnf. destruct Hgoal as (G1 & G2 & G3).
    destruct r as [|r']; intros _; cbn [es_index pages record].
    + split; [intros Hcli; by destruct (G1 Hcli)|]. split; [|exact G3].
      intros Hcli. destruct (G2 Hcli) as [? ?]. done.
    + split; [|split; [done|exact G3]]. intros Hcli. by destruct (G1 Hcli).
  - apply Z.ltb_ge in Hlt. cbn [pages record extend]. lia.
Qed.

(** X18.  When the number of pages cannot be read, the job never
    synchronizes, whatever the scraping run has added: both counts are then
    zero, the job ends normally and the index is as it was. *)
Theorem scrapeJob_blind (H : Host) (E : Environment) w :
  (∀ h, is_Some (count_fault H h)) →
  let '(res, w') := scrapeJob H E w in
  res = Return tt ∧ es_index w' = es_index w
  ∧ last (trace w')
    = Some (EvLog "No new pages added. Skipping Elasticsearch sync.").
Proof.
  intros Hbad.
  destruct (scrapeJob_cases H E w) as (pre & mid & cb & ca & msg & Hcb & _ & Hc & ->).
  rewrite (Hc Hbad). clear Hc.
  set (path := if is_empty _ then _ else _).
  destruct (StartScraping_run E path (extend w pre)) as (Hi & _).
  set (ws := (StartScraping E path (extend w pre)).2) in *.
  cbn [es_index extend] in Hi.
  destruct (cb <? 0) eqn:Hlt; [apply Z.ltb_lt in Hlt; lia|].
  cbn [es_index record extend]. repeat split; try done. apply last_snoc.
Qed.

(** ** The search handler *)







Lemma is_empty_false s : s ≠ EmptyString → is_empty s = false.
Proof. by destruct s. Qed.

Lemma searchPagesInEs_frame (E : Environment) query w :
  ∃ new, (searchPagesInEs E query w).2 = extend w new.
Proof.
  destruct (esClient w) eqn:Hc.
  - rewrite searchPagesInEs_engine_eq by done. by eexists.
  - rewrite searchPagesInEs_fallback_eq by done. cbv zeta.
    destruct (db_fault _ _ _); by eexists.
Qed.

Section Handler.

Variable H : Host.
Variable E : Environment.

(** What the handler does once the query is known not to be blank. *)
Lemma searchHandler_served q addr w :
  TrimSpace q ≠ EmptyString →
  ∃ r new,
    searchHandler H E q addr w
    = (mkServed r ["query=" +:+ Strconv.Quote (TrimSpace q) +:+ " from=" +:+ addr],
       extend w (handler_prologue q addr ++ new))
    ∧ ∀ e, (searchPagesInEs E (TrimSpace q)
              (extend w (handler_prologue q addr))).1.2 = Some e →
           r = mkResponse (Some 500) ("Error during search" +:+ nl)
           ∧ last new = Some (EvLog ("Error searching Elasticsearch: " +:+ e)).
Proof.
  intros Hq. unfold searchHandler. unfold bind at 1.
  unfold log_Printf at 1, emit at 1. rewrite is_empty_false by done.
  unfold bind at 1. unfold log_Printf at 1, emit at 1.
  unfold bind at 1.
  replace (record _ (record _ w)) with (extend w (handler_prologue q addr))
    by (unfold handler_prologue, extend, record; simpl; by rewrite <- app_assoc).
  set (w2 := extend w (handler_prologue q addr)).
  destruct (searchPagesInEs_frame E (TrimSpace q) w2) as [new Hnew].
  destruct (searchPagesInEs E (TrimSpace q) w2) as [[found err] w3].
  cbn [fst snd] in *. subst w3.
  assert (Hext : ∀ l1 l2, extend (extend w l1) l2 = extend w (l1 ++ l2)).
  { intros. unfold extend. simpl. by rewrite <- app_assoc. }
  assert (Hrec : ∀ e l, record e (extend w l) = extend w (l ++ [e])).
  { intros. unfold record, extend. simpl. by rewrite <- app_assoc. }
  destruct err as [e|].
  - unfold bind, log_Printf, emit, ret. unfold w2. rewrite Hext, Hrec.
    rewrite <- app_assoc.
    eexists _, _. split; [reflexivity|].
    intros e' [= <-]. split; [done|]. apply last_snoc.
  - unfold bind at 1. unfold parseFiles at 1. unfold w2. rewrite Hext.
    destruct (template_ParseFiles H _) as [e|].
    + unfold bind, log_Printf, emit, ret. rewrite Hrec, <- app_assoc.
      eexists _, _. split; [reflexivity|]. by intros e' [=].
    + unfold bind at 1. unfold executeTemplate at 1.
      destruct (template_Execute H _ _ _) as [chunks [e|]].
      * unfold bind, log_Printf, emit, ret. rewrite Hrec, <- app_assoc.
        eexists _, _. split; [reflexivity|]. by intros e' [=].
      * unfold ret. eexists _, _. split; [reflexivity|]. by intros e' [=].
Qed.

End Handler.

(** X19.  A query that is empty or only white space is refused before
    anything else happens: the response is status 400 with a fixed
    message, nothing is handed to the search logger, no store or engine is
    asked, and the only trace is one log line. *)
Theorem searchHandler_blank_query (H : Host) (E : Environment) q addr w :
  TrimSpace q = EmptyString →
  searchHandler H E q addr w
  = (mkServed (mkResponse (Some 400) ("No search query provided" +:+ nl)) [],
     record (EvLog "Search handler called") w).
Proof.
  intros Hq. unfold searchHandler, bind, log_Printf, emit, ret. by rewrite Hq.
Qed.


(** X21.  A search that fails is hidden from the client and still logged:
    when the dispatcher returns an error for a query that is not blank, the
    response is status 500 with a fixed message that does not hold the
    error, the error goes to the application log, and the query has been
    handed to the search logger all the same.  Whatever happens, the
    handler leaves the pages, the ledger, the index and the client as they
    were. *)
Theorem searchHandler_search_error (H : Host) (E : Environment) q addr w e :
  TrimSpace q ≠ EmptyString →
  (searchPagesInEs E (TrimSpace q) (extend w (handler_prologue q addr))).1.2
  = Some e →
  let '(served, w') := searchHandler H E q addr w in
  response served = mkResponse (Some 500) ("Error during search" +:+ nl)
  ∧ search_logged served
    = ["query=" +:+ Strconv.Quote (TrimSpace q) +:+ " from=" +:+ addr]
  ∧ last (trace w') = Some (EvLog ("Error searching Elasticsearch: " +:+ e))
  ∧ pages w' = pages w ∧ processed_searches w' = processed_searches w
  ∧ es_index w' = es_index w ∧ esClient w' = esClient w.
Proof.
  intros Hq He.
  destruct (searchHandler_served H E q addr w Hq) as (r & new & -> & Herr).
  destruct (Herr e He) as [-> Hlast].
  cbn [response search_logged trace extend pages processed_searches es_index esClient].
  repeat split; try done.
  rewrite app_assoc. destruct new as [|x new] using rev_ind; [done|].
  rewrite last_snoc in Hlast. injection Hlast as ->.
  rewrite app_assoc. apply last_snoc.
Qed.

(** ** initElasticsearch *)

Section Init.

Variable H : Host.
Variable E : Environment.

(** The tables of [w'] are those of [w], but for an index created empty
    where there was none. *)
Lemma ensureIndex_spec w :
  ∃ new ix,
    ensureIndex E w
    = (tt, mkWorld (trace w ++ new) (pages w) (processed_searches w) ix (esClient w))
    ∧ (ix = es_index w ∨ (es_index w = None ∧ ix = Some []))
    ∧ ((∀ h q, es_fault E h q = None) → ix = Some (default [] (es_index w))).
Proof.
  unfold ensureIndex. unfold bind at 1. unfold es_call at 1.
  destruct (es_fault E (trace w) EsExists) as [[e|n b]|] eqn:Hf.
  - unfold log_Printf, emit. eexists [_; _], _.
    split; [world_eq|]. split; [by left|]. intros Hok. by rewrite Hok in Hf.
  - destruct (400 + Z.of_nat n =? 404) eqn:H404.
    + unfold bind at 1. unfold log_Printf at 1, emit at 1.
      unfold bind at 1. unfold es_call at 1.
      match goal with |- context [es_fault E ?h (EsCreate mappings)] =>
        destruct (es_fault E h (EsCreate mappings)) as [[e|m c]|] end.
      * unfold log_Printf, emit. eexists [_; _; _; _], _.
        split; [world_eq|]. split; [by left|]. intros Hok. by rewrite Hok in Hf.
      * rewrite IsError_fault. unfold log_Printf, emit. eexists [_; _; _; _], _.
        split; [world_eq|]. split; [by left|]. intros Hok. by rewrite Hok in Hf.
      * cbn [es_index record]. destruct (es_index w) as [docs|] eqn:Hix;
          cbn [es_apply]; cbv iota beta.
        -- change (IsError 400) with true. cbv iota.
           unfold log_Printf, emit. eexists [_; _; _; _], _.
           split; [world_eq|]. split; [by left|].
           intros Hok. by rewrite Hok in Hf.
        -- change (IsError 200) with false. cbv iota.
           unfold log_Printf, emit. eexists [_; _; _; _], _.
           split; [world_eq|]. split; [by right|].
           intros Hok. by rewrite Hok in Hf.
    + unfold log_Printf, emit. eexists [_; _], _.
      split; [world_eq|]. split; [by left|]. intros Hok. by rewrite Hok in Hf.
  - destruct (es_index w) as [docs|] eqn:Hix; cbn [es_apply]; cbv iota beta.
    + change (200 =? 404) with false. cbv iota.
      unfold log_Printf, emit. eexists [_; _], _.
      split; [world_eq|]. split; [by left|]. done.
    + change (404 =? 404) with true. cbv iota.
      unfold bind at 1. unfold log_Printf at 1, emit at 1.
      unfold bind at 1. unfold es_call at 1.
      match goal with |- context [es_fault E ?h (EsCreate mappings)] =>
        destruct (es_fault E h (EsCreate mappings)) as [[e|m c]|] eqn:Hf2 end.
      * unfold log_Printf, emit. eexists [_; _; _; _], _.
        split; [world_eq|]. split; [by left|].
        intros Hok. by rewrite Hok in Hf2.
      * rewrite IsError_fault. unfold log_Printf, emit. eexists [_; _; _; _], _.
        split; [world_eq|]. split; [by left|].
        intros Hok. by rewrite Hok in Hf2.
      * cbn [es_index record setIndex es_apply]. cbv iota beta.
        change (IsError 200) with false. cbv iota.
        unfold log_Printf, emit. eexists [_; _; _; _], _.
        split; [world_eq|]. split; [by right|]. done.
Qed.

(** One attempt: either the address fails, the tables stay and only a log
    line is written; or it answers, and the client is set. *)
Lemma tryConfig_spec addr w :
  (∃ msg client,
      (is_Some (es_NewClient H (trace w) addr) ∨ is_Some (es_Info H (trace w) addr))
      ∧ tryConfig H E addr w
        = (false, mkWorld (trace w ++ [EvLog msg]) (pages w) (processed_searches w)
                    (es_index w) client))
  ∨ (∃ new ix,
      es_NewClient H (trace w) addr = None ∧ es_Info H (trace w) addr = None
      ∧ tryConfig H E addr w
        = (true, mkWorld (trace w ++ new) (pages w) (processed_searches w) ix true)
      ∧ (ix = es_index w ∨ (es_index w = None ∧ ix = Some []))
      ∧ ((∀ h q, es_fault E h q = None) → ix = Some (default [] (es_index w)))).
Proof.
  enough (Hgen : ∀ res, res = tryConfig H E addr w →
    (∃ msg client,
        (is_Some (es_NewClient H (trace w) addr) ∨ is_Some (es_Info H (trace w) addr))
        ∧ res
          = (false, mkWorld (trace w ++ [EvLog msg]) (pages w) (processed_searches w)
                      (es_index w) client))
    ∨ (∃ new ix,
        es_NewClient H (trace w) addr = None ∧ es_Info H (trace w) addr = None
        ∧ res
          = (true, mkWorld (trace w ++ new) (pages w) (processed_searches w) ix true)
        ∧ (ix = es_index w ∨ (es_index w = None ∧ ix = Some []))
        ∧ ((∀ h q, es_fault E h q = None) → ix = Some (default [] (es_index w)))))
    by (by apply Hgen).
  intros res.
  unfold tryConfig. unfold bind at 1. unfold newClient at 1.
  destruct (es_NewClient H (trace w) addr) as [e|] eqn:Hn; cbn [is_nil].
  - intros ->. left. unfold bind, log_Printf, emit, ret. eexists _, _.
    split; [left; by eexists|]. unfold record, setClient. simpl. reflexivity.
  - unfold bind at 1. unfold info at 1. cbn [trace setClient].
    destruct (es_Info H (trace w) addr) as [e|] eqn:Hi.
    + intros ->. left. unfold bind, log_Printf, emit, ret. eexists _, _.
      split; [right; by eexists|]. unfold record, setClient. simpl. reflexivity.
    + unfold bind at 1. unfold log_Printf at 1, emit at 1.
      unfold bind at 1.
      match goal with |- context [ensureIndex E ?w1] =>
        destruct (ensureIndex_spec w1) as (new & ix & -> & Hix & Hok) end.
      unfold ret. cbn [trace pages processed_searches es_index esClient record setClient]
        in *.
      intros ->. right.
      eexists (_ :: new), ix. repeat split; try done.
      by rewrite <- app_assoc.
Qed.

Lemma connectLoop_spec esHost remaining : ∀ i w,
  let '(ok, w') := connectLoop H E esHost remaining i w in
  pages w' = pages w ∧ processed_searches w' = processed_searches w
  ∧ (es_index w' = es_index w ∨ (es_index w = None ∧ es_index w' = Some []))
  ∧ (ok = true →
     esClient w' = true
     ∧ ∃ h addr, es_NewClient H h addr = None ∧ es_Info H h addr = None)
  ∧ (ok = false →
     es_index w' = es_index w
     ∧ ∃ new, trace w' = trace w ++ new ∧ length new = (3 * remaining)%nat
              ∧ Forall (λ e, is_request e = false) new).
Proof.
  induction remaining as [|k IH]; intros i w.
  - simpl. unfold ret. repeat split; try done; [by left|].
    exists []. by rewrite app_nil_r.
  - cbn [connectLoop]. unfold bind at 1.
    destruct (tryConfig_spec ("http://" +:+ esHost +:+ ":9200") w)
      as [(msg & cl & _ & ->)|(new & ix & Hn & Hi & -> & Hix & _)].
    2:{ unfold ret. cbn [pages processed_searches es_index esClient].
        repeat split; try done. by eexists _, _. }
    unfold bind at 1.
    match goal with |- context [tryConfig H E ?a ?w1] =>
      destruct (tryConfig_spec a w1)
        as [(msg2 & cl2 & _ & ->)|(new & ix & Hn & Hi & -> & Hix & _)] end.
    2:{ unfold ret. cbn [pages processed_searches es_index esClient] in *.
        repeat split; try done. by eexists _, _. }
    cbn [trace pages processed_searches es_index esClient].
    unfold bind at 1. unfold log_Printf at 1, emit at 1.
    match goal with |- context [connectLoop H E esHost k ?j ?w3] =>
      specialize (IH j w3); destruct (connectLoop H E esHost k j w3) as [ok w'] end.
    cbn [trace pages processed_searches es_index esClient record] in IH.
    destruct IH as (Hp & Hl & Hix & Ht & Hf).
    split; [done|]. split; [done|]. split; [done|]. split; [exact Ht|].
    intros Hok. destruct (Hf Hok) as (Hi' & new & -> & Hlen & Hall).
    split; [done|].
    eexists (_ :: _ :: _ :: new). rewrite <- !app_assoc. split; [done|].
    split; [simpl; lia|]. repeat constructor. done.
Qed.

End Init.

(** X22.  When no address answers, initElasticsearch gives up after ten
    rounds of two attempts, having written thirty-two log lines and asked
    nothing of the store or of the index: the client is nil and the tables
    are as they were.  Its last log line announces the fallback; but the
    synchronizer, which the main function calls next, panics on the nil
    client. *)
Theorem initElasticsearch_unreachable (H : Host) (E : Environment) w :
  (∀ h addr, is_Some (es_NewClient H h addr) ∨ is_Some (es_Info H h addr)) →
  let w' := (initElasticsearch H E w).2 in
  esClient w' = false
  ∧ pages w' = pages w ∧ processed_searches w' = processed_searches w
  ∧ es_index w' = es_index w
  ∧ (∃ new, trace w' = trace w ++ new ∧ length new = 32%nat
            ∧ Forall (λ e, is_request e = false) new
            ∧ last new
              = Some (EvLog "Application will continue with PostgreSQL search fallback"))
  ∧ (syncPagesToElasticsearch E w').1 = Panic.
Proof.
  intros Hdown. cbv zeta. unfold initElasticsearch, bind.
  set (esHost := if is_empty _ then _ else _).
  assert (Hloop := connectLoop_spec H E esHost 10 0 w).
  destruct (connectLoop H E esHost 10 0 w) as [ok w1].
  destruct Hloop as (Hp & Hl & _ & Ht & Hf).
  destruct ok.
  - destruct (Ht eq_refl) as (_ & h & addr & Hn & Hi).
    destruct (Hdown h addr) as [[? Hs]|[? Hs]]; congruence.
  - destruct (Hf eq_refl) as (Hix & new & Htr & Hlen & Hall).
    unfold bind, log_Printf, emit, record, setClient.
    cbn [snd trace pages processed_searches es_index esClient].
    split; [done|]. split; [done|]. split; [done|]. split; [done|]. split.
    + eexists (new ++ [_; _]). rewrite Htr, <- !app_assoc. split; [done|].
      split; [rewrite length_app; simpl; lia|].
      split; [apply Forall_app; split; [done|by repeat constructor]|].
      by rewrite last_app.
    + by rewrite syncPagesToElasticsearch_nil_client.
Qed.

(** X23.  initElasticsearch never loses data: whatever the addresses and
    the engine do, the pages and the ledger are as before, and the index is
    as before or, where there was none, created empty; it is never deleted
    and no document is added or removed.  The client is set at the end only
    if some address accepted a client and answered its information
    request. *)
Theorem initElasticsearch_keeps_data (H : Host) (E : Environment) w :
  let w' := (initElasticsearch H E w).2 in
  pages w' = pages w ∧ processed_searches w' = processed_searches w
  ∧ (es_index w' = es_index w ∨ (es_index w = None ∧ es_index w' = Some []))
  ∧ (esClient w' = true →
     ∃ h addr, es_NewClient H h addr = None ∧ es_Info H h addr = None).
Proof.
  cbv zeta. unfold initElasticsearch, bind.
  set (esHost := if is_empty _ then _ else _).
  assert (Hloop := connectLoop_spec H E esHost 10 0 w).
  destruct (connectLoop H E esHost 10 0 w) as [ok w1].
  destruct Hloop as (Hp & Hl & Hix & Ht & Hf).
  destruct ok.
  - unfold ret. cbn [snd]. split; [done|]. split; [done|]. split; [done|].
    intros _. by apply Ht.
  - unfold bind, log_Printf, emit, record, setClient.
    cbn [snd trace pages processed_searches es_index esClient].
    split; [done|]. split; [done|]. split; [done|]. done.
Qed.

(** X24.  When the HTTP address of the host accepts a client and answers,
    and the engine does not fail, initElasticsearch sets the client at the
    first attempt and leaves an index that exists: the one that was there,
    with its documents, or a new empty one.  The synchronizer then does
    not panic. *)
Theorem initElasticsearch_connects (H : Host) (E : Environment) w :
  let esHost :=
    if is_empty (os_Getenv H "ES_HOST") then "localhost" else os_Getenv H "ES_HOST" in
  es_NewClient H (trace w) ("http://" +:+ esHost +:+ ":9200") = None →
  es_Info H (trace w) ("http://" +:+ esHost +:+ ":9200") = None →
  (∀ h q, es_fault E h q = None) →
  let w' := (initElasticsearch H E w).2 in
  esClient w' = true
  ∧ es_index w' = Some (default [] (es_index w))
  ∧ pages w' = pages w
  ∧ ∃ r, (syncPagesToElasticsearch E w').1 = Return r.
Proof.
  intros esHost Hn Hi Hok. cbv zeta. unfold initElasticsearch.
  fold esHost. cbn [connectLoop]. unfold bind.
  destruct (tryConfig_spec H E ("http://" +:+ esHost +:+ ":9200") w)
    as [(msg & cl & [[? Hs]|[? Hs]] & _)|(new & ix & _ & _ & -> & _ & Hix)];
    [congruence|congruence|].
  unfold ret. cbn [snd esClient es_index pages].
  split; [done|]. split; [by apply Hix|]. split; [done|].
  by apply syncPagesToElasticsearch_returns.
Qed.






(** * The further properties on concrete worlds *)

Ltac not_in_list :=
  let Hin := fresh "Hin" in
  intros Hin; vm_compute in Hin;
  repeat (apply elem_of_cons in Hin as [Hin|Hin]; [discriminate Hin|]);
  by apply elem_of_nil in Hin.

Lemma FindStringSubmatch_spec_witness :
  is_Some (QueryRegexp.FindStringSubmatch short_log).
Proof.
  apply (proj2 (FindStringSubmatch_spec short_log)).
  exists "SEARCH: ", "GOLANG", (" from=10.0.0.7:5050" +:+ nl).
  split; [discriminate|]. split; [|reflexivity].
  not_in_list.
Defined.


Lemma StartScraping_nothing_to_do_witness :
  (extractSearchTerms idle "search.log" (stocked true)).1 = None
  ∧ ∃ new, StartScraping idle "search.log" (stocked true)
           = (tt, extend (stocked true) new)
           ∧ Forall (λ e, is_request e = false) new
           ∧ last new = Some (EvPrint ("No search terms found." +:+ nl)).
Proof.
  apply StartScraping_nothing_to_do. intros line Hin.
  vm_compute log_lines in Hin.
  repeat (apply elem_of_cons in Hin as [->|Hin]; [vm_compute; reflexivity|]).
  by apply elem_of_nil in Hin.
Defined.


Lemma StartScraping_keeps_rows_valid_witness :
  Forall valid_row (pages (stocked false))
  ∧ Forall valid_row (pages (StartScraping calm "search.log" (stocked false)).2).
Proof.
  assert (Hv : Forall valid_row (pages (stocked false))).
  { vm_compute pages. repeat constructor; discriminate. }
  split; [exact Hv|]. by apply StartScraping_keeps_rows_valid.
Defined.

Lemma StartScraping_marks_only_stored_witness :
  "golang" ∈ elems (extractSearchTerms calm "search.log" empty_world).1
  ∧ (buildWikipediaURL calm "golang" "da"
       ∈ URL <$> pages (StartScraping calm "search.log" empty_world).2
     ∨ buildWikipediaURL calm "golang" "en"
         ∈ URL <$> pages (StartScraping calm "search.log" empty_world).2).
Proof.
  apply StartScraping_marks_only_stored.
  - vm_compute. by left.
  - vm_compute. apply not_elem_of_nil.
Defined.

Lemma StartScraping_needs_content_witness :
  pages (StartScraping headings_only "search.log" empty_world).2 = pages empty_world
  ∧ processed_searches (StartScraping headings_only "search.log" empty_world).2
    = processed_searches empty_world.
Proof.
  apply StartScraping_needs_content. intros h lang url. reflexivity.
Defined.

Lemma scrapeTerm_ingests_witness :
  ∃ new h now,
    trace (scrapeTerm danish "golang" empty_world).2 = trace empty_world ++ new
    ∧ visits new
      = [EvVisit "da.wikipedia.org" (buildWikipediaURL danish "golang" "da")
           (colly_Visit danish h "da.wikipedia.org"
              (buildWikipediaURL danish "golang" "da"))]
    ∧ pages (scrapeTerm danish "golang" empty_world).2
      = upsert_row (fetched_row danish "golang" "da" h now) (pages empty_world)
    ∧ processed_searches (scrapeTerm danish "golang" empty_world).2
      = processed_searches empty_world ++ ["golang"].
Proof.
  apply scrapeTerm_ingests.
  - vm_compute. apply not_elem_of_nil.
  - intros h q. reflexivity.
  - intros h. vm_compute. split; [reflexivity|discriminate].
Defined.

Lemma markAsProcessed_then_alreadyProcessed_witness :
  let w1 := (markAsProcessed calm "rust" (stocked false)).2 in
  (alreadyProcessed calm "rust" w1).1 = true
  ∧ processed_searches (markAsProcessed calm "rust" w1).2 = processed_searches w1
  ∧ ("rust" ∉ processed_searches (stocked false) →
     processed_searches w1 = processed_searches (stocked false) ++ ["rust"])
  ∧ pages w1 = pages (stocked false) ∧ es_index w1 = es_index (stocked false).
Proof.
  apply (markAsProcessed_then_alreadyProcessed calm "rust" (stocked false));
    reflexivity.
Defined.

Lemma savePageToDBWithLang_insert_or_fail_witness :
  valid_row rust_page
  ∧ let '(err, w') := savePageToDBWithLang store_full rust_page "en" (stocked false) in
    err = Some ("error inserting or updating page: " +:+ "disk full")
    ∧ pages w' = pages (stocked false)
    ∧ processed_searches w' = processed_searches (stocked false)
    ∧ es_index w' = es_index (stocked false).
Proof.
  assert (Hv : valid_row rust_page) by (repeat split; discriminate).
  split; [exact Hv|].
  apply (proj2 (savePageToDBWithLang_insert_or_fail store_full rust_page "en"
                  (stocked false)) "disk full" Hv).
  reflexivity.
Defined.


Lemma searchPagesInEs_fallback_sublist_witness :
  elems (searchPagesInEs calm EmptyString (stocked false)).1.1
  = scanned <$> pages (stocked false).
Proof.
  apply (searchPagesInEs_fallback_sublist calm EmptyString (stocked false));
    reflexivity.
Defined.

Lemma searchPagesInEs_read_only_witness :
  (searchPagesInEs calm "go" (stocked true)).2
  = extend (stocked true)
      [EvSearch (search_body "go")
         (es_search calm (trace (stocked true)) (es_index (stocked true))
            (search_body "go"))].
Proof.
  apply (proj2 (searchPagesInEs_read_only calm "go" (stocked true))). reflexivity.
Defined.

Lemma syncPagesToElasticsearch_on_error_witness :
  esClient (stocked true) = true
  ∧ let '(res, w') := syncPagesToElasticsearch engine_down (stocked true) in
    pages w' = pages (stocked true)
    ∧ processed_searches w' = processed_searches (stocked true)
    ∧ esClient w' = esClient (stocked true)
    ∧ (∀ e, res = Return (Some e) →
            es_index w' = es_index (stocked true) ∨ es_index w' = None
            ∨ es_index w' = Some []).
Proof.
  split; [reflexivity|].
  apply (syncPagesToElasticsearch_on_error engine_down (stocked true)). reflexivity.
Defined.

Lemma syncPagesToElasticsearch_rebuilds_witness :
  let key := λ d, (doc_title d, doc_url d, doc_content d, doc_language d) in
  ∃ w1 w2 docs1 docs2,
    syncPagesToElasticsearch calm (stocked true) = (Return None, w1)
    ∧ syncPagesToElasticsearch calm w1 = (Return None, w2)
    ∧ es_index w1 = Some docs1 ∧ es_index w2 = Some docs2
    ∧ key <$> docs1
      = (λ r, (Title r, URL r, Content r, EmptyString)) <$> pages (stocked true)
    ∧ key <$> docs2 = key <$> docs1.
Proof.
  apply (syncPagesToElasticsearch_rebuilds calm (stocked true)).
  - reflexivity.
  - intros h q. reflexivity.
  - intros h. reflexivity.
Defined.

Lemma scrapeJob_skips_sync_witness :
  (∀ h, count_fault host h = None)
  ∧ let '(res, w') := scrapeJob host calm (stocked true) in
    (length (pages w') ≤ length (pages (stocked true)))%nat
    ∧ res = Return tt ∧ es_index w' = es_index (stocked true)
    ∧ esClient w' = esClient (stocked true)
    ∧ last (trace w')
      = Some (EvLog "No new pages added. Skipping Elasticsearch sync.").
Proof.
  assert (Hok : ∀ h, count_fault host h = None) by reflexivity.
  split; [exact Hok|].
  assert (T := scrapeJob_skips_sync host calm (stocked true) Hok).
  destruct (scrapeJob host calm (stocked true)) as [res w'] eqn:Hrun.
  assert (Hlen : (length (pages w') ≤ length (pages (stocked true)))%nat).
  { vm_compute in Hrun. injection Hrun as <- <-. vm_compute. lia. }
  split; [exact Hlen|]. exact (T Hlen).
Defined.

Lemma scrapeJob_syncs_new_pages_witness :
  (∀ h, count_fault host h = None)
  ∧ let '(res, w') := scrapeJob host calm empty_world in
    (length (pages empty_world) < length (pages w'))%nat
    ∧ res = Panic ∧ es_index w' = es_index empty_world.
Proof.
  assert (Hok : ∀ h, count_fault host h = None) by reflexivity.
  split; [exact Hok|].
  assert (T := scrapeJob_syncs_new_pages host calm empty_world Hok).
  destruct (scrapeJob host calm empty_world) as [res w'] eqn:Hrun.
  assert (Hlen : (length (pages empty_world) < length (pages w'))%nat).
  { vm_compute in Hrun. injection Hrun as <- <-. vm_compute. lia. }
  split; [exact Hlen|]. exact (proj1 (T Hlen) eq_refl).
Defined.

Lemma scrapeJob_blind_witness :
  (∀ h, is_Some (count_fault host_blind h))
  ∧ let '(res, w') := scrapeJob host_blind calm empty_world in
    res = Return tt ∧ es_index w' = es_index empty_world
    ∧ last (trace w')
      = Some (EvLog "No new pages added. Skipping Elasticsearch sync.").
Proof.
  assert (Hbad : ∀ h, is_Some (count_fault host_blind h)) by (intros h; by eexists).
  split; [exact Hbad|]. exact (scrapeJob_blind host_blind calm empty_world Hbad).
Defined.

Lemma searchHandler_blank_query_witness :
  searchHandler host calm "   " "10.0.0.7:5050" (stocked false)
  = (mkServed (mkResponse (Some 400) ("No search query provided" +:+ nl)) [],
     record (EvLog "Search handler called") (stocked false)).
Proof. apply searchHandler_blank_query. reflexivity. Defined.


Lemma searchHandler_search_error_witness :
  let '(served, w') :=
    searchHandler host search_down "go" "10.0.0.7:5050" (stocked false) in
  response served = mkResponse (Some 500) ("Error during search" +:+ nl)
  ∧ search_logged served
    = ["query=" +:+ Strconv.Quote (TrimSpace "go") +:+ " from=" +:+ "10.0.0.7:5050"]
  ∧ last (trace w')
    = Some (EvLog ("Error searching Elasticsearch: " +:+ "connection reset"))
  ∧ pages w' = pages (stocked false)
  ∧ processed_searches w' = processed_searches (stocked false)
  ∧ es_index w' = es_index (stocked false)
  ∧ esClient w' = esClient (stocked false).
Proof.
  apply (searchHandler_search_error host search_down "go" "10.0.0.7:5050"
           (stocked false) "connection reset").
  - discriminate.
  - vm_compute. reflexivity.
Defined.


Lemma initElasticsearch_unreachable_witness :
  let w' := (initElasticsearch host_alone calm (stocked false)).2 in
  esClient w' = false
  ∧ pages w' = pages (stocked false)
  ∧ processed_searches w' = processed_searches (stocked false)
  ∧ es_index w' = es_index (stocked false)
  ∧ (∃ new, trace w' = trace (stocked false) ++ new ∧ length new = 32%nat
            ∧ Forall (λ e, is_request e = false) new
            ∧ last new
              = Some (EvLog "Application will continue with PostgreSQL search fallback"))
  ∧ (syncPagesToElasticsearch calm w').1 = Panic.
Proof.
  apply initElasticsearch_unreachable. intros h addr. right. by eexists.
Defined.

Lemma initElasticsearch_keeps_data_witness :
  ∃ h addr, es_NewClient host h addr = None ∧ es_Info host h addr = None.
Proof.
  apply (initElasticsearch_keeps_data host calm empty_world). reflexivity.
Defined.

Lemma initElasticsearch_connects_witness :
  let w' := (initElasticsearch host calm (stocked false)).2 in
  esClient w' = true
  ∧ es_index w' = Some (default [] (es_index (stocked false)))
  ∧ pages w' = pages (stocked false)
  ∧ ∃ r, (syncPagesToElasticsearch calm w').1 = Return r.
Proof.
  apply (initElasticsearch_connects host calm (stocked false)).
  - reflexivity.
  - reflexivity.
  - intros h q. reflexivity.
Defined.
